(** * URL shortener: click recording and analytics pipeline

    A shallow embedding of the backend of the URL shortener (the Mongoose
    models [Url] and [Click], the service class [UrlService] and the Express
    handlers of the server) and of the time display of the statistics page,
    followed by the properties proved about them.

    Conventions of the embedding.
    - Strings are Rocq strings, one character per byte (header values and
      shortcodes are Latin-1 on the wire); [toLowerCase] acts on the letters
      A-Z, the only Latin-1 characters that lower-case to ASCII letters.
    - Dates are integers, milliseconds since the epoch; the clock is an
      explicit argument [now], read once per service call.
    - JSON numbers are rationals ([Q]); [new Date(x)] truncates to an integer.
    - The document store is a record of two collections, each a list of
      documents in insertion order, and a counter for fresh [_id]s.
    - An [async] function returns a [result]: [Return v], [Throw message]
      with the message of the JavaScript [Error], or [Pending].
    - Libraries the code calls but does not contain ([validator.isURL],
      [geoip.lookup], [Math.random], the process environment) are the fields
      of an environment record [Env].
    - Of Mongoose and Express the embedding keeps what the code relies on:
      validation runs before the [pre('save')] hooks of a schema; the setter
      [trim] of the [Url] schema applies to the shortcode of a document and
      to the shortcode of a query filter; an empty object is not stored
      ([minimize]); routes are tried in the order of their registration.
    - Not embedded: the path [updatedAt] that [timestamps] maintains (no
      code reads it), and the rounding of JavaScript numbers ([validity] and
      [Math.random] are exact rationals here). *)

From Stdlib Require Import List String Ascii Bool Arith ZArith NArith QArith Qround Lia Lqa.
From Stdlib Require Import Sorting.Sorted Permutation.
From Stdlib Require Import DecimalString.
Import ListNotations.

Close Scope Q_scope.
Open Scope list_scope.
Open Scope string_scope.

(** ** JavaScript string primitives *)

Module JS.

Definition isUpper (c : ascii) : bool :=
  (65 <=? nat_of_ascii c)%nat && (nat_of_ascii c <=? 90)%nat.

Definition isLower (c : ascii) : bool :=
  (97 <=? nat_of_ascii c)%nat && (nat_of_ascii c <=? 122)%nat.

Definition isDigit (c : ascii) : bool :=
  (48 <=? nat_of_ascii c)%nat && (nat_of_ascii c <=? 57)%nat.

(** The character class [[a-zA-Z0-9]]. *)
Definition isAlnum (c : ascii) : bool := isLower c || isUpper c || isDigit c.

Definition lowerChar (c : ascii) : ascii :=
  if isUpper c then ascii_of_nat (nat_of_ascii c + 32) else c.

(** [s.toLowerCase()] *)
Fixpoint toLowerCase (s : string) : string :=
  match s with
  | EmptyString => EmptyString
  | String c t => String (lowerChar c) (toLowerCase t)
  end.

(** [s.includes(search)] *)
Fixpoint includes (s search : string) : bool :=
  if prefix search s then true
  else match s with
       | EmptyString => false
       | String _ t => includes t search
       end.

Fixpoint forallb_string (p : ascii -> bool) (s : string) : bool :=
  match s with
  | EmptyString => true
  | String c t => p c && forallb_string p t
  end.

(** [s.charAt(i)]: the empty string when [i] is out of range. *)
Fixpoint charAt (s : string) (i : nat) : string :=
  match s, i with
  | EmptyString, _ => EmptyString
  | String c _, O => String c EmptyString
  | String _ t, S j => charAt t j
  end.

(** White space removed by [String.prototype.trim] (the Latin-1 part). *)
Definition isSpace (c : ascii) : bool :=
  let n := nat_of_ascii c in
  (n =? 32)%nat || ((9 <=? n)%nat && (n <=? 13)%nat) || (n =? 160)%nat.

Fixpoint trimStart (s : string) : string :=
  match s with
  | EmptyString => EmptyString
  | String c t => if isSpace c then trimStart t else s
  end.

(** Drops trailing white space: the tail is trimmed first, and a space in
    front of an emptied tail goes too. *)
Fixpoint trimEnd (s : string) : string :=
  match s with
  | EmptyString => EmptyString
  | String c t =>
      match trimEnd t with
      | EmptyString => if isSpace c then EmptyString else String c EmptyString
      | t' => String c t'
      end
  end.

(** [s.trim()] *)
Definition trim (s : string) : string := trimEnd (trimStart s).

(** Truthiness of a possibly undefined string: [undefined] and [''] are
    falsy. *)
Definition truthy (s : option string) : bool :=
  match s with
  | Some (String _ _) => true
  | _ => false
  end.

(** [s || d] for a possibly undefined string [s]. *)
Definition orDefault (s : option string) (d : string) : string :=
  match s with
  | Some (String c t) => String c t
  | _ => d
  end.

(** [new Date(x)] keeps the integral part of [x] (truncation toward 0). *)
Definition truncate (x : Q) : Z := Z.quot (Qnum x) (Z.pos (Qden x)).

End JS.

(** ** Mongoose's validation messages

    The texts the library puts in the [message] of a [ValidationError];
    the server inspects the message of the errors it catches. *)

Module Mongoose.

(** Why a validator of the schema refuses a value: the built-in validators
    [required], [minlength], [maxlength] and [enum], or a validator of the
    schema with its own message. *)
Inductive Failure : Type :=
| Required
| TooShort (value bound : string)
| TooLong (value bound : string)
| NotInEnum (value : string)
| Refused (message : string).

Definition backtick (s : string) : string := "`" ++ s ++ "`".

Definition requiredMessage (path : string) : string :=
  "Path " ++ backtick path ++ " is required.".

Section Messages.
(** How a message quotes the refused value: between back quotes, a long
    value abbreviated. *)
Context (shown : string -> string).

Definition minlengthMessage (path value bound : string) : string :=
  "Path " ++ backtick path ++ " (" ++ shown value
    ++ ") is shorter than the minimum allowed length (" ++ bound ++ ").".

Definition maxlengthMessage (path value bound : string) : string :=
  "Path " ++ backtick path ++ " (" ++ shown value
    ++ ") is longer than the maximum allowed length (" ++ bound ++ ").".

Definition enumMessage (path value : string) : string :=
  shown value ++ " is not a valid enum value for path " ++ backtick path ++ ".".

Definition message (path : string) (f : Failure) : string :=
  match f with
  | Required => requiredMessage path
  | TooShort value bound => minlengthMessage path value bound
  | TooLong value bound => maxlengthMessage path value bound
  | NotInEnum value => enumMessage path value
  | Refused m => m
  end.

Fixpoint joinErrors (errs : list (string * Failure)) : string :=
  match errs with
  | [] => ""
  | [(p, f)] => p ++ ": " ++ message p f
  | (p, f) :: rest => p ++ ": " ++ message p f ++ ", " ++ joinErrors rest
  end.

Definition validationMessage (model : string) (errs : list (string * Failure)) : string :=
  model ++ " validation failed: " ++ joinErrors errs.
End Messages.

End Mongoose.

(** ** External collaborators *)

(** What [geoip.lookup] returns for an address it knows. *)
Module Geo.
Record t := mk {
  country : string;
  region : string;
  city : string;
  timezone : string;
  ll : option (Q * Q)
}.
End Geo.

(** [isURL] is [validator.isURL(string, options)] with the options of the
    server, [lookup] is [geoip.lookup(ip)] ([None] for its [null]), [random]
    gives the successive values of [Math.random()], [BASE_URL] is
    [process.env.BASE_URL] and [shown] is the form in which Mongoose quotes a
    refused value in a validation message. *)
Record Env := mkEnv {
  isURL : string -> bool;
  lookup : string -> option Geo.t;
  random : nat -> Q;
  BASE_URL : option string;
  shown : string -> string
}.

(** ** The [Url] model *)

Module Url.

Record t := mk {
  _id : nat;
  shortcode : string;
  originalUrl : string;
  createdAt : Z;
  expiresAt : Z;
  isActive : bool;
  createdBy : string;
  totalClicks : N;
  lastClickAt : option Z;
  tags : list string;
  description : option string
}.

(** The object handed to [new Url({...})]. *)
Record init := mkInit {
  i_originalUrl : string;
  i_expiresAt : Z;
  i_shortcode : option string;
  i_tags : list string;
  i_description : option string
}.

Definition setActive (b : bool) (u : t) : t :=
  mk (_id u) (shortcode u) (originalUrl u) (createdAt u) (expiresAt u) b
     (createdBy u) (totalClicks u) (lastClickAt u) (tags u) (description u).

Definition setClicks (n : N) (last : option Z) (u : t) : t :=
  mk (_id u) (shortcode u) (originalUrl u) (createdAt u) (expiresAt u) (isActive u)
     (createdBy u) n last (tags u) (description u).

(** The virtual [isExpired]: [new Date() > this.expiresAt]. *)
Definition isExpired (now : Z) (u : t) : bool := (expiresAt u <? now)%Z.

(** The virtual [timeRemaining]. *)
Definition timeRemaining (now : Z) (u : t) : Z :=
  let remaining := (expiresAt u - now)%Z in
  if (0 <? remaining)%Z then remaining else 0%Z.

(** The validator of [originalUrl]: [/^https?:\/\/.+/]. The dot matches any
    character but a line terminator. *)
Definition isLineTerminator (c : ascii) : bool :=
  (nat_of_ascii c =? 10)%nat || (nat_of_ascii c =? 13)%nat.

Definition afterScheme (v : string) : option string :=
  if prefix "https://" v then Some (substring 8 (String.length v - 8) v)
  else if prefix "http://" v then Some (substring 7 (String.length v - 7) v)
  else None.

Definition urlPattern (v : string) : bool :=
  match afterScheme v with
  | Some (String c _) => negb (isLineTerminator c)
  | _ => false
  end.

Definition chars : string :=
  "ABCDEFGHIJKLMNOPQRSTUVWXYZabcdefghijklmnopqrstuvwxyz0123456789".

(** [Math.floor(r * chars.length)] for a value [r] of [Math.random()]. *)
Definition randomIndex (r : Q) : nat :=
  Z.to_nat (Qfloor (r * inject_Z (Z.of_nat (String.length chars)))%Q).

(** The body of the [for] loop of [generateRandomShortcode], [n] rounds
    from the draw number [pos]. *)
Fixpoint generateLoop (rnd : nat -> Q) (pos n : nat) (result : string) : string :=
  match n with
  | O => result
  | S k => generateLoop rnd (S pos) k (result ++ JS.charAt chars (randomIndex (rnd pos)))
  end.

Definition generateRandomShortcode (rnd : nat -> Q) (pos : nat) : string :=
  generateLoop rnd pos 7 "".

(** A stored document has the shortcode [sc]: the test of the unique index
    on [shortcode]. *)
Definition holds (urls : list t) (sc : string) : bool :=
  existsb (fun u => String.eqb (shortcode u) sc) urls.

(** [this.constructor.exists({ shortcode })]. The filter of a query is cast
    by the schema, which trims its shortcode as it trims the shortcode of a
    document. *)
Definition exists_ (urls : list t) (sc : string) : bool :=
  holds urls (JS.trim sc).

(** The [while (exists)] loop of the pre-save hook. It has no bound in the
    source; [fuel] bounds the rounds here and [None] stands for a loop
    that is still running when the fuel is spent. A round makes 7 draws. *)
Fixpoint generateUnique (fuel : nat) (rnd : nat -> Q) (pos : nat) (urls : list t)
  : option (string * nat) :=
  match fuel with
  | O => None
  | S f =>
      let sc := generateRandomShortcode rnd pos in
      if exists_ urls sc then generateUnique f rnd (pos + 7) urls
      else Some (sc, pos + 7)
  end.

(** The shortcode of the document [new Url({...})] builds: the setter
    [trim: true] has been applied, and a document without shortcode reads as
    the empty string here. *)
Definition shortcodeOf (i : init) : string :=
  match i_shortcode i with
  | Some sc => JS.trim sc
  | None => ""
  end.

(** The pre-save hook of a new document: a missing (or empty) shortcode is
    generated. The setter [trim: true] has been applied by the
    constructor. *)
Definition preSave (fuel : nat) (rnd : nat -> Q) (pos : nat) (urls : list t)
  (i : init) : option (string * nat) :=
  match option_map JS.trim (i_shortcode i) with
  | Some (String c s) => Some (String c s, pos)
  | _ => generateUnique fuel rnd pos urls
  end.

(** Schema validation of a new document, path by path in the order of the
    schema; each failure is a path and the reason. *)
Definition validateShortcode (sc : string) : list (string * Mongoose.Failure) :=
  if (String.length sc =? 0)%nat then
    [("shortcode", Mongoose.Required)]
  else if (String.length sc <? 3)%nat then
    [("shortcode", Mongoose.TooShort sc "3")]
  else if (20 <? String.length sc)%nat then
    [("shortcode", Mongoose.TooLong sc "20")]
  else [].

Definition validateOriginalUrl (v : string) : list (string * Mongoose.Failure) :=
  if (String.length v =? 0)%nat then
    [("originalUrl", Mongoose.Required)]
  else if urlPattern v then []
  else [("originalUrl", Mongoose.Refused "Invalid URL format")].

Definition validateDescription (d : option string) : list (string * Mongoose.Failure) :=
  match d with
  | Some v =>
      if (500 <? String.length v)%nat then
        [("description", Mongoose.TooLong v "500")]
      else []
  | None => []
  end.

Definition validate (sc : string) (i : init) : list (string * Mongoose.Failure) :=
  (validateShortcode sc ++ validateOriginalUrl (i_originalUrl i)
     ++ validateDescription (i_description i))%list.

(** The message of the store's duplicate-key error for the unique index
    on [shortcode] (the text of MongoDB, with the names of the database and
    the collection the code configures). *)
Definition duplicateKeyMessage (sc : string) : string :=
  "E11000 duplicate key error collection: url_shortener.urls index: shortcode_1 dup key: { shortcode: "
    ++ String (ascii_of_nat 34) sc ++ String (ascii_of_nat 34) " }".

(** The document a successful first [save] stores: the schema defaults
    fill what the constructor was not given. *)
Definition fresh (id : nat) (now : Z) (sc : string) (i : init) : t :=
  mk id sc (i_originalUrl i) now (i_expiresAt i) true "anonymous" 0%N None
     (map JS.trim (i_tags i)) (i_description i).

(** [Url.findOne({ shortcode, isActive: true })]; the shortcode of the
    filter is trimmed, as in every query of the model. *)
Definition findOneActive (urls : list t) (sc : string) : option t :=
  find (fun u => String.eqb (shortcode u) (JS.trim sc) && isActive u) urls.

(** [Url.findOne({ shortcode })] *)
Definition findOne (urls : list t) (sc : string) : option t :=
  find (fun u => String.eqb (shortcode u) (JS.trim sc)) urls.

(** [updateOne({ _id: id }, update)]: the first document with that [_id],
    if any, is replaced by its update. *)
Fixpoint updateOne (id : nat) (f : t -> t) (urls : list t) : list t :=
  match urls with
  | [] => []
  | u :: rest => if (_id u =? id)%nat then f u :: rest else u :: updateOne id f rest
  end.

(** [findActive()]: the documents that are active and expire after
    [now]. *)
Definition findActive (now : Z) (urls : list t) : list t :=
  filter (fun u => isActive u && (now <? expiresAt u)%Z) urls.

(** [cleanupExpired()]:
    [updateMany({ expiresAt: { $lt: now } }, { $set: { isActive: false } })].
    The result is the new collection and [modifiedCount], the number of
    matched documents the update changed. *)
Definition cleanupExpired (now : Z) (urls : list t) : list t * nat :=
  (map (fun u => if (expiresAt u <? now)%Z then setActive false u else u) urls,
   List.length (filter (fun u => (expiresAt u <? now)%Z && isActive u) urls)).

(** [Url.deleteOne({ shortcode })]: the first document with the (trimmed)
    shortcode of the filter, if any, is removed; the result is the new
    collection and [deletedCount]. *)
Fixpoint deleteOne (sc : string) (urls : list t) : list t * nat :=
  match urls with
  | [] => ([], 0)
  | u :: rest =>
      if String.eqb (shortcode u) (JS.trim sc) then (rest, 1)
      else let (rest', n) := deleteOne sc rest in (u :: rest', n)
  end.

(** [Url.find(filter)] for the two filters of [getAllUrls]: [{}] and
    [{ isActive: true }]. *)
Definition findAll (includeInactive : bool) (urls : list t) : list t :=
  if includeInactive then urls else filter isActive urls.

End Url.

(** ** The [Click] model *)

Module Click.

Record Coordinates := mkCoordinates {
  latitude : option Q;
  longitude : option Q
}.

Record Location := mkLocation {
  country : option string;
  region : option string;
  city : option string;
  timezone : option string;
  coordinates : option Coordinates
}.

Record Device := mkDevice {
  type : string;
  browser : string;
  os : string;
  isMobile : bool
}.

(** The object [parseRequestData] builds and [new Click(clickData)]
    receives. The campaign fields of the schema are never written by the
    code and are left out. *)
Record data := mkData {
  d_shortcode : string;
  d_ip : option string;
  d_userAgent : string;
  d_referer : string;
  d_location : Location;
  d_device : Device
}.

(** A stored click; in a projection that excludes a field, the field is
    [None]. The shortcode is stored as given: the [Click] schema has no
    setter on it, and its queries compare it as it is. *)
Record t := mk {
  _id : nat;
  shortcode : string;
  timestamp : Z;
  ip : option string;
  userAgent : string;
  referer : string;
  location : Location;
  device : Device
}.

Definition ofData (id : nat) (now : Z) (d : data) : t :=
  mk id (d_shortcode d) now (d_ip d) (d_userAgent d) (d_referer d)
     (d_location d) (d_device d).

(** Mongoose does not store an empty object: a click whose location has no
    field set is stored without the path [location], and a lean query
    returns it so. *)
Definition isEmptyLocation (l : Location) : bool :=
  match country l, region l, city l, timezone l, coordinates l with
  | None, None, None, None, None => true
  | _, _, _, _, _ => false
  end.

Definition hasLocation (c : t) : bool := negb (isEmptyLocation (location c)).

(** Schema validation on [save]. *)
Definition validateRequired (path : string) (v : option string)
  : list (string * Mongoose.Failure) :=
  if JS.truthy v then [] else [(path, Mongoose.Required)].

Definition validateMaxlength (path : string) (v : string)
  : list (string * Mongoose.Failure) :=
  if (1000 <? String.length v)%nat
  then [(path, Mongoose.TooLong v "1000")] else [].

Definition deviceTypes : list string := ["mobile"; "desktop"; "tablet"; "unknown"].

Definition validateType (v : string) : list (string * Mongoose.Failure) :=
  if existsb (String.eqb v) deviceTypes then []
  else [("device.type", Mongoose.NotInEnum v)].

Definition validate (d : data) : list (string * Mongoose.Failure) :=
  (validateRequired "shortcode" (Some (d_shortcode d))
     ++ validateRequired "ip" (d_ip d)
     ++ validateMaxlength "userAgent" (d_userAgent d)
     ++ validateMaxlength "referer" (d_referer d)
     ++ validateType (type (d_device d)))%list.

(** *** Queries *)

Section Sorting.
Context {A : Type} (key : A -> Z).

(** Descending insertion sort on [key]; among equal keys the earlier
    element stays first. *)
Fixpoint insertDesc (x : A) (l : list A) : list A :=
  match l with
  | [] => [x]
  | y :: rest => if (key y <=? key x)%Z then x :: l else y :: insertDesc x rest
  end.

Fixpoint sortDesc (l : list A) : list A :=
  match l with
  | [] => []
  | x :: rest => insertDesc x (sortDesc rest)
  end.
End Sorting.

(** [.limit(n)]: the store reads a limit of 0 as no limit. *)
Definition limit {A : Type} (n : nat) (l : list A) : list A :=
  match n with
  | O => l
  | _ => firstn n l
  end.

(** [.select('-ip')] *)
Definition excludeIp (c : t) : t :=
  mk (_id c) (shortcode c) (timestamp c) None (userAgent c) (referer c)
     (location c) (device c).

(** [find({ shortcode })], also the [$match] stage of the aggregations. *)
Definition matching (sc : string) (clicks : list t) : list t :=
  filter (fun c => String.eqb (shortcode c) sc) clicks.

(** [getClicksByShortcode(shortcode, limit = 100)] *)
Definition getClicksByShortcode (clicks : list t) (sc : string) (lim : option nat) : list t :=
  let lim := match lim with Some n => n | None => 100 end in
  map excludeIp (limit lim (sortDesc timestamp (matching sc clicks))).

(** The [$group] stage: the groups in the order in which their keys first
    occur, each with its members. *)
Section Grouping.
Context {K : Type} (keyEqb : K -> K -> bool) (key : t -> K).

Fixpoint addToGroup (c : t) (groups : list (K * list t)) : list (K * list t) :=
  match groups with
  | [] => [(key c, [c])]
  | (k, members) :: rest =>
      if keyEqb (key c) k then (k, members ++ [c])%list :: rest
      else (k, members) :: addToGroup c rest
  end.

Definition group (clicks : list t) : list (K * list t) :=
  fold_left (fun groups c => addToGroup c groups) clicks [].
End Grouping.

Definition optionEqb (a b : option string) : bool :=
  match a, b with
  | Some x, Some y => String.eqb x y
  | None, None => true
  | _, _ => false
  end.

Record LocationStat := mkLocationStat {
  l_country : option string;
  l_city : option string;
  l_count : nat;
  lastClick : Z
}.

Record DeviceStat := mkDeviceStat {
  s_type : string;
  s_browser : string;
  s_os : string;
  s_count : nat
}.

Record RefererStat := mkRefererStat {
  r_referer : string;
  r_count : nat
}.

(** [{ $max: '$timestamp' }] over the members of a group. *)
Definition maxTimestamp (members : list t) : Z :=
  match members with
  | [] => 0%Z
  | c :: rest => fold_left (fun m c' => Z.max m (timestamp c')) rest (timestamp c)
  end.

(** [getLocationStats(shortcode)] *)
Definition getLocationStats (clicks : list t) (sc : string) : list LocationStat :=
  let groups :=
    group (fun a b => optionEqb (fst a) (fst b) && optionEqb (snd a) (snd b))
          (fun c => (country (location c), city (location c)))
          (matching sc clicks) in
  let stats :=
    map (fun g => mkLocationStat (fst (fst g)) (snd (fst g))
                    (List.length (snd g)) (maxTimestamp (snd g))) groups in
  firstn 50 (sortDesc (fun st => Z.of_nat (l_count st)) stats).

(** [getDeviceStats(shortcode)] *)
Definition getDeviceStats (clicks : list t) (sc : string) : list DeviceStat :=
  let groups :=
    group (fun a b => String.eqb (fst (fst a)) (fst (fst b))
                      && String.eqb (snd (fst a)) (snd (fst b))
                      && String.eqb (snd a) (snd b))
          (fun c => (type (device c), browser (device c), os (device c)))
          (matching sc clicks) in
  let stats :=
    map (fun g => mkDeviceStat (fst (fst (fst g))) (snd (fst (fst g))) (snd (fst g))
                    (List.length (snd g))) groups in
  sortDesc (fun st => Z.of_nat (s_count st)) stats.

(** [getRefererStats(shortcode)] *)
Definition getRefererStats (clicks : list t) (sc : string) : list RefererStat :=
  let groups := group String.eqb referer (matching sc clicks) in
  let stats := map (fun g => mkRefererStat (fst g) (List.length (snd g))) groups in
  firstn 20 (sortDesc (fun st => Z.of_nat (r_count st)) stats).

(** [Click.deleteMany({ shortcode })] *)
Definition deleteMany (sc : string) (clicks : list t) : list t :=
  filter (fun c => negb (String.eqb (shortcode c) sc)) clicks.

(** [getClicksByDateRange(shortcode, startDate, endDate)]: the clicks of the
    shortcode with [startDate <= timestamp <= endDate], most recent first;
    no field is excluded and there is no limit. *)
Definition getClicksByDateRange (clicks : list t) (sc : string) (startDate endDate : Z)
  : list t :=
  sortDesc timestamp
    (filter (fun c => String.eqb (shortcode c) sc
                      && (startDate <=? timestamp c)%Z && (timestamp c <=? endDate)%Z)
            clicks).

End Click.

(** ** The state of the running server and its store *)

(** [dbConnected] is the flag the server sets once [connectDB] has
    succeeded; [urls] and [clicks] are the two collections; [nextId] is the
    next fresh [_id] and [draws] the number of calls of [Math.random] made so
    far. *)
Record State := mkState {
  dbConnected : bool;
  urls : list Url.t;
  clicks : list Click.t;
  nextId : nat;
  draws : nat
}.

Definition setUrls (us : list Url.t) (s : State) : State :=
  mkState (dbConnected s) us (clicks s) (nextId s) (draws s).

(** ** Calls that read and write the state and may throw *)

(** The promise of an [async] call: fulfilled with a value, rejected with
    an [Error] of the given message, or not settled because a loop still
    runs. *)
Inductive result (A : Type) : Type :=
| Return (v : A)
| Throw (message : string)
| Pending.
Arguments Return {A} v.
Arguments Throw {A} message.
Arguments Pending {A}.

Definition M (A : Type) : Type := State -> result A * State.

Definition ret {A : Type} (v : A) : M A := fun s => (Return v, s).

Definition throw {A : Type} (message : string) : M A := fun s => (Throw message, s).

Definition bind {A B : Type} (c : M A) (k : A -> M B) : M B :=
  fun s =>
    match c s with
    | (Return v, s') => k v s'
    | (Throw m, s') => (Throw m, s')
    | (Pending, s') => (Pending, s')
    end.

Notation "x <- c1 ;; c2" := (bind c1 (fun x => c2))
  (at level 61, c1 at next level, right associativity).

(** [try { body } catch (error) { throw new Error(pre + error.message) }] *)
Definition rethrow {A : Type} (pre : string) (body : M A) : M A :=
  fun s =>
    match body s with
    | (Throw m, s') => (Throw (pre ++ m), s')
    | r => r
    end.

Definition get : M State := fun s => (Return s, s).

Definition put (s : State) : M unit := fun _ => (Return tt, s).

(** *** Writes of the models *)

(** [urlDoc.save()] of a new document. Mongoose validates the document
    before it runs the [pre('save')] hooks of the schema, so a document
    without shortcode fails on [required] and the hook that would generate
    one is not reached; for a document that passes, the hook finds a
    shortcode and leaves it. Then comes the insertion, which the unique
    index on [shortcode] refuses when a document (active or not) holds the
    shortcode. *)
Definition saveNewUrl (env : Env) (now : Z) (fuel : nat) (i : Url.init) : M Url.t :=
  fun s =>
    match Url.validate (Url.shortcodeOf i) i with
    | [] =>
        match Url.preSave fuel (random env) (draws s) (urls s) i with
        | None => (Pending, s)
        | Some (sc, pos) =>
            let s1 := mkState (dbConnected s) (urls s) (clicks s) (nextId s) pos in
            if Url.holds (urls s) sc then (Throw (Url.duplicateKeyMessage sc), s1)
            else
              let u := Url.fresh (nextId s) now sc i in
              (Return u, mkState (dbConnected s) (urls s ++ [u]) (clicks s)
                                 (S (nextId s)) pos)
        end
    | errs => (Throw (Mongoose.validationMessage (shown env) "Url" errs), s)
    end.

(** The state a successful [click.save()] leaves. *)
Definition withClick (now : Z) (d : Click.data) (s : State) : State :=
  mkState (dbConnected s) (urls s) (clicks s ++ [Click.ofData (nextId s) now d])
          (S (nextId s)) (draws s).

(** [click.save()] of a new click. *)
Definition saveNewClick (env : Env) (now : Z) (d : Click.data) : M unit :=
  fun s =>
    match Click.validate d with
    | [] => (Return tt, withClick now d s)
    | errs => (Throw (Mongoose.validationMessage (shown env) "Click" errs), s)
    end.

(** [url.incrementClicks()] on the document [url] a query has returned:
    the counter of that in-memory document is incremented and [save] writes
    the two modified paths to the stored document of the same [_id]; it
    fails when the store no longer has one (the message, which no caller
    reads, is shortened). *)
Definition incrementClicks (now : Z) (url : Url.t) : M unit :=
  fun s =>
    let total := (Url.totalClicks url + 1)%N in
    if existsb (fun u => (Url._id u =? Url._id url)%nat) (urls s) then
      (Return tt, setUrls (Url.updateOne (Url._id url) (Url.setClicks total (Some now)) (urls s)) s)
    else (Throw "No document found for query on model Url", s).

(** ** The service class *)

Module UrlService.

Record UrlData := mkUrlData {
  originalUrl : string;
  validity : option Q;
  shortcode : option string;
  tags : option (list string);
  description : option string
}.

Record Created := mkCreated {
  c_shortcode : string;
  c_originalUrl : string;
  c_shortLink : string;
  c_expiresAt : Z;
  c_createdAt : Z
}.

Record RequestData := mkRequestData {
  ip : option string;
  userAgent : option string;
  referer : option string
}.

Record Analytics := mkAnalytics {
  recentClicks : list Click.t;
  locationStats : list Click.LocationStat;
  deviceStats : list Click.DeviceStat;
  refererStats : list Click.RefererStat
}.

Record Stats := mkStats {
  st_originalUrl : string;
  st_shortcode : string;
  st_createdAt : Z;
  st_expiresAt : Z;
  st_isActive : bool;
  st_isExpired : bool;
  st_totalClicks : N;
  st_lastClickAt : option Z;
  st_tags : list string;
  st_description : option string;
  analytics : Analytics
}.

(** [process.env.BASE_URL || 'http://localhost:8080'] *)
Definition baseUrl (env : Env) : string :=
  JS.orDefault (BASE_URL env) "http://localhost:8080".

(** [new Date(Date.now() + validity * 60 * 1000)] *)
Definition expiryOf (now : Z) (validity : Q) : Z :=
  JS.truncate (inject_Z now + validity * 60 * 1000)%Q.

Definition createShortUrl (env : Env) (now : Z) (fuel : nat) (urlData : UrlData)
  : M Created :=
  rethrow "Failed to create short URL: "
    (let validity := match validity urlData with Some v => v | None => 30%Q end in
     let tags := match tags urlData with Some l => l | None => [] end in
     let expiresAt := expiryOf now validity in
     _ <- (if JS.truthy (shortcode urlData) then
             s <- get ;;
             match Url.findOneActive (urls s)
                     (match shortcode urlData with Some sc => sc | None => "" end) with
             | Some _ => throw "Custom shortcode already exists"
             | None => ret tt
             end
           else ret tt) ;;
     urlDoc <- saveNewUrl env now fuel
                 (Url.mkInit (originalUrl urlData) expiresAt (shortcode urlData)
                             tags (description urlData)) ;;
     ret (mkCreated (Url.shortcode urlDoc) (Url.originalUrl urlDoc)
                    (baseUrl env ++ "/" ++ Url.shortcode urlDoc)
                    (Url.expiresAt urlDoc) (Url.createdAt urlDoc))).

Definition getUrlByShortcode (now : Z) (sc : string) : M (option Url.t) :=
  rethrow "Failed to get URL: "
    (s <- get ;;
     match Url.findOneActive (urls s) sc with
     | None => ret None
     | Some url =>
         if Url.isExpired now url then
           _ <- put (setUrls (Url.updateOne (Url._id url) (Url.setActive false) (urls s)) s) ;;
           ret None
         else ret (Some url)
     end).

Definition mobileKeywords : list string :=
  ["mobile"; "android"; "iphone"; "ipod"; "blackberry"; "iemobile"; "opera mini"].

Definition tabletKeywords : list string := ["tablet"; "ipad"].

(** [parseUserAgent(userAgent = '')]; a regular expression that is an
    alternation of literals tests for the presence of one of them. *)
Definition parseUserAgent (userAgent : option string) : Click.Device :=
  let ua := JS.toLowerCase (match userAgent with Some s => s | None => "" end) in
  let type :=
    if existsb (JS.includes ua) mobileKeywords then "mobile"
    else if existsb (JS.includes ua) tabletKeywords then "tablet"
    else "desktop" in
  let browser :=
    if JS.includes ua "chrome" then "Chrome"
    else if JS.includes ua "firefox" then "Firefox"
    else if JS.includes ua "safari" then "Safari"
    else if JS.includes ua "edge" then "Edge"
    else if JS.includes ua "opera" then "Opera"
    else "Unknown" in
  let os :=
    if JS.includes ua "windows" then "Windows"
    else if JS.includes ua "mac" then "macOS"
    else if JS.includes ua "linux" then "Linux"
    else if JS.includes ua "android" then "Android"
    else if JS.includes ua "ios" || JS.includes ua "iphone" || JS.includes ua "ipad"
         then "iOS"
    else "Unknown" in
  Click.mkDevice type browser os (String.eqb type "mobile").

Definition emptyLocation : Click.Location :=
  Click.mkLocation None None None None None.

Definition localLocation : Click.Location :=
  Click.mkLocation (Some "Local") None (Some "Development") None None.

Definition locationOfGeo (geo : Geo.t) : Click.Location :=
  Click.mkLocation (Some (Geo.country geo)) (Some (Geo.region geo))
    (Some (Geo.city geo)) (Some (Geo.timezone geo))
    (Some (Click.mkCoordinates (option_map fst (Geo.ll geo))
                               (option_map snd (Geo.ll geo)))).

Definition parseRequestData (env : Env) (sc : string) (requestData : RequestData)
  : Click.data :=
  let location :=
    match ip requestData with
    | Some a =>
        if JS.truthy (Some a) && negb (String.eqb a "127.0.0.1") && negb (String.eqb a "::1")
        then match lookup env a with
             | Some geo => locationOfGeo geo
             | None => emptyLocation
             end
        else localLocation
    | None => localLocation
    end in
  let device := parseUserAgent (userAgent requestData) in
  Click.mkData sc (ip requestData)
    (JS.orDefault (userAgent requestData) "Unknown")
    (JS.orDefault (referer requestData) "Direct")
    location device.

Definition recordClick (env : Env) (now : Z) (sc : string) (requestData : RequestData)
  : M (option string) :=
  rethrow "Failed to record click: "
    (found <- getUrlByShortcode now sc ;;
     match found with
     | None => ret None
     | Some url =>
         let clickData := parseRequestData env sc requestData in
         _ <- saveNewClick env now clickData ;;
         _ <- incrementClicks now url ;;
         ret (Some (Url.originalUrl url))
     end).

Definition getUrlStats (now : Z) (sc : string) : M (option Stats) :=
  rethrow "Failed to get URL stats: "
    (s <- get ;;
     match Url.findOne (urls s) sc with
     | None => ret None
     | Some url =>
         let recent := Click.getClicksByShortcode (clicks s) sc (Some 100) in
         let locations := Click.getLocationStats (clicks s) sc in
         let devices := Click.getDeviceStats (clicks s) sc in
         let referers := Click.getRefererStats (clicks s) sc in
         ret (Some (mkStats (Url.originalUrl url) (Url.shortcode url) (Url.createdAt url)
                      (Url.expiresAt url) (Url.isActive url) (Url.isExpired now url)
                      (Url.totalClicks url) (Url.lastClickAt url) (Url.tags url)
                      (Url.description url)
                      (mkAnalytics recent locations devices referers)))
     end).

Definition cleanupExpiredUrls (now : Z) : M nat :=
  rethrow "Failed to cleanup expired URLs: "
    (s <- get ;;
     let (us, modifiedCount) := Url.cleanupExpired now (urls s) in
     _ <- put (setUrls us s) ;;
     ret modifiedCount).

(** What [deleteUrl] returns: [{ success, deletedCount }] or
    [{ success, error }]. *)
Record DeleteResult := mkDeleteResult {
  success : bool;
  deletedCount : option nat;
  error : option string
}.

(** [deleteUrl(shortcode)]: the clicks go first, then the link. The store of
    the model does not fail, so the [catch] branch is not taken. *)
Definition deleteUrl (sc : string) : M DeleteResult :=
  s <- get ;;
  let remaining := Click.deleteMany sc (clicks s) in
  let (us, count) := Url.deleteOne sc (urls s) in
  _ <- put (mkState (dbConnected s) us remaining (nextId s) (draws s)) ;;
  if (count =? 0)%nat
  then ret (mkDeleteResult false None (Some "URL not found or already deleted"))
  else ret (mkDeleteResult true (Some count) None).

(** The paths [getAllUrls] can sort on that every document has as a date or
    a number. *)
Inductive SortField : Type :=
| ByCreatedAt
| ByExpiresAt
| ByTotalClicks.

Definition sortKey (f : SortField) (u : Url.t) : Z :=
  match f with
  | ByCreatedAt => Url.createdAt u
  | ByExpiresAt => Url.expiresAt u
  | ByTotalClicks => Z.of_N (Url.totalClicks u)
  end.

(** The argument of [getAllUrls]; a field that is absent is [None]. *)
Record Options := mkOptions {
  page : option nat;
  limit : option nat;
  sortBy : option SortField;
  sortOrder : option string;
  includeInactive : option bool
}.

(** A link as [getAllUrls] returns it, with the computed fields. *)
Record Listed := mkListed {
  l_url : Url.t;
  l_shortLink : string;
  l_isExpired : bool;
  l_timeRemaining : Z
}.

(** The value of [Math.ceil(totalCount / limit)]: a number, or what a
    division by 0 gives. *)
Inductive Pages : Type :=
| Finite (n : nat)
| Infinity
| NaN.

Record Pagination := mkPagination {
  currentPage : nat;
  totalPages : Pages;
  totalCount : nat;
  hasNextPage : bool;
  hasPrevPage : bool
}.

Record Listing := mkListing {
  listed : list Listed;
  pagination : Pagination
}.

(** [Math.ceil(totalCount / limit)] *)
Definition pagesOf (count lim : nat) : Pages :=
  match lim with
  | O => match count with O => NaN | _ => Infinity end
  | _ => Finite ((count + lim - 1) / lim)
  end.

(** [page < Math.ceil(totalCount / limit)] *)
Definition beforePage (p : nat) (pages : Pages) : bool :=
  match pages with
  | Finite n => (p <? n)%nat
  | Infinity => true
  | NaN => false
  end.

(** [.sort({ [sortBy]: sortOrder === 'desc' ? -1 : 1 })]. The store
    promises no order among documents of equal key, and each query sorts
    anew; the order given here to equal keys (that of insertion) is one the
    store may return, and what is proved of the order of a result holds of
    the store only where the keys differ. *)
Definition sorted (f : SortField) (order : string) (us : list Url.t) : list Url.t :=
  if String.eqb order "desc" then Click.sortDesc (sortKey f) us
  else Click.sortDesc (fun u => (- sortKey f u)%Z) us.

Definition withExtras (env : Env) (now : Z) (u : Url.t) : Listed :=
  mkListed u (baseUrl env ++ "/" ++ Url.shortcode u)
    (Url.expiresAt u <? now)%Z
    (if (now <? Url.expiresAt u)%Z then (Url.expiresAt u - now)%Z else 0%Z).

(** [getAllUrls(options = {})]. The page and the limit are natural numbers;
    [skip((page - 1) * limit)] is negative for page 0 and a positive limit,
    which the store refuses (its message is shortened). *)
Definition getAllUrls (env : Env) (now : Z) (options : Options) : M Listing :=
  rethrow "Failed to get URLs: "
    (let p := match page options with Some n => n | None => 1 end in
     let lim := match limit options with Some n => n | None => 50 end in
     let f := match sortBy options with Some x => x | None => ByCreatedAt end in
     let order := match sortOrder options with Some x => x | None => "desc" end in
     let inactive := match includeInactive options with Some b => b | None => true end in
     s <- get ;;
     let found := Url.findAll inactive (urls s) in
     if ((p =? 0)%nat && negb (lim =? 0)%nat) then throw "Skip value must be non-negative"
     else
       let us := Click.limit lim (skipn ((p - 1) * lim) (sorted f order found)) in
       let count := List.length found in
       ret (mkListing (map (withExtras env now) us)
              (mkPagination p (pagesOf count lim) count
                 (beforePage p (pagesOf count lim)) (1 <? p)%nat))).

End UrlService.

(** ** The HTTP handlers *)

Module Server.

(** The body of [POST /shorturls]. *)
Record CreateRequest := mkCreateRequest {
  url : option string;
  validity : option Q;
  shortcode : option string;
  tags : option (list string);
  description : option string
}.

(** What the redirect handler reads of a request. *)
Record Request := mkRequest {
  x_forwarded_for : option string;
  remoteAddress : option string;
  req_ip : option string;
  userAgentHeader : option string;
  refererHeader : option string
}.

Record ClickDetail := mkClickDetail {
  cd_timestamp : Z;
  source : string;
  cd_location : string
}.

Inductive Body : Type :=
| ErrorBody (error code : string)
| CreatedBody (shortLink : string) (expiry : Z) (shortcode : string)
| StatsBody (originalUrl : string) (createdAt expiresAt : Z) (totalClicks : N)
    (clickDetails : list ClickDetail)
    (locationStats : list Click.LocationStat)
    (deviceStats : list Click.DeviceStat)
    (refererStats : list Click.RefererStat).

Inductive Response : Type :=
| Json (status : nat) (body : Body)
| Redirect (status : nat) (target : string).

(** A handler maps the state to the response it sends, if it gets to send
    one, and the state it leaves. *)
Definition Handler : Type := State -> option Response * State.

Definition unavailable : Response :=
  Json 503 (ErrorBody "Database not available" "DATABASE_UNAVAILABLE").

Definition internalError : Response :=
  Json 500 (ErrorBody "Internal server error" "INTERNAL_ERROR").

Definition notFound : Response :=
  Json 404 (ErrorBody "Short URL not found" "NOT_FOUND").

Definition isValidUrl (env : Env) (s : string) : bool := isURL env s.

(** [/^[a-zA-Z0-9]+$/.test(shortcode)] *)
Definition alphanumeric (sc : string) : bool :=
  negb (String.eqb sc "") && JS.forallb_string JS.isAlnum sc.

(** [getLocationFromIP], a helper of the server that no handler calls. *)
Definition getLocationFromIP (env : Env) (ip : string) : string :=
  if String.eqb ip "127.0.0.1" || String.eqb ip "::1" || String.eqb ip "::ffff:127.0.0.1"
  then "Local Development"
  else match lookup env ip with
       | Some geo =>
           JS.orDefault (Some (Geo.city geo)) "Unknown City" ++ ", "
             ++ JS.orDefault (Some (Geo.country geo)) "Unknown Country"
       | None => "Unknown Location"
       end.

Definition getClientIP (req : Request) : string :=
  JS.orDefault (x_forwarded_for req)
    (JS.orDefault (remoteAddress req)
       (JS.orDefault (req_ip req) "127.0.0.1")).

(** [validity || 30]: 0 is falsy. *)
Definition validityMinutes (validity : option Q) : Q :=
  match validity with
  | Some v => if Qeq_bool v 0 then 30%Q else v
  | None => 30%Q
  end.

(** [validityMinutes <= 0 || validityMinutes > 525600] *)
Definition validityOutOfRange (v : Q) : bool :=
  Qle_bool v 0 || negb (Qle_bool v 525600).

(** [app.post('/shorturls', ...)] *)
Definition postShortUrls (env : Env) (now : Z) (fuel : nat) (body : CreateRequest)
  : Handler :=
  fun s =>
    if negb (dbConnected s) then (Some unavailable, s)
    else
      match url body with
      | Some (String c0 u0) =>
          let u := String c0 u0 in
          if negb (isValidUrl env u) then
            (Some (Json 400 (ErrorBody
               "Invalid URL format. URL must include protocol (http:// or https://)"
               "INVALID_URL")), s)
          else
            let sc := match shortcode body with Some x => x | None => "" end in
            if JS.truthy (shortcode body) && negb (alphanumeric sc) then
              (Some (Json 400 (ErrorBody
                 "Shortcode must contain only alphanumeric characters"
                 "INVALID_SHORTCODE")), s)
            else if JS.truthy (shortcode body)
                    && ((String.length sc <? 3)%nat || (20 <? String.length sc)%nat) then
              (Some (Json 400 (ErrorBody
                 "Shortcode must be between 3 and 20 characters"
                 "INVALID_SHORTCODE_LENGTH")), s)
            else
              let minutes := validityMinutes (validity body) in
              if validityOutOfRange minutes then
                (Some (Json 400 (ErrorBody
                   "Validity must be between 1 and 525600 minutes (1 year)"
                   "INVALID_VALIDITY")), s)
              else
                match UrlService.createShortUrl env now fuel
                        (UrlService.mkUrlData u (Some minutes) (shortcode body)
                           (Some (match tags body with Some l => l | None => [] end))
                           (description body)) s with
                | (Return r, s') =>
                    (Some (Json 201 (CreatedBody (UrlService.c_shortLink r)
                                       (UrlService.c_expiresAt r)
                                       (UrlService.c_shortcode r))), s')
                | (Throw message, s') =>
                    if JS.includes message "already exists" then
                      (Some (Json 409 (ErrorBody
                         "Custom shortcode already exists. Please choose a different one."
                         "SHORTCODE_EXISTS")), s')
                    else (Some internalError, s')
                | (Pending, s') => (None, s')
                end
      | _ => (Some (Json 400 (ErrorBody "URL is required" "MISSING_URL")), s)
      end.

(** The entry of [clickDetails] for a click of the lean query. For a click
    stored without [location], reading [click.location.city] throws a
    [TypeError]: [None]. *)
Definition clickDetail (click : Click.t) : option ClickDetail :=
  if Click.hasLocation click then
    Some (mkClickDetail (Click.timestamp click) (Click.referer click)
            (JS.orDefault (Click.city (Click.location click)) "Unknown" ++ ", "
               ++ JS.orDefault (Click.country (Click.location click)) "Unknown"))
  else None.

(** [recentClicks.map(click => ...)]: an entry that throws ends the map. *)
Fixpoint clickDetails (clicks : list Click.t) : option (list ClickDetail) :=
  match clicks with
  | [] => Some []
  | click :: rest =>
      match clickDetail click, clickDetails rest with
      | Some d, Some ds => Some (d :: ds)
      | _, _ => None
      end
  end.

(** [app.get('/shorturls/:shortcode', ...)]; what the [map] throws is caught
    with the rest. *)
Definition getShortUrlStats (now : Z) (sc : string) : Handler :=
  fun s =>
    if negb (dbConnected s) then (Some unavailable, s)
    else
      match UrlService.getUrlStats now sc s with
      | (Return None, s') => (Some notFound, s')
      | (Return (Some stats), s') =>
          let a := UrlService.analytics stats in
          match clickDetails (UrlService.recentClicks a) with
          | Some details =>
              (Some (Json 200 (StatsBody (UrlService.st_originalUrl stats)
                       (UrlService.st_createdAt stats) (UrlService.st_expiresAt stats)
                       (UrlService.st_totalClicks stats)
                       details
                       (UrlService.locationStats a) (UrlService.deviceStats a)
                       (UrlService.refererStats a))), s')
          | None => (Some internalError, s')
          end
      | (Throw _, s') => (Some internalError, s')
      | (Pending, s') => (None, s')
      end.

(** [app.get('/:shortcode', ...)] *)
Definition redirect (env : Env) (now : Z) (sc : string) (req : Request) : Handler :=
  fun s =>
    if negb (dbConnected s) then (Some unavailable, s)
    else
      let requestData :=
        UrlService.mkRequestData (Some (getClientIP req)) (userAgentHeader req)
          (refererHeader req) in
      match UrlService.recordClick env now sc requestData s with
      | (Return (Some (String c t)), s') => (Some (Redirect 302 (String c t)), s')
      | (Return _, s') =>
          (Some (Json 404 (ErrorBody "Short URL not found or has expired" "NOT_FOUND")), s')
      | (Throw _, s') => (Some internalError, s')
      | (Pending, s') => (None, s')
      end.

(** The answers of [DELETE /shorturls/:shortcode]. *)
Inductive DeleteBody : Type :=
| DeletedBody (message shortcode : string)
| DeleteErrorBody (error code : string).

Inductive DeleteResponse : Type :=
| DeleteJson (status : nat) (body : DeleteBody).

(** [app.delete('/shorturls/:shortcode', ...)] *)
Definition deleteShortUrl (now : Z) (sc : string) : State -> option DeleteResponse * State :=
  fun s =>
    if negb (dbConnected s) then
      (Some (DeleteJson 503 (DeleteErrorBody "Database not available" "DATABASE_UNAVAILABLE")), s)
    else
      match UrlService.getUrlByShortcode now sc s with
      | (Return None, s1) =>
          (Some (DeleteJson 404 (DeleteErrorBody "Short URL not found" "NOT_FOUND")), s1)
      | (Return (Some existingUrl), s1) =>
          match UrlService.deleteUrl sc s1 with
          | (Return deleteResult, s2) =>
              if UrlService.success deleteResult then
                (Some (DeleteJson 200 (DeletedBody "URL deleted successfully" sc)), s2)
              else
                (Some (DeleteJson 500
                         (DeleteErrorBody
                            (JS.orDefault (UrlService.error deleteResult) "Failed to delete URL")
                            "DELETE_FAILED")), s2)
          | (Throw _, s2) =>
              (Some (DeleteJson 500 (DeleteErrorBody "Internal server error" "INTERNAL_ERROR")), s2)
          | (Pending, s2) => (None, s2)
          end
      | (Throw _, s1) =>
          (Some (DeleteJson 500 (DeleteErrorBody "Internal server error" "INTERNAL_ERROR")), s1)
      | (Pending, s1) => (None, s1)
      end.

(** The handler that answers a [GET] request, by the segments of its path
    (decoded, none empty). The routes are tried in the order in which the
    server registers them and their fixed segments match without regard to
    case, so a request for [/health] or [/shorturls] never reaches the
    handler of [/:shortcode]. *)
Inductive GetRoute : Type :=
| ToHealth
| ToStats (sc : string)
| ToList
| ToRedirect (sc : string)
| Unmatched.

Definition routeGet (segments : list string) : GetRoute :=
  match segments with
  | [a] =>
      if String.eqb a "" then Unmatched
      else if String.eqb (JS.toLowerCase a) "health" then ToHealth
      else if String.eqb (JS.toLowerCase a) "shorturls" then ToList
      else ToRedirect a
  | [a; b] =>
      if String.eqb (JS.toLowerCase a) "shorturls" then ToStats b else Unmatched
  | _ => Unmatched
  end.

(** The task that [cron.schedule] runs every five minutes: nothing without
    the database, else [cleanupExpiredUrls]; what it catches it logs. *)
Definition sweep (now : Z) (s : State) : State :=
  if negb (dbConnected s) then s
  else snd (UrlService.cleanupExpiredUrls now s).

End Server.

(** ** The statistics page of the frontend *)

Module Statistics.

(** A non-negative integer in a template literal. *)
Definition show (n : Z) : string := NilZero.string_of_uint (N.to_uint (Z.to_N n)).

(** [getTimeRemaining(expiryString)] for an expiry that is a date;
    [Math.floor] of a quotient of non-negative integers is their integer
    division. *)
Definition getTimeRemaining (now expiry : Z) : string :=
  let diff := (expiry - now)%Z in
  if (diff <=? 0)%Z then "Expired"
  else
    let minutes := (diff / (1000 * 60))%Z in
    let hours := (minutes / 60)%Z in
    let days := (hours / 24)%Z in
    if (0 <? days)%Z then show days ++ "d " ++ show (hours mod 24) ++ "h"
    else if (0 <? hours)%Z then show hours ++ "h " ++ show (minutes mod 60) ++ "m"
    else show minutes ++ "m".

End Statistics.

(** ** Overlapping calls of [recordClick]

    Each [await] of [recordClick] hands control back to the event loop, so
    the store operations of calls in flight interleave; every store
    operation is atomic. A call is a thread whose state says which store
    operation it performs next, and a schedule says which thread moves, and
    at what time. *)

Module Concurrent.

(** - [Start]: about to run [Url.findOne({ shortcode, isActive: true })];
    - [Expiring]: holds an expired document, about to run [Url.updateOne];
    - [Saving]: holds the document, about to run [click.save()];
    - [Incrementing]: the click is saved, about to run
      [url.incrementClicks()];
    - [Done]: the call has settled. *)
Inductive Thread : Type :=
| Start (sc : string) (requestData : UrlService.RequestData)
| Expiring (url : Url.t)
| Saving (url : Url.t) (clickData : Click.data)
| Incrementing (url : Url.t)
| Done (r : result (option string)).

Definition wrap (r : result (option string)) : result (option string) :=
  match r with
  | Throw m => Throw ("Failed to record click: " ++ m)
  | r' => r'
  end.

(** One store operation of a thread, and the synchronous code up to its
    next [await]. *)
Definition step (env : Env) (now : Z) (t : Thread) (s : State) : Thread * State :=
  match t with
  | Start sc requestData =>
      match Url.findOneActive (urls s) sc with
      | None => (Done (Return None), s)
      | Some url =>
          if Url.isExpired now url then (Expiring url, s)
          else (Saving url (UrlService.parseRequestData env sc requestData), s)
      end
  | Expiring url =>
      (Done (Return None),
       setUrls (Url.updateOne (Url._id url) (Url.setActive false) (urls s)) s)
  | Saving url clickData =>
      match saveNewClick env now clickData s with
      | (Return _, s') => (Incrementing url, s')
      | (Throw m, s') => (Done (wrap (Throw m)), s')
      | (Pending, s') => (Done Pending, s')
      end
  | Incrementing url =>
      match incrementClicks now url s with
      | (Return _, s') => (Done (Return (Some (Url.originalUrl url))), s')
      | (Throw m, s') => (Done (wrap (Throw m)), s')
      | (Pending, s') => (Done Pending, s')
      end
  | Done r => (Done r, s)
  end.

Fixpoint setNth {A : Type} (i : nat) (x : A) (l : list A) : list A :=
  match l, i with
  | [], _ => []
  | _ :: rest, O => x :: rest
  | y :: rest, S j => y :: setNth j x rest
  end.

(** The threads and the state after a schedule. *)
Fixpoint run (env : Env) (schedule : list (nat * Z)) (ts : list Thread) (s : State)
  : list Thread * State :=
  match schedule with
  | [] => (ts, s)
  | (i, now) :: rest =>
      match nth_error ts i with
      | None => run env rest ts s
      | Some t =>
          let (t', s') := step env now t s in
          run env rest (setNth i t' ts) s'
      end
  end.

(** A thread that runs alone takes at most three steps. *)
Definition runAlone (env : Env) (now : Z) (t : Thread) (s : State) : Thread * State :=
  let (t1, s1) := step env now t s in
  let (t2, s2) := step env now t1 s1 in
  step env now t2 s2.

Definition settled (t : Thread) : bool :=
  match t with
  | Done _ => true
  | _ => false
  end.

Definition succeeded (t : Thread) : bool :=
  match t with
  | Done (Return (Some _)) => true
  | _ => false
  end.

End Concurrent.

(** ** Calls one after another *)

(** [recordClick] called for each request in turn, each call finishing
    before the next starts; the results come in the order of the calls. *)
Fixpoint recordClicks (env : Env) (sc : string)
  (calls : list (Z * UrlService.RequestData)) (s : State)
  : list (result (option string)) * State :=
  match calls with
  | [] => ([], s)
  | (now, requestData) :: rest =>
      let (r, s1) := UrlService.recordClick env now sc requestData s in
      let (rs, s2) := recordClicks env sc rest s1 in
      (r :: rs, s2)
  end.

(** The store's constraints on the collection [urls]: [_id] is the primary
    key and [shortcode] carries a unique index. *)
Definition uniqueIds (us : list Url.t) : Prop := NoDup (map Url._id us).

Definition uniqueShortcodes (us : list Url.t) : Prop := NoDup (map Url.shortcode us).

(** ** Sample data *)

Module Sample.

(** A time after the expiry of [link] below. *)
Definition later : Z := 700000.

(** Libraries that take every URL for valid, know the location of no
    address, draw 1/2 every time and quote a refused value in full;
    [BASE_URL] is not set. *)
Definition env : Env :=
  mkEnv (fun _ => true) (fun _ => None) (fun _ => (1 # 2)%Q) None Mongoose.backtick.

(** A link created at time 0 for ten minutes, and a store that holds it. *)
Definition link : Url.t :=
  Url.mk 0 "abc" "https://example.com" 0 600000 true "anonymous" 0 None [] None.

Definition state : State := mkState true [link] [] 1 0.

Definition request : UrlService.RequestData :=
  UrlService.mkRequestData (Some "203.0.113.9") (Some "curl/8.0") None.

(** A request for a link that is valid for a minute and a half. *)
Definition fractional : Server.CreateRequest :=
  Server.mkCreateRequest (Some "https://example.com") (Some (3 # 2)%Q) (Some "xyz") None None.

(** A request for a link that is valid for half a minute. *)
Definition halfMinute : Server.CreateRequest :=
  Server.mkCreateRequest (Some "https://example.com") (Some (1 # 2)%Q) (Some "xyz") None None.

(** A request without a shortcode, with the default validity. *)
Definition bare : Server.CreateRequest :=
  Server.mkCreateRequest (Some "https://example.com") None None None None.


(** A request for a link with a negative validity. *)
Definition negative : Server.CreateRequest :=
  Server.mkCreateRequest (Some "https://example.com") (Some (- 5 # 1)%Q) None None None.

(** A request for the custom shortcode of [link]. *)
Definition custom : Server.CreateRequest :=
  Server.mkCreateRequest (Some "https://example.com") (Some 1%Q) (Some "abc") None None.

(** The store once [link] has expired and the sweep has run. *)
Definition deactivated : State := snd (UrlService.cleanupExpiredUrls later state).

(** A request for a custom shortcode that no link has, with the default
    validity. *)
Definition plain : Server.CreateRequest :=
  Server.mkCreateRequest (Some "https://example.com") None (Some "xyz") None None.

(** The store after two clicks on [link], at times 5 and 6. *)
Definition clicked : State :=
  snd (recordClicks env "abc" [(5%Z, request); (6%Z, request)] state).

(** A request from the IPv4-mapped loopback address. *)
Definition mappedLoopback : UrlService.RequestData :=
  UrlService.mkRequestData (Some "::ffff:127.0.0.1") (Some "curl/8.0") None.

(** Two calls of [recordClick] whose store operations alternate. *)
Definition alternating : list (nat * Z) :=
  [(0, 5%Z); (1, 5%Z); (0, 6%Z); (1, 6%Z); (0, 7%Z); (1, 7%Z)].

(** The same calls, the second after the first. *)
Definition oneByOne : list (nat * Z) :=
  [(0, 5%Z); (0, 6%Z); (0, 7%Z); (1, 8%Z); (1, 9%Z); (1, 10%Z)].

Definition twoCalls : list Concurrent.Thread :=
  [Concurrent.Start "abc" request; Concurrent.Start "abc" request].

(** The user agent of Safari on an iPhone. *)
Definition iphoneSafari : string :=
  "Mozilla/5.0 (iPhone; CPU iPhone OS 16_0 like Mac OS X) AppleWebKit/605.1.15 (KHTML, like Gecko) Version/16.0 Mobile/15E148 Safari/604.1".

(** A second link, created at time 0 for fifteen minutes, and a store with
    both links: two clicks on the first, then one on the second. *)
Definition second : Url.t :=
  Url.mk 1 "def" "https://example.org" 0 900000 true "anonymous" 0 None [] None.

Definition busy : State :=
  snd (recordClicks env "def" [(7%Z, request)]
         (snd (recordClicks env "abc" [(5%Z, request); (6%Z, request)]
                 (mkState true [link; second] [] 2 0)))).

(** A request for a redirect, from a public address. *)
Definition browser : Server.Request :=
  Server.mkRequest (Some "203.0.113.9") None None (Some "curl/8.0") None.

(** A description of more than 500 characters that begins with the words
    by which the handler recognises a conflict, and a request with it for a
    custom shortcode that no link has. *)
Fixpoint padding (n : nat) : string :=
  match n with
  | O => ""
  | S k => String "x" (padding k)
  end.

Definition wordy : Server.CreateRequest :=
  Server.mkCreateRequest (Some "https://example.com") None (Some "xyz") None
    (Some ("already exists" ++ padding 500)).

End Sample.

(** * Statements

    Definitions used only to state the properties. *)

(** The classifier as the specification words it: an ordered table of
    tokens, the first token present in the lower-cased string decides, and
    a default applies when none is present. *)
Module ClassifierSpec.

Definition firstMatch (table : list (string * string)) (default ua : string) : string :=
  match find (fun entry => JS.includes ua (fst entry)) table with
  | Some entry => snd entry
  | None => default
  end.

Definition typeTable : list (string * string) :=
  [("mobile", "mobile"); ("android", "mobile"); ("iphone", "mobile");
   ("ipod", "mobile"); ("blackberry", "mobile"); ("iemobile", "mobile");
   ("opera mini", "mobile"); ("tablet", "tablet"); ("ipad", "tablet")].

Definition browserTable : list (string * string) :=
  [("chrome", "Chrome"); ("firefox", "Firefox"); ("safari", "Safari");
   ("edge", "Edge"); ("opera", "Opera")].

Definition osTable : list (string * string) :=
  [("windows", "Windows"); ("mac", "macOS"); ("linux", "Linux");
   ("android", "Android"); ("ios", "iOS"); ("iphone", "iOS"); ("ipad", "iOS")].

Definition classify (ua : string) : Click.Device :=
  let type := firstMatch typeTable "desktop" ua in
  Click.mkDevice type (firstMatch browserTable "Unknown" ua)
    (firstMatch osTable "Unknown" ua) (String.eqb type "mobile").

(** The tokens that take precedence over Safari and over iOS. *)
Definition precedingTokens : list string :=
  ["chrome"; "firefox"; "windows"; "mac"; "linux"; "android"].

End ClassifierSpec.

(** [search] and [q] differ at a position that both have, so that [search]
    is a prefix of no extension of [q]. *)
Fixpoint clash (search q : string) : bool :=
  match search, q with
  | String a search', String b q' => if Ascii.eqb a b then clash search' q' else true
  | _, _ => false
  end.

(** [search] clashes with [p] at every position of [p]. *)
Fixpoint clashAll (search p : string) : bool :=
  match p with
  | EmptyString => true
  | String _ p' => clash search p && clashAll search p'
  end.

(** [a] may come before [b] in the descending order of [key]. *)
Definition descending {A : Type} (key : A -> Z) (a b : A) : Prop := (key b <= key a)%Z.

(** The request gets past the checks that [POST /shorturls] makes before it
    looks at the validity: the database is connected, the URL is present and
    valid, and a shortcode, if given, is 3 to 20 alphanumeric characters. *)
Definition passesChecks (env : Env) (body : Server.CreateRequest) (s : State) : bool :=
  dbConnected s
  && JS.truthy (Server.url body)
  && isURL env (JS.orDefault (Server.url body) "")
  && (negb (JS.truthy (Server.shortcode body))
      || (let sc := JS.orDefault (Server.shortcode body) "" in
          Server.alphanumeric sc
          && (3 <=? String.length sc)%nat && (String.length sc <=? 20)%nat)).

(** What [createShortUrl] is called with once the validity is accepted. *)
Definition urlDataOf (body : Server.CreateRequest) : UrlService.UrlData :=
  UrlService.mkUrlData (JS.orDefault (Server.url body) "")
    (Some (Server.validityMinutes (Server.validity body)))
    (Server.shortcode body)
    (Some (match Server.tags body with Some l => l | None => [] end))
    (Server.description body).

(** What [new Url({...})] is called with in [createShortUrl]. *)
Definition initOf (now : Z) (urlData : UrlService.UrlData) : Url.init :=
  Url.mkInit (UrlService.originalUrl urlData)
    (UrlService.expiryOf now
       (match UrlService.validity urlData with Some v => v | None => 30%Q end))
    (UrlService.shortcode urlData)
    (match UrlService.tags urlData with Some l => l | None => [] end)
    (UrlService.description urlData).

(** The answer to a validity that is out of range. *)
Definition invalidValidity : Server.Response :=
  Server.Json 400 (Server.ErrorBody
    "Validity must be between 1 and 525600 minutes (1 year)" "INVALID_VALIDITY").

(** The answer to a link that has been created. *)
Definition created (shortLink : string) (expiry : Z) (sc : string) : Server.Response :=
  Server.Json 201 (Server.CreatedBody shortLink expiry sc).

(** The answer to a shortcode that is taken. *)
Definition shortcodeExists : Server.Response :=
  Server.Json 409 (Server.ErrorBody
    "Custom shortcode already exists. Please choose a different one." "SHORTCODE_EXISTS").

(** The constraint [^[A-Za-z0-9]{3,20}$] on shortcodes. *)
Definition shortcodeOk (sc : string) : Prop :=
  JS.forallb_string JS.isAlnum sc = true
  /\ (3 <= String.length sc)%nat /\ (String.length sc <= 20)%nat.

(** The schema of [Url] accepts the URL and the description of the request:
    the URL matches the pattern of the schema, the description is at most
    500 characters long. *)
Definition schemaAccepts (body : Server.CreateRequest) : bool :=
  Url.urlPattern (JS.orDefault (Server.url body) "")
  && match Server.description body with
     | Some d => (String.length d <=? 500)%nat
     | None => true
     end.

(** The contract of [Math.random]: a value in [0, 1). *)
Definition randomInUnitInterval (env : Env) : Prop :=
  forall i : nat, (0 <= random env i)%Q /\ (random env i < 1)%Q.

(** *** The invariant of overlapping calls of [recordClick]

    The calls are for the shortcode [sc] of the link [u0], which the store
    [s0] holds from the start. *)

Definition countIf {A : Type} (p : A -> bool) (l : list A) : nat :=
  List.length (filter p l).

(** The thread has stored its click. *)
Definition clickSaved (t : Concurrent.Thread) : bool :=
  match t with
  | Concurrent.Incrementing _ | Concurrent.Done _ => true
  | _ => false
  end.

(** [url] is a copy of the link read when at most [w] calls had written the
    counter. *)
Definition goodSnapshot (u0 : Url.t) (w : nat) (url : Url.t) : Prop :=
  Url._id url = Url._id u0
  /\ Url.originalUrl url = Url.originalUrl u0
  /\ (Url.totalClicks u0 <= Url.totalClicks url)%N
  /\ (Url.totalClicks url <= Url.totalClicks u0 + N.of_nat w)%N.

Definition goodThread (env : Env) (sc : string) (u0 : Url.t) (w : nat)
  (t : Concurrent.Thread) : Prop :=
  match t with
  | Concurrent.Start sc' requestData =>
      sc' = sc /\ Click.validate (UrlService.parseRequestData env sc requestData) = []
  | Concurrent.Expiring _ => False
  | Concurrent.Saving url clickData => goodSnapshot u0 w url /\ Click.validate clickData = []
  | Concurrent.Incrementing url => goodSnapshot u0 w url
  | Concurrent.Done r => r = Return (Some (Url.originalUrl u0))
  end.

Definition goodStore (sc : string) (u0 : Url.t) (w : nat) (s : State) : Prop :=
  uniqueIds (urls s)
  /\ exists u,
      Url.findOneActive (urls s) sc = Some u
      /\ Url.expiresAt u = Url.expiresAt u0
      /\ goodSnapshot u0 w u
      /\ ((1 <= w)%nat -> (Url.totalClicks u0 + 1 <= Url.totalClicks u)%N).

Definition invariant (env : Env) (sc : string) (u0 : Url.t) (s0 : State)
  (ts : list Concurrent.Thread) (s : State) : Prop :=
  let w := countIf Concurrent.settled ts in
  goodStore sc u0 w s
  /\ Forall (goodThread env sc u0 w) ts
  /\ List.length (clicks s) = List.length (clicks s0) + countIf clickSaved ts.

(** The constraints of the store on the collection [urls], with the
    freshness of the next [_id]. *)
Definition wellFormed (s : State) : Prop :=
  uniqueIds (urls s)
  /\ uniqueShortcodes (urls s)
  /\ (forall u, In u (urls s) -> (Url._id u < nextId s)%nat).

(** The clicks of a shortcode that have a given referer, device or place. *)
Definition withReferer (r : string) (c : Click.t) : bool :=
  String.eqb (Click.referer c) r.

Definition withDevice (type browser os : string) (c : Click.t) : bool :=
  String.eqb (Click.type (Click.device c)) type
  && String.eqb (Click.browser (Click.device c)) browser
  && String.eqb (Click.os (Click.device c)) os.

Definition withPlace (country city : option string) (c : Click.t) : bool :=
  Click.optionEqb (Click.country (Click.location c)) country
  && Click.optionEqb (Click.city (Click.location c)) city.

(** The click of a request from [address] is stored with a location: the
    address is a loopback address, or the geographic database knows it. *)
Definition located (env : Env) (address : string) : bool :=
  String.eqb address "127.0.0.1" || String.eqb address "::1"
  || match lookup env address with
     | Some _ => true
     | None => false
     end.

(** *** The store under requests served one at a time *)

(** A stored link has a trimmed shortcode of 3 to 20 characters and a URL
    that the schema accepts, and it expires no later than a year after its
    creation. *)
Definition wellShaped (u : Url.t) : Prop :=
  JS.trim (Url.shortcode u) = Url.shortcode u
  /\ (3 <= String.length (Url.shortcode u) <= 20)%nat
  /\ Url.urlPattern (Url.originalUrl u) = true
  /\ (Url.expiresAt u <= Url.createdAt u + 525600 * 60000)%Z.

(** The stored clicks whose shortcode a query of the [Url] model resolves to
    the shortcode [sc]: the clicks of the requests for [sc], whatever white
    space the requests had around it. *)
Definition resolvingTo (sc : string) (clicks : list Click.t) : list Click.t :=
  filter (fun c => String.eqb (JS.trim (Click.shortcode c)) sc) clicks.

(** The constraints of the store hold, every link is well shaped and its
    counter is at most the number of stored clicks that resolve to its
    shortcode. (A link that is deleted and created again starts at 0, while
    clicks that were stored with white space around the shortcode stay.) *)
Definition consistent (s : State) : Prop :=
  wellFormed s
  /\ (forall u, In u (urls s) ->
        wellShaped u
        /\ (Url.totalClicks u
            <= N.of_nat (List.length (resolvingTo (Url.shortcode u) (clicks s))))%N).

(** The states a server gets to from the state [s0] when it serves its
    requests and runs its sweep one at a time, at times from [t0] on; the
    flag of the connection may change in between. *)
Inductive servedFrom (env : Env) (t0 : Z) (s0 : State) : State -> Prop :=
| served_start : servedFrom env t0 s0 s0
| served_connection (b : bool) (s : State) :
    servedFrom env t0 s0 s ->
    servedFrom env t0 s0 (mkState b (urls s) (clicks s) (nextId s) (draws s))
| served_post (now : Z) (fuel : nat) (body : Server.CreateRequest) (s : State) :
    (t0 <= now)%Z -> servedFrom env t0 s0 s ->
    servedFrom env t0 s0 (snd (Server.postShortUrls env now fuel body s))
| served_stats (now : Z) (sc : string) (s : State) :
    (t0 <= now)%Z -> servedFrom env t0 s0 s ->
    servedFrom env t0 s0 (snd (Server.getShortUrlStats now sc s))
| served_redirect (now : Z) (sc : string) (req : Server.Request) (s : State) :
    (t0 <= now)%Z -> servedFrom env t0 s0 s ->
    servedFrom env t0 s0 (snd (Server.redirect env now sc req s))
| served_delete (now : Z) (sc : string) (s : State) :
    (t0 <= now)%Z -> servedFrom env t0 s0 s ->
    servedFrom env t0 s0 (snd (Server.deleteShortUrl now sc s))
| served_sweep (now : Z) (s : State) :
    (t0 <= now)%Z -> servedFrom env t0 s0 s ->
    servedFrom env t0 s0 (Server.sweep now s).

(** The store holds a link of the shortcode [sc] that expired before [t]. *)
Definition expiredLink (sc : string) (t : Z) (s : State) : Prop :=
  exists u, In u (urls s) /\ Url.shortcode u = sc /\ (Url.expiresAt u < t)%Z.

(** * Properties *)

(** ** The user-agent classifier *)

Lemma parseUserAgent_classify (userAgent : string) :
  UrlService.parseUserAgent (Some userAgent)
  = ClassifierSpec.classify (JS.toLowerCase userAgent).
Proof.
  unfold UrlService.parseUserAgent, ClassifierSpec.classify, ClassifierSpec.firstMatch.
  set (ua := JS.toLowerCase userAgent).
  unfold UrlService.mobileKeywords, UrlService.tabletKeywords,
    ClassifierSpec.typeTable, ClassifierSpec.browserTable, ClassifierSpec.osTable.
  cbn [existsb find fst snd].
  f_equal.
  - repeat (destruct (JS.includes ua _); cbn [orb]; try reflexivity).
  - repeat (destruct (JS.includes ua _); try reflexivity).
  - repeat (destruct (JS.includes ua _); cbn [orb]; try reflexivity).
  - repeat (destruct (JS.includes ua _); cbn [orb]; try reflexivity).
Qed.

(** X24. The classifier is a function of the lower-cased input that agrees
    with ordered tables of tokens: device type from the mobile keywords,
    then the tablet keywords, else desktop; browser and OS by first match in
    priority order, else Unknown. A user agent that contains "iphone" and
    "safari" is classified mobile / Safari / iOS when it contains none of
    the tokens that come first in those orders (chrome, firefox; windows,
    mac, linux, android). *)
Theorem parseUserAgent_first_match (userAgent : string) :
  let ua := JS.toLowerCase userAgent in
  UrlService.parseUserAgent (Some userAgent) = ClassifierSpec.classify ua
  /\ (forall other : string,
         JS.toLowerCase other = ua ->
         UrlService.parseUserAgent (Some other) = UrlService.parseUserAgent (Some userAgent))
  /\ (JS.includes ua "iphone" = true ->
      JS.includes ua "safari" = true ->
      forallb (fun token => negb (JS.includes ua token)) ClassifierSpec.precedingTokens = true ->
      UrlService.parseUserAgent (Some userAgent)
      = Click.mkDevice "mobile" "Safari" "iOS" true).
Proof.
  intro ua. split; [apply parseUserAgent_classify|]. split.
  - intros other Hother. rewrite !parseUserAgent_classify. now rewrite Hother.
  - intros Hiphone Hsafari Hnone.
    unfold ClassifierSpec.precedingTokens in Hnone. cbn [forallb] in Hnone.
    repeat (apply andb_prop in Hnone; destruct Hnone as [?H Hnone]).
    repeat match goal with
           | H : negb _ = true |- _ => apply negb_true_iff in H
           end.
    unfold UrlService.parseUserAgent. fold ua.
    unfold UrlService.mobileKeywords. cbn [existsb].
    rewrite Hiphone, Hsafari.
    repeat match goal with
           | H : JS.includes ua _ = false |- _ => rewrite H
           end.
    cbn [orb]. rewrite !orb_true_r. reflexivity.
Qed.

Lemma parseUserAgent_first_match_witness :
  UrlService.parseUserAgent (Some "Mozilla ... iPhone ... Safari")
  = Click.mkDevice "mobile" "Safari" "iOS" true.
Proof.
  apply (parseUserAgent_first_match "Mozilla ... iPhone ... Safari"); reflexivity.
Defined.

(** C5. The user agent that Safari sends on an iPhone contains Mozilla,
    iPhone and Safari, in that order, and the classifier gives it the type
    mobile, the browser Safari and the OS macOS, not iOS: it also contains
    "Mac OS X", and "mac" is tested before the iOS tokens. *)
Lemma iphone_safari_is_macOS :
  (exists a b c : string,
      Sample.iphoneSafari = "Mozilla" ++ a ++ "iPhone" ++ b ++ "Safari" ++ c)
  /\ UrlService.parseUserAgent (Some Sample.iphoneSafari)
     = Click.mkDevice "mobile" "Safari" "macOS" true
  /\ UrlService.parseUserAgent (Some Sample.iphoneSafari)
     <> Click.mkDevice "mobile" "Safari" "iOS" true.
Proof.
  split; [|split].
  - exists "/5.0 (", "; CPU iPhone OS 16_0 like Mac OS X) AppleWebKit/605.1.15 (KHTML, like Gecko) Version/16.0 Mobile/15E148 ", "/604.1".
    reflexivity.
  - vm_compute. reflexivity.
  - vm_compute. discriminate.
Qed.

(** ** Basic facts about the collections *)

Lemma setActive_same (u : Url.t) : Url.setActive (Url.isActive u) u = u.
Proof. destruct u; reflexivity. Qed.

Lemma setActive_twice (a b : bool) (u : Url.t) :
  Url.setActive a (Url.setActive b u) = Url.setActive a u.
Proof. destruct u; reflexivity. Qed.

Lemma cleanupExpired_urls (now : Z) (us : list Url.t) :
  fst (Url.cleanupExpired now us)
  = map (fun u => Url.setActive (Url.isActive u && negb (Url.isExpired now u)) u) us.
Proof.
  unfold Url.cleanupExpired, Url.isExpired. cbn [fst].
  apply map_ext. intro u.
  destruct (Url.expiresAt u <? now)%Z; cbn [negb].
  - now rewrite andb_false_r.
  - now rewrite andb_true_r, setActive_same.
Qed.

Lemma cleanupExpired_count (now : Z) (us : list Url.t) :
  snd (Url.cleanupExpired now us)
  = List.length (filter (fun u => Url.isExpired now u && Url.isActive u) us).
Proof. reflexivity. Qed.

(** A swept document is not both expired and active. *)
Lemma swept_not_expired_active (now : Z) (u : Url.t) :
  let u' := Url.setActive (Url.isActive u && negb (Url.isExpired now u)) u in
  Url.isExpired now u' && Url.isActive u' = false.
Proof.
  destruct u as [i sc o c e a b t l g d]. unfold Url.isExpired, Url.setActive.
  cbn [Url.isActive Url.expiresAt].
  destruct a, (e <? now)%Z; reflexivity.
Qed.

(** ** The expiry sweep *)

(** C8. At a fixed time a second sweep changes nothing and modifies no
    document, so the active links after two sweeps are those after one. A
    sweep keeps every link, in place, with all its data but the active flag,
    which stays set exactly for the links that were active and whose expiry
    has not passed; the clicks are untouched. *)
Theorem cleanupExpired_idempotent (now : Z) (s : State) :
  let once := snd (UrlService.cleanupExpiredUrls now s) in
  let twice := snd (UrlService.cleanupExpiredUrls now once) in
  twice = once
  /\ fst (UrlService.cleanupExpiredUrls now once) = Return 0
  /\ filter Url.isActive (urls twice) = filter Url.isActive (urls once)
  /\ urls once
     = map (fun u => Url.setActive (Url.isActive u && negb (Url.isExpired now u)) u) (urls s)
  /\ map (Url.setActive true) (urls once) = map (Url.setActive true) (urls s)
  /\ List.length (urls once) = List.length (urls s)
  /\ clicks once = clicks s
  /\ fst (UrlService.cleanupExpiredUrls now s)
     = Return (List.length (filter (fun u => Url.isExpired now u && Url.isActive u) (urls s))).
Proof.
  assert (Hrun : forall st,
             UrlService.cleanupExpiredUrls now st
             = (Return (snd (Url.cleanupExpired now (urls st))),
                setUrls (fst (Url.cleanupExpired now (urls st))) st)).
  { intro st. unfold UrlService.cleanupExpiredUrls, rethrow, bind, get, put, ret.
    destruct (Url.cleanupExpired now (urls st)); reflexivity. }
  assert (Hidem : forall us,
             fst (Url.cleanupExpired now (fst (Url.cleanupExpired now us)))
             = fst (Url.cleanupExpired now us)).
  { intro us. rewrite !cleanupExpired_urls, map_map. apply map_ext. intro u.
    destruct u as [i sc o c e a b t l g d]. unfold Url.isExpired, Url.setActive.
    cbn [Url.isActive Url.expiresAt Url._id Url.shortcode Url.originalUrl Url.createdAt
         Url.createdBy Url.totalClicks Url.lastClickAt Url.tags Url.description].
    destruct a, (e <? now)%Z; reflexivity. }
  assert (Hzero : forall us, snd (Url.cleanupExpired now (fst (Url.cleanupExpired now us))) = 0).
  { intro us. rewrite cleanupExpired_count, cleanupExpired_urls.
    induction us as [|u us IH]; [reflexivity|].
    cbn [map filter]. rewrite swept_not_expired_active. exact IH. }
  intros once twice. subst once twice. rewrite !Hrun. cbn [fst snd].
  unfold setUrls. cbn [urls clicks dbConnected nextId draws].
  repeat split.
  - now rewrite Hidem.
  - now rewrite Hzero.
  - now rewrite Hidem.
  - apply cleanupExpired_urls.
  - rewrite cleanupExpired_urls, map_map. apply map_ext. intro u. apply setActive_twice.
  - rewrite cleanupExpired_urls. apply length_map.
Qed.

(** ** Queries and updates by key *)

Ltac unfold_calls := unfold rethrow, bind, get, put, ret, throw.

Lemma NoDup_map_inj {A B : Type} (f : A -> B) (l : list A) :
  NoDup (map f l) ->
  forall x y, In x l -> In y l -> f x = f y -> x = y.
Proof.
  induction l as [|a l IH]; intros Hnd x y Hx Hy Hxy; [contradiction|].
  cbn [map] in Hnd. inversion Hnd as [|? ? Hnotin Hnd']; subst.
  destruct Hx as [Hx|Hx], Hy as [Hy|Hy]; subst.
  - reflexivity.
  - exfalso. apply Hnotin. rewrite Hxy. now apply in_map.
  - exfalso. apply Hnotin. rewrite <- Hxy. now apply in_map.
  - now apply IH.
Qed.

Lemma holds_in (us : list Url.t) (sc : string) :
  Url.holds us sc = true <-> exists u, In u us /\ Url.shortcode u = sc.
Proof.
  unfold Url.holds. rewrite existsb_exists. split.
  - intros (u & Hin & Heq). exists u. split; [assumption|now apply String.eqb_eq].
  - intros (u & Hin & Heq). exists u. split; [assumption|now apply String.eqb_eq].
Qed.

Lemma findOne_some (us : list Url.t) (sc : string) (u : Url.t) :
  Url.findOne us sc = Some u -> In u us /\ Url.shortcode u = JS.trim sc.
Proof.
  unfold Url.findOne. intro H. apply find_some in H. destruct H as [Hin Heq].
  split; [assumption|]. now apply String.eqb_eq.
Qed.

Lemma findOne_none (us : list Url.t) (sc : string) :
  Url.findOne us sc = None <-> (forall u, In u us -> Url.shortcode u <> JS.trim sc).
Proof.
  unfold Url.findOne. split.
  - intros H u Hin Heq. apply (find_none _ _ H) in Hin.
    apply String.eqb_neq in Hin. contradiction.
  - intro H. induction us as [|a us IH]; [reflexivity|].
    cbn [find]. destruct (String.eqb (Url.shortcode a) (JS.trim sc)) eqn:E.
    + apply String.eqb_eq in E. exfalso. apply (H a); [now left|assumption].
    + apply IH. intros u Hin. apply H. now right.
Qed.

Lemma findOneActive_some (us : list Url.t) (sc : string) (u : Url.t) :
  Url.findOneActive us sc = Some u ->
  In u us /\ Url.shortcode u = JS.trim sc /\ Url.isActive u = true.
Proof.
  unfold Url.findOneActive. intro H. apply find_some in H. destruct H as [Hin Heq].
  apply andb_prop in Heq. destruct Heq as [Hsc Hact].
  repeat split; try assumption. now apply String.eqb_eq.
Qed.

Lemma findOneActive_none (us : list Url.t) (sc : string) :
  Url.findOneActive us sc = None ->
  forall u, In u us -> Url.shortcode u = JS.trim sc -> Url.isActive u = false.
Proof.
  unfold Url.findOneActive. intros H u Hin Heq.
  apply (find_none _ _ H) in Hin. rewrite <- Heq, String.eqb_refl in Hin. exact Hin.
Qed.

(** Under the unique index a stored link is the one that the queries for
    its shortcode find, with or without white space around it. *)
Lemma findOne_unique (us : list Url.t) (u : Url.t) :
  uniqueShortcodes us -> In u us ->
  forall sc, JS.trim sc = Url.shortcode u -> Url.findOne us sc = Some u.
Proof.
  intros Hnd Hin sc Hsc.
  destruct (Url.findOne us sc) as [v|] eqn:E.
  - apply findOne_some in E. destruct E as [Hv Hvsc].
    f_equal. apply (NoDup_map_inj Url.shortcode us Hnd); congruence.
  - exfalso. rewrite findOne_none in E. now apply (E u Hin).
Qed.

Lemma findOneActive_unique (us : list Url.t) (u : Url.t) :
  uniqueShortcodes us -> In u us ->
  forall sc, JS.trim sc = Url.shortcode u ->
  Url.findOneActive us sc = if Url.isActive u then Some u else None.
Proof.
  intros Hnd Hin sc Hsc.
  destruct (Url.findOneActive us sc) as [v|] eqn:E.
  - apply findOneActive_some in E. destruct E as (Hv & Hvsc & Hact).
    assert (v = u) by (apply (NoDup_map_inj Url.shortcode us Hnd); congruence).
    subst v. now rewrite Hact.
  - symmetry in Hsc. rewrite (findOneActive_none _ _ E u Hin Hsc). reflexivity.
Qed.

(** Under the primary key [updateOne] changes the documents with the given
    [_id], of which there is at most one. *)
Lemma updateOne_map (id : nat) (f : Url.t -> Url.t) (us : list Url.t) :
  uniqueIds us ->
  Url.updateOne id f us = map (fun v => if (Url._id v =? id)%nat then f v else v) us.
Proof.
  unfold uniqueIds. induction us as [|a us IH]; intro Hnd; [reflexivity|].
  cbn [map] in Hnd. inversion Hnd as [|? ? Hnotin Hnd']; subst.
  cbn [Url.updateOne map]. destruct (Url._id a =? id)%nat eqn:E.
  - f_equal. apply Nat.eqb_eq in E. subst id.
    clear IH Hnd Hnd'. induction us as [|b us IH]; [reflexivity|].
    cbn [map]. destruct (Url._id b =? Url._id a)%nat eqn:E.
    + apply Nat.eqb_eq in E. exfalso. apply Hnotin. left. assumption.
    + f_equal. apply IH. intro H. apply Hnotin. now right.
  - f_equal. now apply IH.
Qed.

Lemma updateOne_ids (id : nat) (f : Url.t -> Url.t) (us : list Url.t) :
  (forall v, Url._id (f v) = Url._id v) ->
  map Url._id (Url.updateOne id f us) = map Url._id us.
Proof.
  intro Hf. induction us as [|a us IH]; [reflexivity|].
  cbn [Url.updateOne]. destruct (Url._id a =? id)%nat; cbn [map].
  - now rewrite Hf.
  - now rewrite IH.
Qed.

Lemma updateOne_shortcodes (id : nat) (f : Url.t -> Url.t) (us : list Url.t) :
  (forall v, Url.shortcode (f v) = Url.shortcode v) ->
  map Url.shortcode (Url.updateOne id f us) = map Url.shortcode us.
Proof.
  intro Hf. induction us as [|a us IH]; [reflexivity|].
  cbn [Url.updateOne]. destruct (Url._id a =? id)%nat; cbn [map].
  - now rewrite Hf.
  - now rewrite IH.
Qed.

(** What [getUrlByShortcode] returns and leaves. *)
Lemma getUrlByShortcode_run (now : Z) (sc : string) (s : State) :
  UrlService.getUrlByShortcode now sc s
  = match Url.findOneActive (urls s) sc with
    | None => (Return None, s)
    | Some url =>
        if Url.isExpired now url
        then (Return None,
              setUrls (Url.updateOne (Url._id url) (Url.setActive false) (urls s)) s)
        else (Return (Some url), s)
    end.
Proof.
  unfold UrlService.getUrlByShortcode. unfold_calls.
  destruct (Url.findOneActive (urls s) sc) as [url|]; [|reflexivity].
  destruct (Url.isExpired now url); reflexivity.
Qed.

(** What [recordClick] returns and leaves, case by case. *)
Lemma recordClick_run (env : Env) (now : Z) (sc : string)
  (requestData : UrlService.RequestData) (s : State) :
  UrlService.recordClick env now sc requestData s
  = match Url.findOneActive (urls s) sc with
    | None => (Return None, s)
    | Some url =>
        if Url.isExpired now url
        then (Return None,
              setUrls (Url.updateOne (Url._id url) (Url.setActive false) (urls s)) s)
        else
          let clickData := UrlService.parseRequestData env sc requestData in
          match Click.validate clickData with
          | [] =>
              (Return (Some (Url.originalUrl url)),
               setUrls (Url.updateOne (Url._id url)
                          (Url.setClicks (Url.totalClicks url + 1) (Some now)) (urls s))
                       (withClick now clickData s))
          | errs =>
              (Throw ("Failed to record click: "
                        ++ Mongoose.validationMessage (shown env) "Click" errs), s)
          end
    end.
Proof.
  unfold UrlService.recordClick, rethrow, bind.
  rewrite getUrlByShortcode_run.
  destruct (Url.findOneActive (urls s) sc) as [url|] eqn:Efind; [|reflexivity].
  destruct (Url.isExpired now url); [reflexivity|].
  cbv zeta. unfold saveNewClick.
  destruct (Click.validate (UrlService.parseRequestData env sc requestData)); [|reflexivity].
  unfold incrementClicks, withClick. cbn [urls].
  apply findOneActive_some in Efind. destruct Efind as (Hin & _ & _).
  assert (Hex : existsb (fun u => (Url._id u =? Url._id url)%nat) (urls s) = true).
  { apply existsb_exists. exists url. split; [assumption|apply Nat.eqb_refl]. }
  rewrite Hex. reflexivity.
Qed.

(** ** Clicks on links that are not there *)




(** ** Statistics of any stored link *)

Lemma getUrlStats_run (now : Z) (sc : string) (s : State) :
  UrlService.getUrlStats now sc s
  = (Return
       (option_map
          (fun url =>
             UrlService.mkStats (Url.originalUrl url) (Url.shortcode url) (Url.createdAt url)
               (Url.expiresAt url) (Url.isActive url) (Url.isExpired now url)
               (Url.totalClicks url) (Url.lastClickAt url) (Url.tags url)
               (Url.description url)
               (UrlService.mkAnalytics
                  (Click.getClicksByShortcode (clicks s) sc (Some 100))
                  (Click.getLocationStats (clicks s) sc)
                  (Click.getDeviceStats (clicks s) sc)
                  (Click.getRefererStats (clicks s) sc)))
          (Url.findOne (urls s) sc)),
     s).
Proof.
  unfold UrlService.getUrlStats. unfold_calls.
  destruct (Url.findOne (urls s) sc); reflexivity.
Qed.



(** What the handler of the statistics answers. *)
Lemma getShortUrlStats_run (now : Z) (sc : string) (s : State) :
  dbConnected s = true ->
  Server.getShortUrlStats now sc s
  = match Url.findOne (urls s) sc with
    | None => (Some Server.notFound, s)
    | Some url =>
        match Server.clickDetails (Click.getClicksByShortcode (clicks s) sc (Some 100)) with
        | Some details =>
            (Some (Server.Json 200
                     (Server.StatsBody (Url.originalUrl url) (Url.createdAt url)
                        (Url.expiresAt url) (Url.totalClicks url) details
                        (Click.getLocationStats (clicks s) sc)
                        (Click.getDeviceStats (clicks s) sc)
                        (Click.getRefererStats (clicks s) sc))), s)
        | None => (Some Server.internalError, s)
        end
    end.
Proof.
  intro Hdb. unfold Server.getShortUrlStats. rewrite Hdb. cbn [negb].
  rewrite getUrlStats_run.
  destruct (Url.findOne (urls s) sc) as [url|]; cbn [option_map]; [|reflexivity].
  cbv zeta. cbn [UrlService.analytics UrlService.recentClicks].
  destruct (Server.clickDetails _); reflexivity.
Qed.



(** ** The descending sort of the queries *)

Section SortDesc.
Context {A : Type} (key : A -> Z).

Lemma insertDesc_perm (x : A) (l : list A) :
  Permutation (Click.insertDesc key x l) (x :: l).
Proof.
  induction l as [|y l IH]; cbn [Click.insertDesc]; [reflexivity|].
  destruct (key y <=? key x)%Z; [reflexivity|].
  rewrite IH. apply perm_swap.
Qed.

Lemma sortDesc_perm (l : list A) : Permutation (Click.sortDesc key l) l.
Proof.
  induction l as [|x l IH]; cbn [Click.sortDesc]; [reflexivity|].
  rewrite insertDesc_perm. now apply perm_skip.
Qed.

Lemma insertDesc_sorted (x : A) (l : list A) :
  StronglySorted (descending key) l -> StronglySorted (descending key) (Click.insertDesc key x l).
Proof.
  induction l as [|y l IH]; intro Hs; cbn [Click.insertDesc].
  - constructor; constructor.
  - inversion Hs as [|? ? Hl Hall]; subst.
    destruct (key y <=? key x)%Z eqn:E.
    + apply Z.leb_le in E. constructor; [assumption|].
      constructor; [exact E|].
      eapply Forall_impl; [|exact Hall]. unfold descending. intros b Hb. lia.
    + apply Z.leb_gt in E. constructor; [now apply IH|].
      apply (Permutation_Forall (Permutation_sym (insertDesc_perm x l))).
      constructor; [unfold descending; lia|assumption].
Qed.

Lemma sortDesc_sorted (l : list A) : StronglySorted (descending key) (Click.sortDesc key l).
Proof.
  induction l as [|x l IH]; cbn [Click.sortDesc]; [constructor|].
  now apply insertDesc_sorted.
Qed.

Lemma StronglySorted_app_order (l1 l2 : list A) :
  StronglySorted (descending key) (l1 ++ l2) ->
  forall a b, In a l1 -> In b l2 -> descending key a b.
Proof.
  induction l1 as [|x l1 IH]; intros Hs a b Ha Hb; [contradiction|].
  cbn [app] in Hs. inversion Hs as [|? ? Hl Hall]; subst.
  destruct Ha as [<-|Ha].
  - rewrite Forall_forall in Hall. apply Hall. apply in_or_app. now right.
  - now apply IH.
Qed.

Lemma StronglySorted_firstn (n : nat) (l : list A) :
  StronglySorted (descending key) l -> StronglySorted (descending key) (firstn n l).
Proof.
  revert l. induction n as [|n IH]; intros l Hs; [constructor|].
  destruct l as [|x l]; [constructor|].
  inversion Hs as [|? ? Hl Hall]; subst. cbn [firstn]. constructor; [now apply IH|].
  rewrite Forall_forall in *. intros b Hb. apply Hall.
  rewrite <- (firstn_skipn n l). apply in_or_app. now left.
Qed.

Lemma StronglySorted_map {B : Type} (f : B -> A) (g : B -> B) (l : list B) :
  (forall b, key (f (g b)) = key (f b)) ->
  StronglySorted (fun a b => descending key (f a) (f b)) l ->
  StronglySorted (fun a b => descending key (f a) (f b)) (map g l).
Proof.
  intros Hg Hs. induction Hs as [|x l Hl IH Hall]; cbn [map]; constructor; [assumption|].
  rewrite Forall_forall in *. intros b Hb. apply in_map_iff in Hb.
  destruct Hb as (b0 & <- & Hb0). unfold descending. rewrite !Hg. now apply Hall.
Qed.

End SortDesc.

(** ** Recent clicks *)

(** C9 (as amended). [getClicksByShortcode] sorts the stored clicks of the
    shortcode, most recent first, and cuts the list at the limit (100 when
    none is given): for a limit of at least 1 it returns as many records as
    the limit asks for, or all of them when there are fewer; the store reads
    a limit of 0 as no limit, and every click of the shortcode is returned
    then. The records are in descending order of their timestamps; every
    record is a stored click of the shortcode with its [ip] field removed,
    and a stored click of the shortcode that is left out is no more recent
    than any record returned. *)
Theorem getClicksByShortcode_recent (cs : list Click.t) (sc : string) (lim : option nat) :
  let n := match lim with Some k => k | None => 100 end in
  let recent := Click.getClicksByShortcode cs sc lim in
  let stored := List.length (filter (fun c => String.eqb (Click.shortcode c) sc) cs) in
  List.length recent = (if (n =? 0)%nat then stored else Nat.min n stored)
  /\ StronglySorted (fun a b => (Click.timestamp b <= Click.timestamp a)%Z) recent
  /\ (forall c, In c recent ->
        Click.ip c = None /\ Click.shortcode c = sc
        /\ exists stored, In stored cs /\ c = Click.excludeIp stored)
  /\ (forall stored c,
        In stored cs -> Click.shortcode stored = sc ->
        ~ In (Click.excludeIp stored) recent ->
        In c recent -> (Click.timestamp stored <= Click.timestamp c)%Z).
Proof.
  intros n recent stored. subst recent stored. unfold Click.getClicksByShortcode. fold n.
  fold (Click.matching sc cs).
  set (sorted := Click.sortDesc Click.timestamp (Click.matching sc cs)).
  assert (Hlength : List.length sorted = List.length (Click.matching sc cs)).
  { apply Permutation_length. apply sortDesc_perm. }
  assert (Hsorted : StronglySorted (descending Click.timestamp) sorted)
    by apply sortDesc_sorted.
  assert (Hmem : forall c, In c sorted <-> In c cs /\ Click.shortcode c = sc).
  { intro c. unfold sorted. split.
    - intro H. apply (Permutation_in _ (sortDesc_perm Click.timestamp _)) in H.
      apply filter_In in H. destruct H as [H1 H2]. split; [assumption|].
      now apply String.eqb_eq.
    - intros [H1 H2].
      apply (Permutation_in _ (Permutation_sym (sortDesc_perm Click.timestamp _))).
      apply filter_In. split; [assumption|]. now apply String.eqb_eq. }
  assert (Hpart : exists rest, sorted = (Click.limit n sorted ++ rest)%list).
  { unfold Click.limit. destruct n as [|k].
    - exists []. now rewrite app_nil_r.
    - exists (skipn (S k) sorted). now rewrite firstn_skipn. }
  destruct Hpart as (rest & Hpart).
  split; [|split; [|split]].
  - rewrite length_map. unfold Click.limit. destruct n as [|k]; cbn [Nat.eqb].
    + exact Hlength.
    + now rewrite length_firstn, Hlength.
  - apply (StronglySorted_map Click.timestamp (fun c => c) Click.excludeIp).
    + intro b. reflexivity.
    + unfold Click.limit. destruct n as [|k]; [assumption|now apply StronglySorted_firstn].
  - intros c Hc. apply in_map_iff in Hc. destruct Hc as (c0 & <- & Hc0).
    assert (Hin : In c0 sorted).
    { rewrite Hpart. apply in_or_app. now left. }
    apply Hmem in Hin. destruct Hin as [Hin Hsc].
    split; [reflexivity|]. split; [exact Hsc|]. now exists c0.
  - intros stored c Hin Hsc Hout Hc.
    apply in_map_iff in Hc. destruct Hc as (c0 & <- & Hc0).
    assert (Hs : In stored sorted) by now apply Hmem.
    rewrite Hpart in Hs, Hsorted.
    apply in_app_or in Hs. destruct Hs as [Hs|Hs].
    + exfalso. apply Hout. now apply in_map.
    + apply (StronglySorted_app_order Click.timestamp _ _ Hsorted c0 stored Hc0 Hs).
Qed.

(** Asked for at most 0 of the two clicks of the sample link,
    [getClicksByShortcode] returns both. *)
Lemma limit_zero_returns_every_click :
  let recent := Click.getClicksByShortcode (clicks Sample.clicked) "abc" (Some 0) in
  List.length recent = 2 /\ ~ (List.length recent <= 0)%nat.
Proof. cbv zeta. split; [vm_compute; reflexivity|]. vm_compute. lia. Qed.

(** ** What a click records *)

Lemma parseUserAgent_type (userAgent : option string) :
  Click.validateType (Click.type (UrlService.parseUserAgent userAgent)) = [].
Proof.
  unfold UrlService.parseUserAgent. cbn [Click.type].
  destruct (existsb _ UrlService.mobileKeywords); [reflexivity|].
  destruct (existsb _ UrlService.tabletKeywords); reflexivity.
Qed.

(** The schema accepts the click of a request that has a client address and
    whose user agent and referrer are at most 1000 characters long. *)
Lemma click_validate_ok (env : Env) (sc : string) (requestData : UrlService.RequestData) :
  sc <> "" ->
  JS.truthy (UrlService.ip requestData) = true ->
  (String.length (JS.orDefault (UrlService.userAgent requestData) "Unknown") <= 1000)%nat ->
  (String.length (JS.orDefault (UrlService.referer requestData) "Direct") <= 1000)%nat ->
  Click.validate (UrlService.parseRequestData env sc requestData) = [].
Proof.
  intros Hsc Hip Hua Href.
  unfold Click.validate, UrlService.parseRequestData.
  cbn [Click.d_shortcode Click.d_ip Click.d_userAgent Click.d_referer Click.d_device].
  rewrite parseUserAgent_type.
  unfold Click.validateRequired, Click.validateMaxlength. rewrite Hip.
  destruct sc as [|c sc]; [contradiction|]. cbn [JS.truthy].
  destruct (Nat.ltb_spec 1000
              (String.length (JS.orDefault (UrlService.userAgent requestData) "Unknown")));
    [lia|].
  destruct (Nat.ltb_spec 1000
              (String.length (JS.orDefault (UrlService.referer requestData) "Direct")));
    [lia|].
  reflexivity.
Qed.

(** C6 (as amended). The click of a request without a referrer has the
    referer "Direct". The client addresses 127.0.0.1 and ::1, and a missing
    address, give the location country "Local", city "Development". For
    another address (::ffff:127.0.0.1 apart) that the geo lookup does not
    know, the location has no field set; nothing is thrown for it, and when
    the link is active and unexpired and the schema accepts the click, the
    click is stored with that location and the target URL is returned. *)
Theorem parseRequestData_sentinels (env : Env) (now : Z) (sc : string)
  (requestData : UrlService.RequestData) (s : State) :
  let clickData := UrlService.parseRequestData env sc requestData in
  (JS.truthy (UrlService.referer requestData) = false -> Click.d_referer clickData = "Direct")
  /\ (UrlService.ip requestData = Some "127.0.0.1"
      \/ UrlService.ip requestData = Some "::1"
      \/ JS.truthy (UrlService.ip requestData) = false ->
      Click.d_location clickData = UrlService.localLocation)
  /\ (forall address url,
         UrlService.ip requestData = Some address ->
         address <> "" -> address <> "127.0.0.1" -> address <> "::1" ->
         address <> "::ffff:127.0.0.1" ->
         lookup env address = None ->
         Click.d_location clickData = UrlService.emptyLocation
         /\ (Url.findOneActive (urls s) sc = Some url ->
             Url.isExpired now url = false ->
             Click.validate clickData = [] ->
             fst (UrlService.recordClick env now sc requestData s)
             = Return (Some (Url.originalUrl url))
             /\ clicks (snd (UrlService.recordClick env now sc requestData s))
                = (clicks s ++ [Click.ofData (nextId s) now clickData])%list
             /\ Click.location (Click.ofData (nextId s) now clickData)
                = UrlService.emptyLocation)).
Proof.
  intro clickData. subst clickData. split; [|split].
  - unfold UrlService.parseRequestData. cbn [Click.d_referer].
    destruct (UrlService.referer requestData) as [[|c r]|]; cbn [JS.truthy JS.orDefault];
      intro H; try reflexivity; discriminate.
  - unfold UrlService.parseRequestData. cbn [Click.d_location].
    intros [H|[H|H]].
    + rewrite H. reflexivity.
    + rewrite H. reflexivity.
    + destruct (UrlService.ip requestData) as [[|c a]|]; cbn [JS.truthy] in H |- *;
        try reflexivity; discriminate.
  - intros address url Hip Hne Hv4 Hv6 _ Hmiss.
    assert (Hloc : Click.d_location (UrlService.parseRequestData env sc requestData)
                   = UrlService.emptyLocation).
    { unfold UrlService.parseRequestData. cbn [Click.d_location]. rewrite Hip.
      destruct address as [|c a]; [contradiction|]. cbn [JS.truthy andb].
      apply String.eqb_neq in Hv4, Hv6. rewrite Hv4, Hv6, Hmiss. reflexivity. }
    split; [exact Hloc|]. intros Hfind Hexp Hvalid.
    rewrite recordClick_run, Hfind, Hexp. cbv zeta. rewrite Hvalid.
    cbn [fst snd]. repeat split. exact Hloc.
Qed.

Lemma parseRequestData_sentinels_witness :
  Click.d_location (UrlService.parseRequestData Sample.env "abc" Sample.request)
  = UrlService.emptyLocation
  /\ clicks (snd (UrlService.recordClick Sample.env 5 "abc" Sample.request Sample.state))
     = [Click.ofData 1 5 (UrlService.parseRequestData Sample.env "abc" Sample.request)].
Proof.
  destruct (parseRequestData_sentinels Sample.env 5 "abc" Sample.request Sample.state)
    as (_ & _ & H).
  destruct (H "203.0.113.9" Sample.link) as (Hloc & Hrec);
    try reflexivity; try discriminate.
  split; [exact Hloc|].
  specialize (Hrec eq_refl eq_refl eq_refl). destruct Hrec as (_ & Hclicks & _).
  exact Hclicks.
Defined.

(** The geo lookup knows nothing of 203.0.113.9: the click is recorded with
    a location that has no field set, so no field of it is "Unknown
    Location". *)
Lemma geo_miss_location_is_empty :
  lookup Sample.env "203.0.113.9" = None
  /\ (exists click,
         clicks (snd (UrlService.recordClick Sample.env 5 "abc" Sample.request Sample.state))
         = [click]
         /\ Click.location click = Click.mkLocation None None None None None
         /\ Click.country (Click.location click) <> Some "Unknown Location"
         /\ Click.region (Click.location click) <> Some "Unknown Location"
         /\ Click.city (Click.location click) <> Some "Unknown Location"
         /\ Click.timezone (Click.location click) <> Some "Unknown Location").
Proof.
  split; [reflexivity|]. eexists. split; [vm_compute; reflexivity|].
  cbn. repeat split; discriminate.
Qed.

(** The helper [getLocationFromIP] of the server takes the IPv4-mapped
    loopback address for a local one; [parseRequestData] hands it to the geo
    lookup. *)
Lemma mapped_loopback_is_looked_up :
  Server.getLocationFromIP Sample.env "::ffff:127.0.0.1" = "Local Development"
  /\ Click.d_location (UrlService.parseRequestData Sample.env "abc" Sample.mappedLoopback)
     = UrlService.emptyLocation
  /\ UrlService.emptyLocation <> UrlService.localLocation.
Proof. repeat split; try reflexivity. discriminate. Qed.

(** ** Strings *)

Lemma append_assoc (a b c : string) : (a ++ b) ++ c = a ++ (b ++ c).
Proof. induction a as [|x a IH]; cbn [append]; [reflexivity|now rewrite IH]. Qed.

Lemma append_length (a b : string) :
  String.length (a ++ b) = String.length a + String.length b.
Proof. induction a as [|x a IH]; cbn [append String.length]; [reflexivity|now rewrite IH]. Qed.

Lemma forallb_string_append (p : ascii -> bool) (a b : string) :
  JS.forallb_string p (a ++ b) = JS.forallb_string p a && JS.forallb_string p b.
Proof.
  induction a as [|x a IH]; cbn [append JS.forallb_string]; [reflexivity|].
  now rewrite IH, andb_assoc.
Qed.

Lemma alnum_not_space (c : ascii) : JS.isAlnum c = true -> JS.isSpace c = false.
Proof.
  unfold JS.isAlnum, JS.isLower, JS.isUpper, JS.isDigit, JS.isSpace. cbv zeta.
  generalize (nat_of_ascii c). intro n.
  rewrite !orb_true_iff, !andb_true_iff, !Nat.leb_le. intro H.
  rewrite !orb_false_iff, andb_false_iff, !Nat.eqb_neq, !Nat.leb_gt. lia.
Qed.

Lemma trimEnd_alnum (s : string) :
  JS.forallb_string JS.isAlnum s = true -> JS.trimEnd s = s.
Proof.
  induction s as [|c s IH]; cbn [JS.forallb_string JS.trimEnd]; [reflexivity|].
  intro H. apply andb_prop in H. destruct H as [Hc Hs].
  rewrite (IH Hs). destruct s; [|reflexivity].
  now rewrite (alnum_not_space c Hc).
Qed.

(** An alphanumeric string has no white space to trim. *)
Lemma trim_alnum (s : string) :
  JS.forallb_string JS.isAlnum s = true -> JS.trim s = s.
Proof.
  intro H. unfold JS.trim.
  assert (Hstart : JS.trimStart s = s).
  { destruct s as [|c s]; [reflexivity|]. cbn [JS.trimStart].
    cbn [JS.forallb_string] in H. apply andb_prop in H. destruct H as [Hc _].
    now rewrite (alnum_not_space c Hc). }
  rewrite Hstart. now apply trimEnd_alnum.
Qed.

Lemma includes_cons (c : ascii) (s search : string) :
  JS.includes (String c s) search
  = prefix search (String c s) || JS.includes s search.
Proof. cbn [JS.includes]. destruct (prefix search (String c s)); reflexivity. Qed.

(** The text "already exists" does not start inside an alphanumeric string
    that a double quote follows: its eighth character is a space. *)
Lemma prefix_already_exists (s rest : string) :
  JS.forallb_string JS.isAlnum s = true ->
  prefix "already exists" (s ++ String (ascii_of_nat 34) rest) = false.
Proof.
  intro H.
  do 8 (destruct s as [|? s];
        [vm_compute; reflexivity|];
        cbn [append prefix];
        destruct (ascii_dec _ _) as [<-|]; [|reflexivity]).
  cbn in H. discriminate.
Qed.

Lemma includes_already_exists (s : string) :
  JS.forallb_string JS.isAlnum s = true ->
  JS.includes (s ++ String (ascii_of_nat 34) " }") "already exists" = false.
Proof.
  induction s as [|c s IH]; intro H; [reflexivity|].
  cbn [append]. rewrite includes_cons.
  pose proof (prefix_already_exists (String c s) " }" H) as Hp.
  cbn [append] in Hp. rewrite Hp. cbn [orb].
  apply IH. cbn [JS.forallb_string] in H. apply andb_prop in H. tauto.
Qed.

Lemma clash_prefix (search q rest : string) :
  clash search q = true -> prefix search (q ++ rest) = false.
Proof.
  revert q. induction search as [|a search IH]; intros q H; [destruct q; discriminate|].
  destruct q as [|b q]; [discriminate|].
  cbn [clash] in H. cbn [append prefix].
  destruct (ascii_dec a b) as [->|Hne].
  - rewrite Ascii.eqb_refl in H. now apply IH.
  - reflexivity.
Qed.

Lemma clashAll_includes (search p rest : string) :
  clashAll search p = true -> JS.includes (p ++ rest) search = JS.includes rest search.
Proof.
  induction p as [|c p IH]; intro H; [reflexivity|].
  cbn [clashAll] in H. apply andb_prop in H. destruct H as [Hc Hp].
  cbn [append]. rewrite includes_cons.
  pose proof (clash_prefix search (String c p) rest Hc) as Hpre.
  cbn [append] in Hpre. rewrite Hpre. cbn [orb]. now apply IH.
Qed.

(** The duplicate-key error of the store, as [createShortUrl] rethrows it,
    does not read "already exists". *)
Lemma duplicate_key_not_already_exists (sc : string) :
  JS.forallb_string JS.isAlnum sc = true ->
  JS.includes ("Failed to create short URL: " ++ Url.duplicateKeyMessage sc)
    "already exists" = false.
Proof.
  intro H.
  set (quote := String (ascii_of_nat 34) "").
  assert (Hsplit : "Failed to create short URL: " ++ Url.duplicateKeyMessage sc
                   = ("Failed to create short URL: E11000 duplicate key error collection: url_shortener.urls index: shortcode_1 dup key: { shortcode: " ++ quote)
                       ++ (sc ++ String (ascii_of_nat 34) " }")).
  { reflexivity. }
  rewrite Hsplit, clashAll_includes; [|vm_compute; reflexivity].
  now apply includes_already_exists.
Qed.

(** ** Creating a link *)

(** What [createShortUrl] returns and leaves, case by case. *)
Lemma createShortUrl_run (env : Env) (now : Z) (fuel : nat)
  (urlData : UrlService.UrlData) (s : State) :
  UrlService.createShortUrl env now fuel urlData s
  = let init := initOf now urlData in
    let taken :=
      match UrlService.shortcode urlData with
      | Some (String c sc) =>
          match Url.findOneActive (urls s) (String c sc) with
          | Some _ => true
          | None => false
          end
      | _ => false
      end in
    if taken then
      (Throw "Failed to create short URL: Custom shortcode already exists", s)
    else
      match Url.validate (Url.shortcodeOf init) init with
      | [] =>
          match Url.preSave fuel (random env) (draws s) (urls s) init with
          | None => (Pending, s)
          | Some (sc, pos) =>
              let s1 := mkState (dbConnected s) (urls s) (clicks s) (nextId s) pos in
              if Url.holds (urls s) sc then
                (Throw ("Failed to create short URL: " ++ Url.duplicateKeyMessage sc), s1)
              else
                let u := Url.fresh (nextId s) now sc init in
                (Return (UrlService.mkCreated sc (UrlService.originalUrl urlData)
                           (UrlService.baseUrl env ++ "/" ++ sc)
                           (Url.i_expiresAt init) now),
                 mkState (dbConnected s) (urls s ++ [u]) (clicks s) (S (nextId s)) pos)
          end
      | errs =>
          (Throw ("Failed to create short URL: "
                    ++ Mongoose.validationMessage (shown env) "Url" errs), s)
      end.
Proof.
  unfold UrlService.createShortUrl, initOf. cbv zeta. unfold_calls.
  destruct (UrlService.shortcode urlData) as [[|c sc]|] eqn:Esc; cbn [JS.truthy].
  - unfold saveNewUrl.
    destruct (Url.validate _ _); [|reflexivity].
    destruct (Url.preSave _ _ _ _ _) as [[sc pos]|]; [|reflexivity].
    destruct (Url.holds _ _); reflexivity.
  - destruct (Url.findOneActive (urls s) (String c sc)); [reflexivity|].
    unfold saveNewUrl.
    destruct (Url.validate _ _); [|reflexivity].
    destruct (Url.preSave _ _ _ _ _) as [[sc' pos]|]; [|reflexivity].
    destruct (Url.holds _ _); reflexivity.
  - unfold saveNewUrl.
    destruct (Url.validate _ _); [|reflexivity].
    destruct (Url.preSave _ _ _ _ _) as [[sc pos]|]; [|reflexivity].
    destruct (Url.holds _ _); reflexivity.
Qed.

(** A document that passes the validation has a shortcode, which the
    pre-save hook leaves as it is; no random number is drawn. *)
Lemma preSave_of_valid (fuel : nat) (rnd : nat -> Q) (pos : nat) (us : list Url.t)
  (i : Url.init) :
  Url.validate (Url.shortcodeOf i) i = [] ->
  Url.preSave fuel rnd pos us i = Some (Url.shortcodeOf i, pos)
  /\ (3 <= String.length (Url.shortcodeOf i) <= 20)%nat
  /\ exists raw, Url.i_shortcode i = Some raw.
Proof.
  unfold Url.validate. intro H. apply app_eq_nil in H. destruct H as [H _].
  unfold Url.validateShortcode in H.
  destruct (Nat.eqb_spec (String.length (Url.shortcodeOf i)) 0); [discriminate|].
  destruct (Nat.ltb_spec (String.length (Url.shortcodeOf i)) 3); [discriminate|].
  destruct (Nat.ltb_spec 20 (String.length (Url.shortcodeOf i))); [discriminate|].
  unfold Url.preSave, Url.shortcodeOf in *.
  destruct (Url.i_shortcode i) as [raw|]; cbn [option_map String.length] in *; [|lia].
  destruct (JS.trim raw) as [|c t]; cbn [String.length] in *; [lia|].
  split; [reflexivity|]. split; [lia|]. now exists raw.
Qed.

(** Past its first checks the handler looks at the validity and then calls
    the service. *)
Lemma postShortUrls_after_checks (env : Env) (now : Z) (fuel : nat)
  (body : Server.CreateRequest) (s : State) :
  passesChecks env body s = true ->
  Server.postShortUrls env now fuel body s
  = if Server.validityOutOfRange (Server.validityMinutes (Server.validity body)) then
      (Some (Server.Json 400 (Server.ErrorBody
               "Validity must be between 1 and 525600 minutes (1 year)"
               "INVALID_VALIDITY")), s)
    else
      match UrlService.createShortUrl env now fuel (urlDataOf body) s with
      | (Return r, s') =>
          (Some (Server.Json 201 (Server.CreatedBody (UrlService.c_shortLink r)
                                    (UrlService.c_expiresAt r)
                                    (UrlService.c_shortcode r))), s')
      | (Throw message, s') =>
          if JS.includes message "already exists" then
            (Some (Server.Json 409 (Server.ErrorBody
                     "Custom shortcode already exists. Please choose a different one."
                     "SHORTCODE_EXISTS")), s')
          else (Some Server.internalError, s')
      | (Pending, s') => (None, s')
      end.
Proof.
  unfold passesChecks, Server.postShortUrls, urlDataOf, Server.isValidUrl. intro H.
  apply andb_prop in H. destruct H as [H Hsc].
  apply andb_prop in H. destruct H as [H Hurl].
  apply andb_prop in H. destruct H as [Hdb Htruthy].
  rewrite Hdb. cbn [negb].
  destruct (Server.url body) as [[|c u]|]; cbn [JS.truthy] in Htruthy; try discriminate.
  cbn [JS.orDefault] in Hurl |- *. rewrite Hurl. cbn [negb].
  destruct (Server.shortcode body) as [[|c' sc]|]; cbn [JS.truthy andb negb orb] in Hsc |- *;
    try reflexivity.
  cbv zeta in Hsc. cbn [JS.orDefault] in Hsc.
  apply andb_prop in Hsc. destruct Hsc as [Hsc Hmax].
  apply andb_prop in Hsc. destruct Hsc as [Halnum Hmin].
  rewrite Halnum. cbn [negb].
  apply Nat.leb_le in Hmin, Hmax.
  destruct (Nat.ltb_spec (String.length (String c' sc)) 3); [lia|].
  destruct (Nat.ltb_spec 20 (String.length (String c' sc))); [lia|].
  reflexivity.
Qed.

Lemma createShortUrl_return (env : Env) (now : Z) (fuel : nat)
  (urlData : UrlService.UrlData) (s s' : State) (r : UrlService.Created) :
  UrlService.createShortUrl env now fuel urlData s = (Return r, s') ->
  exists sc pos,
    Url.preSave fuel (random env) (draws s) (urls s) (initOf now urlData) = Some (sc, pos)
    /\ Url.validate sc (initOf now urlData) = []
    /\ Url.holds (urls s) sc = false
    /\ r = UrlService.mkCreated sc (UrlService.originalUrl urlData)
             (UrlService.baseUrl env ++ "/" ++ sc)
             (Url.i_expiresAt (initOf now urlData)) now
    /\ s' = mkState (dbConnected s)
              (urls s ++ [Url.fresh (nextId s) now sc (initOf now urlData)])
              (clicks s) (S (nextId s)) pos
    /\ sc = Url.shortcodeOf (initOf now urlData)
    /\ pos = draws s.
Proof.
  rewrite createShortUrl_run. cbv zeta.
  destruct (match UrlService.shortcode urlData with
            | Some (String c sc) =>
                match Url.findOneActive (urls s) (String c sc) with
                | Some _ => true
                | None => false
                end
            | _ => false
            end); [discriminate|].
  destruct (Url.validate _ _) eqn:Ev; [|discriminate].
  destruct (preSave_of_valid fuel (random env) (draws s) (urls s) _ Ev) as (Hpre & _).
  rewrite Hpre.
  destruct (Url.holds (urls s) _) eqn:Ex; [discriminate|].
  intro H. inversion H; subst. eexists _, _. repeat split; eassumption.
Qed.

(** The schema accepts the paths other than the shortcode when it accepts
    the URL and the description of the request. *)
Lemma validate_without_shortcode (now : Z) (urlData : UrlService.UrlData) (sc : string) :
  Url.validate sc (initOf now urlData) = [] ->
  Url.validate "" (initOf now urlData) = [("shortcode", Mongoose.Required)].
Proof.
  unfold Url.validate. intro H. apply app_eq_nil in H. destruct H as [_ H].
  rewrite H. reflexivity.
Qed.

(** The handler answers 201 only when the service has returned. *)
Lemma postShortUrls_created (env : Env) (now : Z) (fuel : nat)
  (body : Server.CreateRequest) (s s' : State) (link : string) (expiry : Z) (sc : string) :
  passesChecks env body s = true ->
  Server.postShortUrls env now fuel body s = (Some (created link expiry sc), s') ->
  Server.validityOutOfRange (Server.validityMinutes (Server.validity body)) = false
  /\ UrlService.createShortUrl env now fuel (urlDataOf body) s
     = (Return (UrlService.mkCreated sc (JS.orDefault (Server.url body) "") link expiry now),
        s').
Proof.
  intros Hchecks. rewrite (postShortUrls_after_checks _ _ _ _ _ Hchecks).
  destruct (Server.validityOutOfRange _); [discriminate|].
  destruct (UrlService.createShortUrl env now fuel (urlDataOf body) s) as [[r|m|] s1] eqn:E.
  - destruct (createShortUrl_return _ _ _ _ _ _ _ E) as (sc0 & pos & _ & _ & _ & Hr & _).
    subst r. cbn [UrlService.c_shortLink UrlService.c_expiresAt UrlService.c_shortcode].
    unfold created. intro H. inversion H; subst. split; reflexivity.
  - destruct (JS.includes m "already exists"); discriminate.
  - discriminate.
Qed.

Lemma expiryOf_integer (now m : Z) :
  UrlService.expiryOf now (inject_Z m) = (now + m * 60000)%Z.
Proof.
  unfold UrlService.expiryOf, JS.truncate. cbn. rewrite Z.quot_1_r. lia.
Qed.

(** ** The validity of a new link *)

(** C2 (as amended). For a request that gets as far as the validity check:
    an omitted validity counts as 30 minutes, and a link created then
    expires 1,800,000 ms after the request. A numeric validity [v] other
    than 0 is answered 400 INVALID_VALIDITY, with the state untouched,
    exactly when [v < 0] or [v > 525600]; a link is created only when
    [0 < v <= 525600], whether [v] is an integer or not, and then expires
    [v] minutes after the request. *)
Theorem validity_check (env : Env) (now : Z) (fuel : nat)
  (body : Server.CreateRequest) (s : State) :
  passesChecks env body s = true ->
  let response := Server.postShortUrls env now fuel body s in
  (Server.validity body = None ->
   Server.validityMinutes (Server.validity body) = 30%Q
   /\ (forall link expiry sc s',
          response = (Some (created link expiry sc), s') ->
          expiry = (now + 1800000)%Z))
  /\ (forall v : Q,
         Server.validity body = Some v -> ~ (v == 0)%Q ->
         ((v < 0)%Q \/ (525600 < v)%Q <-> response = (Some invalidValidity, s))
         /\ (forall link expiry sc s',
                response = (Some (created link expiry sc), s') ->
                (0 < v)%Q /\ (v <= 525600)%Q /\ expiry = UrlService.expiryOf now v)).
Proof.
  intros Hchecks response.
  assert (Hexpiry : forall link expiry sc s',
             response = (Some (created link expiry sc), s') ->
             Server.validityOutOfRange (Server.validityMinutes (Server.validity body)) = false
             /\ expiry = UrlService.expiryOf now (Server.validityMinutes (Server.validity body))).
  { intros link expiry sc s' H.
    destruct (postShortUrls_created _ _ _ _ _ _ _ _ _ Hchecks H) as [Hrange Hrun].
    split; [exact Hrange|].
    destruct (createShortUrl_return _ _ _ _ _ _ _ Hrun) as (sc0 & pos & _ & _ & _ & Hr & _).
    inversion Hr; subst. reflexivity. }
  split.
  - intro Hnone. rewrite Hnone in *. cbn [Server.validityMinutes] in *.
    split; [reflexivity|]. intros link expiry sc s' H.
    destruct (Hexpiry _ _ _ _ H) as [_ ->].
    change 30%Q with (inject_Z 30). rewrite expiryOf_integer. lia.
  - intros v Hv Hnz.
    assert (Hminutes : Server.validityMinutes (Server.validity body) = v).
    { rewrite Hv. cbn [Server.validityMinutes].
      destruct (Qeq_bool v 0) eqn:E; [|reflexivity].
      apply Qeq_bool_iff in E. contradiction. }
    rewrite Hminutes in Hexpiry.
    assert (Hrange : Server.validityOutOfRange v = true <-> (v < 0)%Q \/ (525600 < v)%Q).
    { unfold Server.validityOutOfRange.
      rewrite orb_true_iff, negb_true_iff, Qle_bool_iff.
      split.
      - intros [H|H].
        + left. apply Qle_lt_or_eq in H. destruct H as [H|H]; [exact H|contradiction].
        + right. apply Qnot_le_lt. intro Hle. apply Qle_bool_iff in Hle. congruence.
      - intros [H|H].
        + left. now apply Qlt_le_weak.
        + right. destruct (Qle_bool v 525600) eqn:E; [|reflexivity].
          apply Qle_bool_iff in E. exfalso. apply (Qlt_not_le _ _ H E). }
    split.
    + rewrite <- Hrange. subst response.
      rewrite (postShortUrls_after_checks _ _ _ _ _ Hchecks), Hminutes.
      destruct (Server.validityOutOfRange v).
      * split; reflexivity.
      * split; [discriminate|].
        destruct (UrlService.createShortUrl env now fuel (urlDataOf body) s) as [[r|m|] s1].
        -- discriminate.
        -- destruct (JS.includes m "already exists"); discriminate.
        -- discriminate.
    + intros link expiry sc s' H. destruct (Hexpiry _ _ _ _ H) as [Hin ->].
      split; [|split; [|reflexivity]].
      * apply Qnot_le_lt. intro Hle. apply Qle_lt_or_eq in Hle.
        destruct Hle as [Hlt|Heq]; [|contradiction].
        assert (Server.validityOutOfRange v = true) by (apply Hrange; now left).
        congruence.
      * apply Qnot_lt_le. intro Hlt.
        assert (Server.validityOutOfRange v = true) by (apply Hrange; now right).
        congruence.
Qed.

Lemma validity_check_witness :
  Server.postShortUrls Sample.env 1000 1 Sample.negative Sample.state
  = (Some invalidValidity, Sample.state).
Proof.
  destruct (validity_check Sample.env 1000 1 Sample.negative Sample.state eq_refl) as [_ H].
  destruct (H (- 5 # 1)%Q eq_refl) as [Hiff _].
  - intro E. discriminate E.
  - apply Hiff. left. reflexivity.
Defined.

(** A validity of a minute and a half is no integer, and one of half a
    minute is below 1; the handler creates a link for both. *)
Lemma fractional_validity_is_accepted :
  (forall n : Z, ~ (3 # 2 == inject_Z n)%Q)
  /\ fst (Server.postShortUrls Sample.env 1000 1 Sample.fractional Sample.state)
     = Some (created "http://localhost:8080/xyz" 91000 "xyz")
  /\ (1 # 2 < 1)%Q
  /\ fst (Server.postShortUrls Sample.env 1000 1 Sample.halfMinute Sample.state)
     = Some (created "http://localhost:8080/xyz" 31000 "xyz").
Proof.
  split; [|split; [|split]].
  - intros n E. unfold Qeq in E. cbn in E. lia.
  - vm_compute. reflexivity.
  - reflexivity.
  - vm_compute. reflexivity.
Qed.

(** ** Shortcodes that are taken *)

Lemma state_eta (s : State) :
  mkState (dbConnected s) (urls s) (clicks s) (nextId s) (draws s) = s.
Proof. destruct s; reflexivity. Qed.

Lemma passesChecks_shortcode (env : Env) (body : Server.CreateRequest) (s : State)
  (sc : string) :
  passesChecks env body s = true ->
  Server.shortcode body = Some sc -> sc <> "" ->
  shortcodeOk sc.
Proof.
  unfold passesChecks. intros H Hsc Hne. rewrite Hsc in H.
  destruct sc as [|c sc]; [contradiction|].
  cbn [JS.truthy negb orb JS.orDefault] in H. cbv zeta in H.
  apply andb_prop in H. destruct H as [_ H].
  apply andb_prop in H. destruct H as [H Hmax].
  apply andb_prop in H. destruct H as [Halnum Hmin].
  unfold Server.alphanumeric in Halnum. apply andb_prop in Halnum.
  destruct Halnum as [_ Halnum].
  apply Nat.leb_le in Hmin, Hmax. repeat split; assumption.
Qed.

Lemma passesChecks_url (env : Env) (body : Server.CreateRequest) (s : State) :
  passesChecks env body s = true ->
  dbConnected s = true
  /\ exists c u, Server.url body = Some (String c u).
Proof.
  unfold passesChecks. intro H.
  apply andb_prop in H. destruct H as [H _].
  apply andb_prop in H. destruct H as [H _].
  apply andb_prop in H. destruct H as [Hdb Htruthy].
  split; [assumption|].
  destruct (Server.url body) as [[|c u]|]; try discriminate. now exists c, u.
Qed.

(** The schema accepts a new link whose shortcode is well formed when it
    accepts the URL and the description of the request. *)
Lemma validate_accepts (env : Env) (now : Z) (body : Server.CreateRequest) (s : State)
  (sc : string) :
  passesChecks env body s = true ->
  schemaAccepts body = true ->
  shortcodeOk sc ->
  Url.validate sc (initOf now (urlDataOf body)) = [].
Proof.
  intros Hchecks Hschema (Halnum & Hmin & Hmax).
  destruct (passesChecks_url _ _ _ Hchecks) as (_ & c & u & Hurl).
  unfold schemaAccepts in Hschema. apply andb_prop in Hschema.
  destruct Hschema as [Hpattern Hdescription].
  unfold Url.validate, initOf, urlDataOf.
  cbn [Url.i_originalUrl Url.i_description UrlService.originalUrl UrlService.description].
  unfold Url.validateShortcode, Url.validateOriginalUrl, Url.validateDescription.
  rewrite Hurl in *. cbn [JS.orDefault] in *. rewrite Hpattern.
  destruct (Nat.eqb_spec (String.length sc) 0); [lia|].
  destruct (Nat.ltb_spec (String.length sc) 3); [lia|].
  destruct (Nat.ltb_spec 20 (String.length sc)); [lia|].
  cbn [String.length Nat.eqb app].
  destruct (Server.description body) as [d|]; [|reflexivity].
  apply Nat.leb_le in Hdescription.
  destruct (Nat.ltb_spec 500 (String.length d)); [lia|reflexivity].
Qed.

(** The pre-save hook keeps a well-formed custom shortcode. *)
Lemma preSave_custom (fuel : nat) (rnd : nat -> Q) (pos : nat) (us : list Url.t)
  (i : Url.init) (sc : string) :
  Url.i_shortcode i = Some sc -> sc <> "" ->
  JS.forallb_string JS.isAlnum sc = true ->
  Url.preSave fuel rnd pos us i = Some (sc, pos).
Proof.
  intros Hsc Hne Halnum. unfold Url.preSave. rewrite Hsc. cbn [option_map].
  rewrite (trim_alnum sc Halnum). destruct sc; [contradiction|reflexivity].
Qed.

Lemma shortcodeOf_custom (i : Url.init) (sc : string) :
  Url.i_shortcode i = Some sc ->
  JS.forallb_string JS.isAlnum sc = true ->
  Url.shortcodeOf i = sc.
Proof. intros Hsc Halnum. unfold Url.shortcodeOf. rewrite Hsc. now apply trim_alnum. Qed.

Lemma exists_alnum (us : list Url.t) (sc : string) :
  JS.forallb_string JS.isAlnum sc = true -> Url.exists_ us sc = Url.holds us sc.
Proof. intro Halnum. unfold Url.exists_. now rewrite trim_alnum. Qed.

(** What [createShortUrl] does with a request that has passed the checks of
    the handler with a custom shortcode, when the schema accepts its URL and
    its description. *)
Lemma createShortUrl_custom (env : Env) (now : Z) (fuel : nat)
  (body : Server.CreateRequest) (s : State) (sc : string) :
  passesChecks env body s = true ->
  Server.shortcode body = Some sc -> sc <> "" ->
  schemaAccepts body = true ->
  UrlService.createShortUrl env now fuel (urlDataOf body) s
  = match Url.findOneActive (urls s) sc with
    | Some _ => (Throw "Failed to create short URL: Custom shortcode already exists", s)
    | None =>
        if Url.holds (urls s) sc then
          (Throw ("Failed to create short URL: " ++ Url.duplicateKeyMessage sc), s)
        else
          (Return (UrlService.mkCreated sc (JS.orDefault (Server.url body) "")
                     (UrlService.baseUrl env ++ "/" ++ sc)
                     (UrlService.expiryOf now (Server.validityMinutes (Server.validity body)))
                     now),
           mkState (dbConnected s)
             (urls s ++ [Url.fresh (nextId s) now sc (initOf now (urlDataOf body))])
             (clicks s) (S (nextId s)) (draws s))
    end.
Proof.
  intros Hchecks Hsc Hne Hschema.
  pose proof (passesChecks_shortcode _ _ _ _ Hchecks Hsc Hne) as Hok.
  assert (Hof : Url.shortcodeOf (initOf now (urlDataOf body)) = sc).
  { apply shortcodeOf_custom; [|apply Hok].
    unfold initOf, urlDataOf. cbn [Url.i_shortcode UrlService.shortcode]. exact Hsc. }
  rewrite createShortUrl_run. cbv zeta. unfold urlDataOf at 1.
  cbn [UrlService.shortcode]. rewrite Hsc, Hof.
  rewrite (validate_accepts env now body s sc Hchecks Hschema Hok).
  rewrite (preSave_custom fuel (random env) (draws s) (urls s) _ sc);
    [|unfold initOf, urlDataOf; cbn [Url.i_shortcode UrlService.shortcode]; exact Hsc
     |exact Hne|apply Hok].
  rewrite state_eta.
  destruct sc as [|c sc']; [contradiction|].
  destruct (Url.findOneActive (urls s) (String c sc')); reflexivity.
Qed.

(** C3 (as amended). A request with a custom shortcode that gets past the
    validation is checked against the active links: when an active link has
    the shortcode, the answer is 409 SHORTCODE_EXISTS and nothing is
    written. When only an inactive link has it, the check passes, the store
    refuses the insertion under its unique index, and the handler, which
    recognises a conflict by the words "already exists" in the message,
    answers 500 INTERNAL_ERROR. *)
Theorem custom_shortcode_collision (env : Env) (now : Z) (fuel : nat)
  (body : Server.CreateRequest) (s : State) (sc : string) :
  passesChecks env body s = true ->
  Server.validityOutOfRange (Server.validityMinutes (Server.validity body)) = false ->
  Server.shortcode body = Some sc ->
  sc <> "" ->
  (forall u, Url.findOneActive (urls s) sc = Some u ->
             UrlService.createShortUrl env now fuel (urlDataOf body) s
             = (Throw "Failed to create short URL: Custom shortcode already exists", s)
             /\ Server.postShortUrls env now fuel body s = (Some shortcodeExists, s))
  /\ (Url.findOneActive (urls s) sc = None ->
      Url.exists_ (urls s) sc = true ->
      schemaAccepts body = true ->
      UrlService.createShortUrl env now fuel (urlDataOf body) s
      = (Throw ("Failed to create short URL: " ++ Url.duplicateKeyMessage sc), s)
      /\ Server.postShortUrls env now fuel body s = (Some Server.internalError, s)).
Proof.
  intros Hchecks Hrange Hsc Hne.
  pose proof (passesChecks_shortcode _ _ _ _ Hchecks Hsc Hne) as Hok.
  split.
  - intros u Hfind.
    assert (Hrun : UrlService.createShortUrl env now fuel (urlDataOf body) s
                   = (Throw "Failed to create short URL: Custom shortcode already exists", s)).
    { rewrite createShortUrl_run. cbv zeta. unfold urlDataOf at 1.
      cbn [UrlService.shortcode]. rewrite Hsc.
      destruct sc as [|c sc']; [contradiction|]. now rewrite Hfind. }
    split; [exact Hrun|].
    rewrite (postShortUrls_after_checks _ _ _ _ _ Hchecks), Hrange, Hrun.
    reflexivity.
  - intros Hfind Hexists Hschema.
    assert (Hrun : UrlService.createShortUrl env now fuel (urlDataOf body) s
                   = (Throw ("Failed to create short URL: " ++ Url.duplicateKeyMessage sc), s)).
    { rewrite (createShortUrl_custom env now fuel body s sc Hchecks Hsc Hne Hschema), Hfind.
      rewrite (exists_alnum _ _ (proj1 Hok)) in Hexists. now rewrite Hexists. }
    split; [exact Hrun|].
    rewrite (postShortUrls_after_checks _ _ _ _ _ Hchecks), Hrange, Hrun.
    rewrite (duplicate_key_not_already_exists sc); [reflexivity|apply Hok].
Qed.

Lemma custom_shortcode_collision_witness :
  Server.postShortUrls Sample.env 1000 1 Sample.custom Sample.state
  = (Some shortcodeExists, Sample.state).
Proof.
  refine (proj2 (proj1 (custom_shortcode_collision Sample.env 1000 1 Sample.custom
                          Sample.state "abc" eq_refl eq_refl eq_refl _)
                   Sample.link eq_refl)).
  discriminate.
Defined.

(** Once the link "abc" has expired and the sweep has made it inactive, a
    request for the custom shortcode "abc" passes the check against the
    active links and runs into the unique index of the store: the answer is
    500 INTERNAL_ERROR, not 409. *)
Lemma inactive_shortcode_is_internal_error :
  Url.findOneActive (urls Sample.deactivated) "abc" = None
  /\ UrlService.createShortUrl Sample.env Sample.later 1 (urlDataOf Sample.custom)
       Sample.deactivated
     = (Throw ("Failed to create short URL: " ++ Url.duplicateKeyMessage "abc"),
        Sample.deactivated)
  /\ Server.postShortUrls Sample.env Sample.later 1 Sample.custom Sample.deactivated
     = (Some Server.internalError, Sample.deactivated)
  /\ Server.internalError <> shortcodeExists.
Proof.
  split; [reflexivity|]. split; [vm_compute; reflexivity|].
  split; [vm_compute; reflexivity|]. discriminate.
Qed.

(** ** Generated shortcodes *)

Lemma charAt_chars (k : nat) :
  (k < 62)%nat ->
  exists c, JS.charAt Url.chars k = String c "" /\ JS.isAlnum c = true.
Proof.
  intro Hk.
  do 62 (destruct k as [|k]; [eexists; split; reflexivity|]).
  lia.
Qed.

Lemma randomIndex_lt (r : Q) :
  (0 <= r)%Q -> (r < 1)%Q -> (Url.randomIndex r < 62)%nat.
Proof.
  intros H0 H1. unfold Url.randomIndex.
  change (Z.of_nat (String.length Url.chars)) with 62%Z.
  change (inject_Z 62) with 62%Q.
  assert (Hlo : (0 <= Qfloor (r * 62))%Z).
  { apply (Qfloor_resp_le 0 (r * 62)). lra. }
  assert (Hhi : (Qfloor (r * 62) < 62)%Z).
  { rewrite Zlt_Qlt. apply Qle_lt_trans with (r * 62)%Q; [apply Qfloor_le|].
    change (inject_Z 62) with 62%Q. lra. }
  lia.
Qed.

Lemma generateLoop_spec (rnd : nat -> Q) :
  (forall i, (0 <= rnd i)%Q /\ (rnd i < 1)%Q) ->
  forall n pos acc,
  exists w, Url.generateLoop rnd pos n acc = acc ++ w
            /\ String.length w = n
            /\ JS.forallb_string JS.isAlnum w = true.
Proof.
  intro Hrnd. induction n as [|n IH]; intros pos acc; cbn [Url.generateLoop].
  - exists "". split; [|split; reflexivity].
    induction acc as [|c acc IHacc]; cbn [append]; [reflexivity|now rewrite <- IHacc].
  - destruct (Hrnd pos) as [H0 H1].
    destruct (charAt_chars _ (randomIndex_lt _ H0 H1)) as (c & Hc & Halnum).
    rewrite Hc.
    destruct (IH (S pos) (acc ++ String c "")) as (w & Hw & Hlen & Hall).
    exists (String c w). rewrite Hw, append_assoc. cbn [append String.length JS.forallb_string].
    rewrite Hlen, Halnum, Hall. repeat split.
Qed.

(** A generated shortcode is 7 alphanumeric characters. *)
Lemma generateRandomShortcode_ok (rnd : nat -> Q) (pos : nat) :
  (forall i, (0 <= rnd i)%Q /\ (rnd i < 1)%Q) ->
  String.length (Url.generateRandomShortcode rnd pos) = 7
  /\ JS.forallb_string JS.isAlnum (Url.generateRandomShortcode rnd pos) = true.
Proof.
  intro Hrnd. unfold Url.generateRandomShortcode.
  destruct (generateLoop_spec rnd Hrnd 7 pos "") as (w & Hw & Hlen & Hall).
  rewrite Hw. cbn [append]. now split.
Qed.

Lemma truncate_ge (n : Z) (x : Q) : (inject_Z n <= x)%Q -> (n <= JS.truncate x)%Z.
Proof.
  destruct x as [p q]. unfold Qle, JS.truncate. cbn [Qnum Qden inject_Z]. intro H.
  destruct (Z.le_gt_cases 0 p) as [Hp|Hp].
  - rewrite Z.quot_div_nonneg by lia. apply Z.div_le_lower_bound; lia.
  - replace p with (- (- p))%Z by lia. rewrite Z.quot_opp_l by lia.
    rewrite Z.quot_div_nonneg by lia.
    assert ((- p) / Z.pos q <= - n)%Z by (apply Z.div_le_upper_bound; lia).
    lia.
Qed.

Lemma findOneActive_app_fresh (us : list Url.t) (u : Url.t) :
  Url.holds us (Url.shortcode u) = false ->
  Url.isActive u = true ->
  forall sc, JS.trim sc = Url.shortcode u ->
  Url.findOneActive (us ++ [u]) sc = Some u.
Proof.
  unfold Url.holds, Url.findOneActive. intros Hfresh Hact sc ->.
  induction us as [|a us IH]; cbn [app find existsb] in *.
  - now rewrite String.eqb_refl, Hact.
  - apply orb_false_elim in Hfresh. destruct Hfresh as [Ha Hus].
    rewrite Ha. cbn [andb]. now apply IH.
Qed.

Lemma exists_findOneActive (us : list Url.t) (sc : string) :
  Url.exists_ us sc = false -> Url.findOneActive us sc = None.
Proof.
  unfold Url.exists_, Url.holds, Url.findOneActive. intro H.
  induction us as [|a us IH]; cbn [find existsb] in *; [reflexivity|].
  apply orb_false_elim in H. destruct H as [Ha Hus]. rewrite Ha. cbn [andb]. now apply IH.
Qed.

Lemma in_range_positive (v : Q) :
  Server.validityOutOfRange v = false -> (0 < v)%Q /\ (v <= 525600)%Q.
Proof.
  unfold Server.validityOutOfRange. intro H. apply orb_false_elim in H.
  destruct H as [Hlo Hhi]. apply negb_false_iff in Hhi. apply Qle_bool_iff in Hhi.
  split; [|assumption]. apply Qnot_le_lt. intro Hle. apply Qle_bool_iff in Hle. congruence.
Qed.

Lemma expiryOf_later (now : Z) (v : Q) : (0 < v)%Q -> (now <= UrlService.expiryOf now v)%Z.
Proof.
  intro Hv. unfold UrlService.expiryOf. apply truncate_ge.
  generalize (inject_Z now). intro q. lra.
Qed.

(** ** A new link and its shortcode *)

(** C7. For a request that passes the checks of the handler:
    - when [POST /shorturls] answers 201, the shortcode it returns is the
      caller's own, 3 to 20 alphanumeric characters; the link has not
      expired at the time of the request, and [getUrlByShortcode] with that
      shortcode, at any time up to the expiry, returns a link whose target
      is the URL of the request; the answer is 201 when the validity is in
      range, the schema accepts the request and no stored link has the
      shortcode;
    - without a shortcode, with a validity in range and a URL and a
      description that the schema accepts, the request is answered 500
      INTERNAL_ERROR and nothing is written: the document fails the
      validation of the schema, which requires a shortcode, before the
      pre-save hook generates one;
    - the generator of that hook yields 7 alphanumeric characters for
      values of [Math.random] in [0, 1). *)
Theorem created_shortcode_resolves (env : Env) (now : Z) (fuel : nat)
  (body : Server.CreateRequest) (s : State) :
  passesChecks env body s = true ->
  (forall link expiry sc s',
      Server.postShortUrls env now fuel body s = (Some (created link expiry sc), s') ->
      shortcodeOk sc
      /\ Server.shortcode body = Some sc
      /\ (now <= expiry)%Z
      /\ forall t : Z,
           (t <= expiry)%Z ->
           exists u,
             UrlService.getUrlByShortcode t sc s' = (Return (Some u), s')
             /\ Some (Url.originalUrl u) = Server.url body
             /\ Url.shortcode u = sc)
  /\ (Server.validityOutOfRange (Server.validityMinutes (Server.validity body)) = false ->
      schemaAccepts body = true ->
      (forall sc,
          Server.shortcode body = Some sc -> sc <> "" ->
          Url.exists_ (urls s) sc = false ->
          exists link expiry s',
            Server.postShortUrls env now fuel body s = (Some (created link expiry sc), s'))
      /\ (JS.truthy (Server.shortcode body) = false ->
          Server.postShortUrls env now fuel body s = (Some Server.internalError, s)))
  /\ (randomInUnitInterval env ->
      forall pos,
        String.length (Url.generateRandomShortcode (random env) pos) = 7
        /\ JS.forallb_string JS.isAlnum (Url.generateRandomShortcode (random env) pos) = true).
Proof.
  intros Hchecks. split; [|split].
  - intros link expiry sc s' Hpost.
    destruct (postShortUrls_created _ _ _ _ _ _ _ _ _ Hchecks Hpost) as [Hrange Hrun].
    destruct (createShortUrl_return _ _ _ _ _ _ _ Hrun)
      as (sc0 & pos & Hpre & Hvalid & Hfresh & Hr & Hs' & Hof & Hpos).
    inversion Hr as [[Hsc Hlink Hexpiry]]. rewrite <- Hsc in *. clear Hsc Hr Hpost Hrun.
    assert (Hcustom : Server.shortcode body = Some sc /\ shortcodeOk sc).
    { rewrite Hof in Hvalid.
      destruct (preSave_of_valid fuel (random env) (draws s) (urls s) _ Hvalid)
        as (_ & Hlen & raw & Hraw).
      rewrite <- Hof in Hlen.
      unfold initOf, urlDataOf in Hraw. cbn [Url.i_shortcode UrlService.shortcode] in Hraw.
      assert (Htrim : sc = JS.trim raw).
      { rewrite Hof. unfold Url.shortcodeOf, initOf, urlDataOf.
        cbn [Url.i_shortcode UrlService.shortcode]. now rewrite Hraw. }
      assert (Hne : raw <> "").
      { intros ->. rewrite Htrim in Hlen. cbn in Hlen. lia. }
      pose proof (passesChecks_shortcode _ _ _ _ Hchecks Hraw Hne) as Hok.
      rewrite (trim_alnum raw (proj1 Hok)) in Htrim. subst raw. now split. }
    destruct Hcustom as [Hcustom Hok].
    change (Url.i_expiresAt (initOf now (urlDataOf body)))
      with (UrlService.expiryOf now (Server.validityMinutes (Server.validity body)))
      in Hexpiry.
    subst link expiry.
    split; [assumption|]. split; [assumption|]. split.
    + apply expiryOf_later. now apply in_range_positive.
    + intros t Ht.
      set (u := Url.fresh (nextId s) now sc (initOf now (urlDataOf body))) in *.
      exists u. rewrite getUrlByShortcode_run. rewrite Hs' at 1. cbn [urls].
      assert (Hfind : Url.findOneActive (urls s ++ [u]) sc = Some u).
      { apply (findOneActive_app_fresh (urls s) u);
          [exact Hfresh|reflexivity|exact (trim_alnum sc (proj1 Hok))]. }
      rewrite Hfind.
      assert (Hlive : Url.isExpired t u = false).
      { unfold Url.isExpired. apply Z.ltb_ge. subst u. cbn [Url.fresh Url.expiresAt].
        exact Ht. }
      rewrite Hlive. split; [reflexivity|]. split; [|reflexivity].
      destruct (passesChecks_url _ _ _ Hchecks) as (_ & c & x & Hurl).
      subst u. unfold Url.fresh, initOf, urlDataOf.
      cbn [Url.originalUrl Url.i_originalUrl UrlService.originalUrl].
      rewrite Hurl. reflexivity.
  - intros Hrange Hschema. split.
    + intros sc Hsc Hne Hfresh.
      pose proof (passesChecks_shortcode _ _ _ _ Hchecks Hsc Hne) as Hok.
      rewrite (postShortUrls_after_checks _ _ _ _ _ Hchecks), Hrange.
      rewrite (createShortUrl_custom env now fuel body s sc Hchecks Hsc Hne Hschema).
      rewrite (exists_findOneActive _ _ Hfresh).
      rewrite (exists_alnum _ _ (proj1 Hok)) in Hfresh. rewrite Hfresh.
      cbn [UrlService.c_shortLink UrlService.c_expiresAt UrlService.c_shortcode].
      unfold created. eauto.
    + intro Hnone.
      assert (Hof : Url.shortcodeOf (initOf now (urlDataOf body)) = "").
      { unfold Url.shortcodeOf, initOf, urlDataOf.
        cbn [Url.i_shortcode UrlService.shortcode].
        destruct (Server.shortcode body) as [[|c custom]|]; try reflexivity; discriminate. }
      assert (Hok : shortcodeOk "abc") by (repeat split; cbn; lia).
      pose proof (validate_without_shortcode now (urlDataOf body) "abc"
                    (validate_accepts env now body s "abc" Hchecks Hschema Hok)) as Hvalid.
      rewrite (postShortUrls_after_checks _ _ _ _ _ Hchecks), Hrange.
      rewrite createShortUrl_run. cbv zeta. unfold urlDataOf at 1.
      cbn [UrlService.shortcode]. rewrite Hof, Hvalid.
      destruct (Server.shortcode body) as [[|c custom]|]; try discriminate; reflexivity.
  - intros Hrnd pos. now apply generateRandomShortcode_ok.
Qed.

Lemma created_shortcode_resolves_witness :
  Server.postShortUrls Sample.env 1000 1 Sample.bare Sample.state
  = (Some Server.internalError, Sample.state).
Proof.
  refine (proj2 (proj1 (proj2 (created_shortcode_resolves Sample.env 1000 1 Sample.bare
                                 Sample.state eq_refl))
                   eq_refl eq_refl) eq_refl).
Defined.

(** ** Counting clicks *)

Lemma find_map_preserved {A : Type} (p : A -> bool) (g : A -> A) (l : list A) :
  (forall x, p (g x) = p x) -> find p (map g l) = option_map g (find p l).
Proof.
  intro Hg. induction l as [|a l IH]; [reflexivity|].
  cbn [map find]. rewrite Hg. destruct (p a); [reflexivity|exact IH].
Qed.

(** An update of the found link that keeps its shortcode and its flag
    leaves it the link its shortcode finds. *)
Lemma findOneActive_updateOne (us : list Url.t) (sc : string) (u : Url.t)
  (f : Url.t -> Url.t) :
  uniqueIds us ->
  Url.findOneActive us sc = Some u ->
  (forall v, Url.shortcode (f v) = Url.shortcode v) ->
  (forall v, Url.isActive (f v) = Url.isActive v) ->
  Url.findOneActive (Url.updateOne (Url._id u) f us) sc = Some (f u).
Proof.
  intros Hids Hfind Hsc Hact. rewrite (updateOne_map _ _ _ Hids).
  unfold Url.findOneActive in *. rewrite find_map_preserved.
  - rewrite Hfind. cbn [option_map]. now rewrite Nat.eqb_refl.
  - intro x. destruct (Url._id x =? Url._id u)%nat; [|reflexivity].
    now rewrite Hsc, Hact.
Qed.

Lemma uniqueIds_updateOne (id : nat) (f : Url.t -> Url.t) (us : list Url.t) :
  (forall v, Url._id (f v) = Url._id v) ->
  uniqueIds us -> uniqueIds (Url.updateOne id f us).
Proof. intros Hf H. unfold uniqueIds. now rewrite (updateOne_ids _ _ _ Hf). Qed.

(** A call for an active, unexpired link whose click the schema accepts
    stores the click and writes the counter it has read, plus one. *)
Lemma recordClick_counts_one (env : Env) (now : Z) (sc : string)
  (requestData : UrlService.RequestData) (s : State) (u : Url.t) :
  uniqueIds (urls s) ->
  Url.findOneActive (urls s) sc = Some u ->
  (now <= Url.expiresAt u)%Z ->
  Click.validate (UrlService.parseRequestData env sc requestData) = [] ->
  exists s',
    UrlService.recordClick env now sc requestData s = (Return (Some (Url.originalUrl u)), s')
    /\ uniqueIds (urls s')
    /\ Url.findOneActive (urls s') sc
       = Some (Url.setClicks (Url.totalClicks u + 1) (Some now) u)
    /\ clicks s'
       = (clicks s ++ [Click.ofData (nextId s) now
                         (UrlService.parseRequestData env sc requestData)])%list.
Proof.
  intros Hids Hfind Hnow Hvalid. rewrite recordClick_run, Hfind.
  assert (Hlive : Url.isExpired now u = false) by (unfold Url.isExpired; now apply Z.ltb_ge).
  rewrite Hlive. cbv zeta. rewrite Hvalid. eexists. split; [reflexivity|].
  unfold setUrls, withClick. cbn [urls clicks]. split; [|split; [|reflexivity]].
  - apply uniqueIds_updateOne; [intro v; destruct v; reflexivity|assumption].
  - apply findOneActive_updateOne; try assumption; intro v; destruct v; reflexivity.
Qed.

Lemma recordClicks_counts (env : Env) (sc : string)
  (calls : list (Z * UrlService.RequestData)) :
  forall (s : State) (u : Url.t),
  uniqueIds (urls s) ->
  Url.findOneActive (urls s) sc = Some u ->
  (forall now requestData,
      In (now, requestData) calls ->
      (now <= Url.expiresAt u)%Z
      /\ Click.validate (UrlService.parseRequestData env sc requestData) = []) ->
  fst (recordClicks env sc calls s)
  = map (fun _ => Return (Some (Url.originalUrl u))) calls
  /\ (exists u',
         Url.findOneActive (urls (snd (recordClicks env sc calls s))) sc = Some u'
         /\ Url.totalClicks u' = (Url.totalClicks u + N.of_nat (List.length calls))%N)
  /\ List.length (clicks (snd (recordClicks env sc calls s)))
     = List.length (clicks s) + List.length calls.
Proof.
  induction calls as [|[now requestData] calls IH]; intros s u Hids Hfind Hcalls.
  - cbn [recordClicks fst snd map List.length]. split; [reflexivity|]. split; [|lia].
    exists u. split; [assumption|]. lia.
  - destruct (Hcalls now requestData (or_introl eq_refl)) as [Hnow Hvalid].
    destruct (recordClick_counts_one env now sc requestData s u Hids Hfind Hnow Hvalid)
      as (s1 & Hrun & Hids1 & Hfind1 & Hclicks1).
    cbn [recordClicks]. rewrite Hrun.
    specialize (IH s1 _ Hids1 Hfind1).
    destruct IH as (Hresults & (u' & Hfind' & Htotal) & Hlen).
    { intros now' requestData' Hin. destruct u. apply (Hcalls now' requestData'). now right. }
    destruct (recordClicks env sc calls s1) as [rs s2]. cbn [fst snd] in *.
    split; [|split].
    + cbn [map]. f_equal. rewrite Hresults. destruct u; reflexivity.
    + exists u'. split; [assumption|]. rewrite Htotal. destruct u.
      cbn [Url.setClicks Url.totalClicks List.length]. lia.
    + rewrite Hlen, Hclicks1, length_app. cbn [List.length]. lia.
Qed.

(** ** Overlapping calls *)

Lemma setClicks_fields (n : N) (last : option Z) (u : Url.t) :
  Url._id (Url.setClicks n last u) = Url._id u
  /\ Url.originalUrl (Url.setClicks n last u) = Url.originalUrl u
  /\ Url.expiresAt (Url.setClicks n last u) = Url.expiresAt u
  /\ Url.totalClicks (Url.setClicks n last u) = n.
Proof. destruct u. repeat split. Qed.

Lemma setNth_length {A : Type} (l : list A) :
  forall i y, List.length (Concurrent.setNth i y l) = List.length l.
Proof.
  induction l as [|a l IH]; intros [|i] y; cbn [Concurrent.setNth List.length];
    try reflexivity. now rewrite IH.
Qed.

Lemma setNth_count {A : Type} (p : A -> bool) (l : list A) :
  forall i x y,
  nth_error l i = Some x ->
  countIf p (Concurrent.setNth i y l) + (if p x then 1 else 0)
  = countIf p l + (if p y then 1 else 0).
Proof.
  unfold countIf. induction l as [|a l IH]; intros [|i] x y H; cbn [nth_error] in H;
    try discriminate.
  - inversion H; subst. cbn [Concurrent.setNth filter].
    destruct (p x), (p y); cbn [List.length]; lia.
  - cbn [Concurrent.setNth filter]. specialize (IH i x y H).
    destruct (p a); cbn [List.length]; lia.
Qed.

Lemma setNth_Forall {A : Type} (Q : A -> Prop) (l : list A) :
  forall i y, Forall Q l -> Q y -> Forall Q (Concurrent.setNth i y l).
Proof.
  induction l as [|a l IH]; intros [|i] y Hl Hy; cbn [Concurrent.setNth];
    try assumption; inversion Hl; subst; constructor; auto.
Qed.

Lemma goodSnapshot_mono (u0 : Url.t) (w w' : nat) (url : Url.t) :
  (w <= w')%nat -> goodSnapshot u0 w url -> goodSnapshot u0 w' url.
Proof. unfold goodSnapshot. intros Hw (H1 & H2 & H3 & H4). repeat split; try assumption; lia. Qed.

Lemma goodThread_mono (env : Env) (sc : string) (u0 : Url.t) (w w' : nat)
  (t : Concurrent.Thread) :
  (w <= w')%nat -> goodThread env sc u0 w t -> goodThread env sc u0 w' t.
Proof.
  intros Hw. destruct t; cbn [goodThread]; try tauto.
  - intros [H1 H2]. split; [now apply (goodSnapshot_mono u0 w w')|assumption].
  - now apply goodSnapshot_mono.
Qed.

(** A step of a thread keeps the invariant. *)
Lemma step_invariant (env : Env) (sc : string) (u0 : Url.t) (s0 : State)
  (ts : list Concurrent.Thread) (s : State) (i : nat) (now : Z) (t : Concurrent.Thread) :
  invariant env sc u0 s0 ts s ->
  nth_error ts i = Some t ->
  (now <= Url.expiresAt u0)%Z ->
  invariant env sc u0 s0
    (Concurrent.setNth i (fst (Concurrent.step env now t s)) ts)
    (snd (Concurrent.step env now t s)).
Proof.
  unfold invariant. cbv zeta. intros (Hstore & Hthreads & Hclicks) Hnth Hnow.
  set (w := countIf Concurrent.settled ts) in *.
  assert (Ht : goodThread env sc u0 w t).
  { rewrite Forall_forall in Hthreads. apply Hthreads. eapply nth_error_In; eassumption. }
  destruct Hstore as (Hids & u & Hfind & Hexpires & Hsnap & Hfloor).
  destruct t as [sc' requestData|url|url clickData|url|r]; cbn [goodThread] in Ht.
  - destruct Ht as [-> Hvalid]. cbn [Concurrent.step]. rewrite Hfind.
    assert (Hlive : Url.isExpired now u = false).
    { unfold Url.isExpired. apply Z.ltb_ge. lia. }
    rewrite Hlive. cbn [fst snd].
    pose proof (setNth_count Concurrent.settled ts i _
                  (Concurrent.Saving u (UrlService.parseRequestData env sc requestData)) Hnth)
      as Hw.
    pose proof (setNth_count clickSaved ts i _
                  (Concurrent.Saving u (UrlService.parseRequestData env sc requestData)) Hnth)
      as Hc.
    cbn [Concurrent.settled clickSaved] in Hw, Hc. rewrite !Nat.add_0_r in Hw, Hc.
    rewrite Hw, Hc. fold w. split; [|split; [|assumption]].
    + split; [assumption|]. exists u. repeat split; try assumption; apply Hsnap.
    + apply setNth_Forall; [assumption|]. cbn [goodThread]. now split.
  - contradiction.
  - destruct Ht as [Hurl Hvalid]. cbn [Concurrent.step]. unfold saveNewClick.
    rewrite Hvalid. cbn [fst snd].
    pose proof (setNth_count Concurrent.settled ts i _ (Concurrent.Incrementing url) Hnth)
      as Hw.
    pose proof (setNth_count clickSaved ts i _ (Concurrent.Incrementing url) Hnth) as Hc.
    cbn [Concurrent.settled clickSaved] in Hw, Hc. rewrite !Nat.add_0_r in Hw.
    rewrite Hw. fold w. unfold withClick. cbn [urls clicks]. split; [|split].
    + split; [assumption|]. exists u. repeat split; try assumption; apply Hsnap.
    + apply setNth_Forall; assumption.
    + rewrite length_app. cbn [List.length]. lia.
  - cbn [Concurrent.step]. unfold incrementClicks.
    destruct Ht as (Hid & Horiginal & Hlow & Hhigh).
    destruct (findOneActive_some _ _ _ Hfind) as (Hin & _ & _).
    assert (Hex : existsb (fun v => (Url._id v =? Url._id url)%nat) (urls s) = true).
    { apply existsb_exists. exists u. split; [assumption|].
      apply Nat.eqb_eq. destruct Hsnap as (Hu & _). congruence. }
    rewrite Hex. cbn [fst snd].
    pose proof (setNth_count Concurrent.settled ts i _
                  (Concurrent.Done (Return (Some (Url.originalUrl url)))) Hnth) as Hw.
    pose proof (setNth_count clickSaved ts i _
                  (Concurrent.Done (Return (Some (Url.originalUrl url)))) Hnth) as Hc.
    cbn [Concurrent.settled clickSaved] in Hw, Hc. rewrite Nat.add_0_r in Hw.
    fold w in Hw. rewrite Hw. unfold setUrls. cbn [urls clicks].
    assert (Hsame : Url._id url = Url._id u) by (destruct Hsnap as (Hu & _); congruence).
    rewrite Hsame. split; [|split].
    + split; [apply uniqueIds_updateOne; [intro v; destruct v; reflexivity|assumption]|].
      exists (Url.setClicks (Url.totalClicks url + 1) (Some now) u).
      split; [apply findOneActive_updateOne; try assumption; intro v; destruct v; reflexivity|].
      destruct Hsnap as (Hu1 & Hu2 & _ & _).
      destruct (setClicks_fields (Url.totalClicks url + 1) (Some now) u)
        as (Ef1 & Ef2 & Ef3 & Ef4).
      unfold goodSnapshot. rewrite Ef1, Ef2, Ef3, Ef4.
      split; [assumption|]. split; [|intros _; lia].
      repeat split; try assumption; lia.
    + apply setNth_Forall.
      * eapply Forall_impl; [|exact Hthreads]. intro a. apply goodThread_mono. lia.
      * cbn [goodThread]. now rewrite Horiginal.
    + lia.
  - cbn [Concurrent.step fst snd].
    pose proof (setNth_count Concurrent.settled ts i _ (Concurrent.Done r) Hnth) as Hw.
    pose proof (setNth_count clickSaved ts i _ (Concurrent.Done r) Hnth) as Hc.
    cbn [Concurrent.settled clickSaved] in Hw, Hc.
    assert (Hw' : countIf Concurrent.settled (Concurrent.setNth i (Concurrent.Done r) ts) = w)
      by (unfold w; lia).
    rewrite Hw'. split; [|split].
    + split; [assumption|]. exists u. repeat split; try assumption; apply Hsnap.
    + apply setNth_Forall; assumption.
    + lia.
Qed.

Lemma run_invariant (env : Env) (sc : string) (u0 : Url.t) (s0 : State)
  (schedule : list (nat * Z)) :
  forall ts s,
  invariant env sc u0 s0 ts s ->
  (forall i now, In (i, now) schedule -> (now <= Url.expiresAt u0)%Z) ->
  invariant env sc u0 s0
    (fst (Concurrent.run env schedule ts s)) (snd (Concurrent.run env schedule ts s))
  /\ List.length (fst (Concurrent.run env schedule ts s)) = List.length ts.
Proof.
  induction schedule as [|[i now] schedule IH]; intros ts s Hinv Htimes.
  - cbn [Concurrent.run fst snd]. now split.
  - cbn [Concurrent.run].
    assert (Hrest : forall j t, In (j, t) schedule -> (t <= Url.expiresAt u0)%Z).
    { intros j t Hin. apply (Htimes j t). now right. }
    destruct (nth_error ts i) as [t|] eqn:Hnth; [|now apply IH].
    pose proof (step_invariant env sc u0 s0 ts s i now t Hinv Hnth
                  (Htimes i now (or_introl eq_refl))) as Hstep.
    destruct (Concurrent.step env now t s) as [t' s1]. cbn [fst snd] in Hstep.
    destruct (IH _ _ Hstep Hrest) as [Hfinal Hlen].
    split; [assumption|]. rewrite Hlen. apply setNth_length.
Qed.

Lemma countIf_all {A : Type} (p : A -> bool) (l : list A) :
  forallb p l = true -> countIf p l = List.length l.
Proof.
  unfold countIf. induction l as [|a l IH]; [reflexivity|].
  cbn [forallb filter]. intro H. apply andb_prop in H. destruct H as [Ha Hl].
  rewrite Ha. cbn [List.length]. now rewrite IH.
Qed.

(** However the store operations of the calls interleave, once all calls
    have settled every call has returned the target, every click is stored,
    and the counter has grown by at least 1 and at most the number of
    calls. *)
Lemma run_bounds (env : Env) (sc : string) (u : Url.t) (s : State)
  (requests : list UrlService.RequestData) (schedule : list (nat * Z)) :
  uniqueIds (urls s) ->
  Url.findOneActive (urls s) sc = Some u ->
  (forall requestData,
      In requestData requests ->
      Click.validate (UrlService.parseRequestData env sc requestData) = []) ->
  (forall i now, In (i, now) schedule -> (now <= Url.expiresAt u)%Z) ->
  requests <> [] ->
  let final := Concurrent.run env schedule (map (Concurrent.Start sc) requests) s in
  forallb Concurrent.settled (fst final) = true ->
  Forall (fun t => t = Concurrent.Done (Return (Some (Url.originalUrl u)))) (fst final)
  /\ List.length (clicks (snd final)) = List.length (clicks s) + List.length requests
  /\ exists u',
      Url.findOneActive (urls (snd final)) sc = Some u'
      /\ (Url.totalClicks u + 1 <= Url.totalClicks u')%N
      /\ (Url.totalClicks u' <= Url.totalClicks u + N.of_nat (List.length requests))%N.
Proof.
  intros Hids Hfind Hvalid Htimes Hsome final Hsettled.
  assert (Hzero : forall p (rs : list UrlService.RequestData),
             (forall sc' r, p (Concurrent.Start sc' r) = false) ->
             countIf p (map (Concurrent.Start sc) rs) = 0).
  { intros p rs Hp. unfold countIf. induction rs as [|r rs IH]; [reflexivity|].
    cbn [map filter]. now rewrite Hp. }
  assert (Hinit : invariant env sc u s (map (Concurrent.Start sc) requests) s).
  { unfold invariant. cbv zeta.
    rewrite !Hzero by reflexivity. split; [|split; [|lia]].
    - split; [assumption|]. exists u. unfold goodSnapshot.
      repeat split; try assumption; lia.
    - rewrite Forall_forall. intros t Hin. apply in_map_iff in Hin.
      destruct Hin as (r & <- & Hr). cbn [goodThread]. split; [reflexivity|now apply Hvalid]. }
  destruct (run_invariant env sc u s schedule _ _ Hinit Htimes) as [Hinv Hlen].
  fold final in Hinv, Hlen. rewrite length_map in Hlen.
  unfold invariant in Hinv. cbv zeta in Hinv.
  rewrite (countIf_all _ _ Hsettled), Hlen in Hinv.
  destruct Hinv as ((_ & u' & Hfind' & _ & Hsnap & Hfloor) & Hthreads & Hclicks).
  assert (Hsaved : countIf clickSaved (fst final) = List.length requests).
  { rewrite <- Hlen. apply countIf_all.
    rewrite forallb_forall in *. intros t Ht. specialize (Hsettled t Ht).
    destruct t; try discriminate. reflexivity. }
  split; [|split].
  - rewrite Forall_forall in *. intros t Ht.
    specialize (Hthreads t Ht). rewrite forallb_forall in Hsettled.
    specialize (Hsettled t Ht). destruct t; try discriminate.
    cbn [goodThread] in Hthreads. now subst.
  - now rewrite Hclicks, Hsaved.
  - exists u'. split; [assumption|]. destruct Hsnap as (_ & _ & _ & Hhigh).
    split; [|assumption]. apply Hfloor.
    destruct requests; [contradiction|cbn [List.length]; lia].
Qed.

(** A call that runs alone is [recordClick]. *)
Lemma runAlone_recordClick (env : Env) (now : Z) (sc : string)
  (requestData : UrlService.RequestData) (s : State) :
  Concurrent.runAlone env now (Concurrent.Start sc requestData) s
  = (Concurrent.Done (fst (UrlService.recordClick env now sc requestData s)),
     snd (UrlService.recordClick env now sc requestData s)).
Proof.
  unfold Concurrent.runAlone. rewrite recordClick_run. cbn [Concurrent.step].
  destruct (Url.findOneActive (urls s) sc) as [url|] eqn:Efind; [|reflexivity].
  destruct (Url.isExpired now url); [reflexivity|].
  cbn [Concurrent.step]. unfold saveNewClick. cbv zeta.
  destruct (Click.validate (UrlService.parseRequestData env sc requestData)) eqn:Ev;
    [|reflexivity].
  cbn [Concurrent.step]. unfold incrementClicks, withClick. cbn [urls].
  apply findOneActive_some in Efind. destruct Efind as (Hin & _ & _).
  assert (Hex : existsb (fun u => (Url._id u =? Url._id url)%nat) (urls s) = true).
  { apply existsb_exists. exists url. split; [assumption|apply Nat.eqb_refl]. }
  rewrite Hex. reflexivity.
Qed.

(** [incrementClicks] writes the counter of the copy it is called on, plus
    one, whatever counter the store holds. *)
Lemma incrementClicks_writes_copy (now : Z) (url : Url.t) (s : State) :
  uniqueIds (urls s) ->
  forall v,
  In v (urls (snd (incrementClicks now url s))) ->
  fst (incrementClicks now url s) = Return tt ->
  Url._id v = Url._id url ->
  Url.totalClicks v = (Url.totalClicks url + 1)%N.
Proof.
  intros Hids v Hin Hrun Hid. unfold incrementClicks in *.
  destruct (existsb _ (urls s)); [|discriminate].
  cbn [snd] in Hin. unfold setUrls in Hin. cbn [urls] in Hin.
  rewrite (updateOne_map _ _ _ Hids) in Hin. apply in_map_iff in Hin.
  destruct Hin as (v0 & Hv & _).
  destruct (Url._id v0 =? Url._id url)%nat eqn:E.
  - subst v. apply setClicks_fields.
  - subst v. apply Nat.eqb_neq in E. contradiction.
Qed.

(** ** The click counter *)

(** C1 (as amended). For calls of [recordClick] on the shortcode of an
    active link, made before its expiry with clicks the schema accepts:
    when the calls run one after another, every call returns the target,
    every click is stored and the counter ends at its initial value plus the
    number of calls. The increment is a read-modify-write of the
    application: [incrementClicks] writes the counter of the copy the call
    has read, plus one. So when the store operations of the calls
    interleave, every call still returns the target and every click is
    stored, but the counter ends no lower than its initial value plus 1
    and no higher than its initial value plus the number of calls. *)
Theorem clicks_counted (env : Env) (sc : string) (u : Url.t) (s : State)
  (calls : list (Z * UrlService.RequestData)) (schedule : list (nat * Z)) :
  uniqueIds (urls s) ->
  Url.findOneActive (urls s) sc = Some u ->
  calls <> [] ->
  (forall now requestData,
      In (now, requestData) calls ->
      (now <= Url.expiresAt u)%Z
      /\ Click.validate (UrlService.parseRequestData env sc requestData) = []) ->
  (forall i now, In (i, now) schedule -> (now <= Url.expiresAt u)%Z) ->
  (let final := recordClicks env sc calls s in
   fst final = map (fun _ => Return (Some (Url.originalUrl u))) calls
   /\ List.length (clicks (snd final)) = List.length (clicks s) + List.length calls
   /\ exists u',
       Url.findOneActive (urls (snd final)) sc = Some u'
       /\ Url.totalClicks u' = (Url.totalClicks u + N.of_nat (List.length calls))%N)
  /\ (let final :=
        Concurrent.run env schedule
          (map (fun call => Concurrent.Start sc (snd call)) calls) s in
      forallb Concurrent.settled (fst final) = true ->
      Forall (fun t => t = Concurrent.Done (Return (Some (Url.originalUrl u)))) (fst final)
      /\ List.length (clicks (snd final)) = List.length (clicks s) + List.length calls
      /\ exists u',
          Url.findOneActive (urls (snd final)) sc = Some u'
          /\ (Url.totalClicks u + 1 <= Url.totalClicks u')%N
          /\ (Url.totalClicks u' <= Url.totalClicks u + N.of_nat (List.length calls))%N)
  /\ (forall now copy st v,
         uniqueIds (urls st) ->
         fst (incrementClicks now copy st) = Return tt ->
         In v (urls (snd (incrementClicks now copy st))) ->
         Url._id v = Url._id copy ->
         Url.totalClicks v = (Url.totalClicks copy + 1)%N).
Proof.
  intros Hids Hfind Hsome Hcalls Htimes. split; [|split].
  - destruct (recordClicks_counts env sc calls s u Hids Hfind Hcalls)
      as (Hresults & Hcounter & Hclicks).
    cbv zeta. repeat split; assumption.
  - cbv zeta. intro Hsettled.
    rewrite <- (map_map snd (Concurrent.Start sc)) in *.
    rewrite <- (length_map snd calls).
    apply (run_bounds env sc u s (map snd calls) schedule); try assumption.
    + intros requestData Hin. apply in_map_iff in Hin.
      destruct Hin as ([now r] & <- & Hin). now apply (Hcalls now r).
    + destruct calls; [contradiction|discriminate].
  - intros now copy st v Hst Hrun Hin Hid.
    now apply (incrementClicks_writes_copy now copy st).
Qed.

Lemma clicks_counted_witness :
  exists u',
    Url.findOneActive
      (urls (snd (recordClicks Sample.env "abc"
                    [(5%Z, Sample.request); (6%Z, Sample.request)] Sample.state))) "abc"
    = Some u'
    /\ Url.totalClicks u' = 2%N.
Proof.
  destruct (clicks_counted Sample.env "abc" Sample.link Sample.state
              [(5%Z, Sample.request); (6%Z, Sample.request)] Sample.alternating)
    as ((_ & _ & Hcounter) & _).
  - repeat constructor; simpl; intuition.
  - reflexivity.
  - discriminate.
  - intros now requestData [H|[H|[]]]; inversion H; subst; split;
      [discriminate|reflexivity|discriminate|reflexivity].
  - intros i now Hin. cbn in Hin.
    repeat (destruct Hin as [Hin|Hin]; [inversion Hin; subst; discriminate|]).
    contradiction.
  - exact Hcounter.
Defined.

(** Two calls whose store operations alternate both read the counter 0 and
    both write 1: both calls return the target and both clicks are stored,
    but the counter ends at 1, not at 2. One after the other, the same calls
    leave 2. *)
Lemma overlapping_clicks_lose_an_update :
  let overlapped :=
    Concurrent.run Sample.env Sample.alternating Sample.twoCalls Sample.state in
  let sequential :=
    Concurrent.run Sample.env Sample.oneByOne Sample.twoCalls Sample.state in
  option_map Url.totalClicks (Url.findOneActive (urls Sample.state) "abc") = Some 0%N
  /\ forallb Concurrent.succeeded (fst overlapped) = true
  /\ List.length (clicks (snd overlapped)) = 2
  /\ option_map Url.totalClicks (Url.findOneActive (urls (snd overlapped)) "abc")
     = Some 1%N
  /\ option_map Url.totalClicks (Url.findOneActive (urls (snd sequential)) "abc")
     = Some 2%N.
Proof. cbv zeta. repeat split; vm_compute; reflexivity. Qed.


(** * Further properties of the code *)

(** ** Grouping *)

Section Groups.
Context {K : Type} (keyEqb : K -> K -> bool) (key : Click.t -> K).
Hypothesis keyEqb_eq : forall a b, keyEqb a b = true <-> a = b.

Lemma group_snoc (l : list Click.t) (c : Click.t) :
  Click.group keyEqb key (l ++ [c]) = Click.addToGroup keyEqb key c (Click.group keyEqb key l).
Proof. unfold Click.group. now rewrite fold_left_app. Qed.

Lemma filter_snoc (p : Click.t -> bool) (l : list Click.t) (c : Click.t) :
  filter p (l ++ [c]) = (filter p l ++ if p c then [c] else [])%list.
Proof. rewrite filter_app. cbn [filter]. destruct (p c); reflexivity. Qed.

(** With distinct keys, a click joins the group of its key or founds a new
    group at the end. *)
Lemma addToGroup_spec (c : Click.t) (gs : list (K * list Click.t)) :
  NoDup (map fst gs) ->
  Click.addToGroup keyEqb key c gs
  = if existsb (fun g => keyEqb (key c) (fst g)) gs
    then map (fun g => if keyEqb (key c) (fst g) then (fst g, snd g ++ [c])%list else g) gs
    else (gs ++ [(key c, [c])])%list.
Proof.
  induction gs as [|[k ms] gs IH]; intro Hnd; [reflexivity|].
  cbn [map fst] in Hnd. inversion Hnd as [|? ? Hnotin Hnd']; subst.
  cbn [Click.addToGroup existsb map fst snd].
  destruct (keyEqb (key c) k) eqn:E; cbn [orb].
  - f_equal. apply keyEqb_eq in E. subst k.
    clear IH Hnd Hnd'. induction gs as [|[k' ms'] gs IH]; [reflexivity|].
    cbn [map fst snd]. destruct (keyEqb (key c) k') eqn:E'.
    + apply keyEqb_eq in E'. exfalso. apply Hnotin. left. now rewrite E'.
    + f_equal. apply IH. intro H. apply Hnotin. now right.
  - rewrite (IH Hnd'). destruct (existsb _ gs); reflexivity.
Qed.

(** The groups of [l] have distinct keys; each holds the clicks of [l] that
    have its key, in their order, and is not empty; every click of [l] has
    its group. *)
Lemma group_spec (l : list Click.t) :
  NoDup (map fst (Click.group keyEqb key l))
  /\ (forall k ms, In (k, ms) (Click.group keyEqb key l) ->
        ms = filter (fun c => keyEqb (key c) k) l /\ ms <> [])
  /\ (forall c, In c l -> In (key c) (map fst (Click.group keyEqb key l))).
Proof.
  induction l as [|c l IH] using rev_ind.
  - cbn. repeat split; try contradiction. constructor.
  - destruct IH as (Hnd & Hmembers & Hcover).
    rewrite group_snoc, (addToGroup_spec c _ Hnd).
    set (gs := Click.group keyEqb key l) in *.
    destruct (existsb (fun g => keyEqb (key c) (fst g)) gs) eqn:Eex.
    + assert (Hkeys : map fst (map (fun g => if keyEqb (key c) (fst g)
                                             then (fst g, (snd g ++ [c])%list) else g) gs)
                      = map fst gs).
      { rewrite map_map. apply map_ext. intros [k ms]. cbn [fst snd].
        destruct (keyEqb (key c) k); reflexivity. }
      rewrite Hkeys. split; [assumption|]. split.
      * intros k ms Hin. apply in_map_iff in Hin. destruct Hin as ([k0 ms0] & Heq & Hin0).
        cbn [fst snd] in Heq. destruct (Hmembers _ _ Hin0) as [Hms0 Hne].
        rewrite filter_snoc.
        destruct (keyEqb (key c) k0) eqn:E; inversion Heq; subst k ms; rewrite E.
        -- split; [now rewrite <- Hms0|]. destruct ms0; discriminate.
        -- rewrite app_nil_r. now split.
      * intros c' Hc'. apply in_app_or in Hc'. destruct Hc' as [Hc'|[<-|[]]].
        -- now apply Hcover.
        -- apply existsb_exists in Eex. destruct Eex as ([k ms] & Hin & E).
           cbn [fst] in E. apply keyEqb_eq in E. rewrite E.
           apply (in_map fst _ _ Hin).
    + assert (Hfresh : ~ In (key c) (map fst gs)).
      { intro Hin. apply in_map_iff in Hin. destruct Hin as (g & Hg & Hin).
        assert (Hex : existsb (fun g => keyEqb (key c) (fst g)) gs = true).
        { apply existsb_exists. exists g. split; [assumption|]. apply keyEqb_eq. now rewrite Hg. }
        congruence. }
      rewrite map_app. cbn [map fst]. split; [|split].
      * apply NoDup_app_remove_l with (l := []). cbn [app].
        apply Permutation_NoDup with (l := key c :: map fst gs).
        -- apply Permutation_cons_append.
        -- now constructor.
      * intros k ms Hin. rewrite filter_snoc.
        apply in_app_or in Hin. destruct Hin as [Hin|[Hin|[]]].
        -- destruct (Hmembers _ _ Hin) as [Hms Hne].
           assert (E : keyEqb (key c) k = false).
           { destruct (keyEqb (key c) k) eqn:E; [|reflexivity].
             apply keyEqb_eq in E. exfalso. apply Hfresh. rewrite E.
             apply (in_map fst _ _ Hin). }
           rewrite E, app_nil_r. now split.
        -- inversion Hin; subst k ms.
           assert (Hnone : filter (fun c0 => keyEqb (key c0) (key c)) l = []).
           { destruct (filter (fun c0 => keyEqb (key c0) (key c)) l) as [|x xs] eqn:Ef;
               [reflexivity|]. exfalso.
             assert (Hx : In x (filter (fun c0 => keyEqb (key c0) (key c)) l))
               by (rewrite Ef; now left).
             apply filter_In in Hx. destruct Hx as [Hxl Hxe].
             apply keyEqb_eq in Hxe. apply Hfresh. rewrite <- Hxe. now apply Hcover. }
           rewrite Hnone. assert (Hrefl : keyEqb (key c) (key c) = true) by now apply keyEqb_eq.
           rewrite Hrefl. split; [reflexivity|discriminate].
      * intros c' Hc'. apply in_or_app. apply in_app_or in Hc'. destruct Hc' as [Hc'|[<-|[]]].
        -- left. now apply Hcover.
        -- right. now left.
Qed.

End Groups.

Lemma addToGroup_total {K : Type} (keyEqb : K -> K -> bool) (key : Click.t -> K)
  (c : Click.t) (gs : list (K * list Click.t)) :
  list_sum (map (fun g => List.length (snd g)) (Click.addToGroup keyEqb key c gs))
  = S (list_sum (map (fun g => List.length (snd g)) gs)).
Proof.
  induction gs as [|[k ms] gs IH]; [reflexivity|].
  cbn [Click.addToGroup]. destruct (keyEqb (key c) k).
  - simpl. rewrite length_app. simpl. lia.
  - cbn [map snd]. change (list_sum (?x :: ?l)) with (x + list_sum l). rewrite IH.
    simpl. lia.
Qed.

(** Every click is in exactly one group. *)
Lemma group_total {K : Type} (keyEqb : K -> K -> bool) (key : Click.t -> K)
  (l : list Click.t) :
  list_sum (map (fun g => List.length (snd g)) (Click.group keyEqb key l)) = List.length l.
Proof.
  induction l as [|c l IH] using rev_ind; [reflexivity|].
  unfold Click.group in *. rewrite fold_left_app. cbn [fold_left].
  rewrite addToGroup_total, IH, length_app. cbn [List.length]. lia.
Qed.

Lemma list_sum_perm (l l' : list nat) : Permutation l l' -> list_sum l = list_sum l'.
Proof. induction 1; simpl; lia. Qed.

Lemma StronglySorted_weaken {A : Type} (R R' : A -> A -> Prop) (l : list A) :
  (forall a b, R a b -> R' a b) -> StronglySorted R l -> StronglySorted R' l.
Proof.
  intros HR Hs. induction Hs as [|x l Hl IH Hall]; constructor; [assumption|].
  eapply Forall_impl; [|exact Hall]. intros b. apply HR.
Qed.

Lemma NoDup_map_firstn {A B : Type} (f : A -> B) (n : nat) (l : list A) :
  NoDup (map f l) -> NoDup (map f (firstn n l)).
Proof.
  revert l. induction n as [|n IH]; intros l Hnd; [constructor|].
  destruct l as [|x l]; [constructor|]. cbn [firstn map] in *.
  inversion Hnd as [|? ? Hnotin Hnd']; subst. constructor; [|now apply IH].
  intro Hin. apply Hnotin. apply in_map_iff in Hin. destruct Hin as (y & Hy & Hin).
  apply in_map_iff. exists y. split; [assumption|].
  rewrite <- (firstn_skipn n l). apply in_or_app. now left.
Qed.

Lemma in_firstn {A : Type} (n : nat) (l : list A) (x : A) : In x (firstn n l) -> In x l.
Proof. intro H. rewrite <- (firstn_skipn n l). apply in_or_app. now left. Qed.

(** What is cut off after the first [n] of a descending sort has no larger
    key than what is kept. *)
Lemma firstn_sortDesc_top {A : Type} (key : A -> Z) (n : nat) (l : list A) (x y : A) :
  In x l ->
  ~ In x (firstn n (Click.sortDesc key l)) ->
  In y (firstn n (Click.sortDesc key l)) ->
  (key x <= key y)%Z.
Proof.
  intros Hx Hout Hy.
  pose proof (sortDesc_sorted key l) as Hsorted.
  assert (Hs : In x (Click.sortDesc key l)).
  { apply (Permutation_in _ (Permutation_sym (sortDesc_perm key l))). exact Hx. }
  rewrite <- (firstn_skipn n (Click.sortDesc key l)) in Hs, Hsorted.
  apply in_app_or in Hs. destruct Hs as [Hs|Hs]; [contradiction|].
  apply (StronglySorted_app_order key _ _ Hsorted y x Hy Hs).
Qed.

Lemma firstn_all_or_full {A : Type} (n : nat) (l : list A) :
  firstn n l = l \/ List.length (firstn n l) = n.
Proof.
  destruct (Nat.le_gt_cases (List.length l) n) as [H|H].
  - left. now apply firstn_all2.
  - right. apply firstn_length_le. lia.
Qed.

(** ** Statistics by referer, device and place *)

(** X1. [getRefererStats] lists at most 20 referers, no referer twice, in
    descending order of their counts; the count of a referer is the number
    of clicks of the shortcode that have it, and is at least 1. A referer of
    a click of the shortcode is left out only when 20 are listed, and then
    none of the listed has a smaller count. *)
Theorem getRefererStats_counts (cs : list Click.t) (sc : string) :
  let stats := Click.getRefererStats cs sc in
  let countOf := fun r => List.length (filter (withReferer r) (Click.matching sc cs)) in
  (List.length stats <= 20)%nat
  /\ StronglySorted (fun a b => (Click.r_count b <= Click.r_count a)%nat) stats
  /\ NoDup (map Click.r_referer stats)
  /\ (forall st, In st stats ->
        Click.r_count st = countOf (Click.r_referer st) /\ (1 <= Click.r_count st)%nat)
  /\ (forall c, In c cs -> Click.shortcode c = sc ->
        In (Click.referer c) (map Click.r_referer stats)
        \/ (List.length stats = 20
            /\ forall st, In st stats -> (countOf (Click.referer c) <= Click.r_count st)%nat)).
Proof.
  cbv zeta. unfold Click.getRefererStats.
  set (l := Click.matching sc cs).
  set (gs := Click.group String.eqb Click.referer l).
  set (stats0 := map (fun g => Click.mkRefererStat (fst g) (List.length (snd g))) gs).
  set (keyf := fun st => Z.of_nat (Click.r_count st)).
  destruct (group_spec String.eqb Click.referer String.eqb_eq l)
    as (Hnd & Hmembers & Hcover). fold gs in Hnd, Hmembers, Hcover.
  assert (Hstat : forall st, In st stats0 ->
             Click.r_count st
             = List.length (filter (withReferer (Click.r_referer st)) l)
             /\ (1 <= Click.r_count st)%nat).
  { intros st Hin. apply in_map_iff in Hin. destruct Hin as ([k ms] & <- & Hin).
    cbn [fst snd Click.r_count Click.r_referer].
    destruct (Hmembers _ _ Hin) as [Hms Hne]. split.
    - now rewrite Hms.
    - destruct ms; [contradiction|cbn [List.length]; lia]. }
  assert (Hkeys : map Click.r_referer stats0 = map fst gs).
  { unfold stats0. rewrite map_map. apply map_ext. intros [k ms]. reflexivity. }
  assert (Hperm : Permutation (Click.sortDesc keyf stats0) stats0) by apply sortDesc_perm.
  split; [|split; [|split; [|split]]].
  - rewrite length_firstn. lia.
  - apply (StronglySorted_weaken (descending keyf)).
    + unfold descending, keyf. intros a b H. lia.
    + apply StronglySorted_firstn. apply sortDesc_sorted.
  - apply NoDup_map_firstn.
    apply (Permutation_NoDup (l := map Click.r_referer stats0)).
    + apply Permutation_map. now apply Permutation_sym.
    + now rewrite Hkeys.
  - intros st Hin. apply Hstat. apply (Permutation_in _ Hperm). now apply in_firstn in Hin.
  - intros c Hc Hsc.
    assert (Hl : In c l).
    { unfold l, Click.matching. apply filter_In. split; [assumption|]. now apply String.eqb_eq. }
    assert (Hlisted : exists st, In st stats0 /\ Click.r_referer st = Click.referer c).
    { specialize (Hcover c Hl). rewrite <- Hkeys in Hcover. apply in_map_iff in Hcover.
      destruct Hcover as (st & Hst & Hin). now exists st. }
    destruct Hlisted as (st0 & Hst0 & Hr0).
    destruct (firstn_all_or_full 20 (Click.sortDesc keyf stats0)) as [Hall|Hfull].
    + left. rewrite Hall. rewrite <- Hr0. apply in_map.
      apply (Permutation_in _ (Permutation_sym Hperm)). exact Hst0.
    + destruct (in_dec string_dec (Click.referer c)
                  (map Click.r_referer (firstn 20 (Click.sortDesc keyf stats0)))) as [Hin|Hout].
      * now left.
      * right. split; [exact Hfull|]. intros st Hst.
        assert (Hle : (keyf st0 <= keyf st)%Z).
        { apply (firstn_sortDesc_top keyf 20 stats0 st0 st Hst0); [|exact Hst].
          intro Hin. apply Hout. rewrite <- Hr0. now apply in_map. }
        unfold keyf in Hle. destruct (Hstat st0 Hst0) as [Hcount _].
        rewrite Hr0 in Hcount. rewrite <- Hcount. lia.
Qed.

Lemma optionEqb_eq (a b : option string) : Click.optionEqb a b = true <-> a = b.
Proof.
  destruct a as [x|], b as [y|]; cbn [Click.optionEqb]; split; intro H;
    try discriminate; try reflexivity.
  - apply String.eqb_eq in H. now subst.
  - inversion H. apply String.eqb_refl.
Qed.

Lemma deviceKey_eq (a b : string * string * string) :
  String.eqb (fst (fst a)) (fst (fst b)) && String.eqb (snd (fst a)) (snd (fst b))
  && String.eqb (snd a) (snd b) = true <-> a = b.
Proof.
  destruct a as [[a1 a2] a3], b as [[b1 b2] b3]. cbn [fst snd].
  rewrite !andb_true_iff, !String.eqb_eq. split.
  - intros [[-> ->] ->]. reflexivity.
  - intro H. inversion H. repeat split.
Qed.

Lemma placeKey_eq (a b : option string * option string) :
  Click.optionEqb (fst a) (fst b) && Click.optionEqb (snd a) (snd b) = true <-> a = b.
Proof.
  destruct a as [a1 a2], b as [b1 b2]. cbn [fst snd].
  rewrite andb_true_iff, !optionEqb_eq. split.
  - intros [-> ->]. reflexivity.
  - intro H. inversion H. split; reflexivity.
Qed.

(** X2. The counts of [getDeviceStats] add up to the number of clicks of the
    shortcode. The devices are listed once each, in descending order of
    their counts; the count of a device is the number of clicks of the
    shortcode with that type, browser and OS, at least 1, and the device of
    every click of the shortcode is listed. *)
Theorem getDeviceStats_counts (cs : list Click.t) (sc : string) :
  let stats := Click.getDeviceStats cs sc in
  list_sum (map Click.s_count stats) = List.length (Click.matching sc cs)
  /\ StronglySorted (fun a b => (Click.s_count b <= Click.s_count a)%nat) stats
  /\ NoDup (map (fun st => (Click.s_type st, Click.s_browser st, Click.s_os st)) stats)
  /\ (forall st, In st stats ->
        Click.s_count st
        = List.length (filter (withDevice (Click.s_type st) (Click.s_browser st)
                                 (Click.s_os st))
                         (Click.matching sc cs))
        /\ (1 <= Click.s_count st)%nat)
  /\ (forall c, In c cs -> Click.shortcode c = sc ->
        exists st, In st stats
                   /\ Click.s_type st = Click.type (Click.device c)
                   /\ Click.s_browser st = Click.browser (Click.device c)
                   /\ Click.s_os st = Click.os (Click.device c)).
Proof.
  cbv zeta. unfold Click.getDeviceStats.
  set (l := Click.matching sc cs).
  set (keyEqb := fun a b : string * string * string =>
                   String.eqb (fst (fst a)) (fst (fst b))
                   && String.eqb (snd (fst a)) (snd (fst b))
                   && String.eqb (snd a) (snd b)).
  set (key := fun c => (Click.type (Click.device c), Click.browser (Click.device c),
                        Click.os (Click.device c))).
  set (gs := Click.group keyEqb key l).
  set (mkStat := fun g : string * string * string * list Click.t =>
                   Click.mkDeviceStat (fst (fst (fst g))) (snd (fst (fst g))) (snd (fst g))
                     (List.length (snd g))).
  set (keyf := fun st => Z.of_nat (Click.s_count st)).
  destruct (group_spec keyEqb key deviceKey_eq l) as (Hnd & Hmembers & Hcover).
  fold gs in Hnd, Hmembers, Hcover.
  assert (Hperm : Permutation (Click.sortDesc keyf (map mkStat gs)) (map mkStat gs))
    by apply sortDesc_perm.
  assert (Hkeys : map (fun st => (Click.s_type st, Click.s_browser st, Click.s_os st))
                    (map mkStat gs) = map fst gs).
  { rewrite map_map. apply map_ext. intros [[[t b] o] ms]. reflexivity. }
  split; [|split; [|split; [|split]]].
  - rewrite (list_sum_perm _ _ (Permutation_map Click.s_count Hperm)), map_map.
    unfold mkStat. cbn [Click.s_count]. apply group_total.
  - apply (StronglySorted_weaken (descending keyf)).
    + unfold descending, keyf. intros a b H. lia.
    + apply sortDesc_sorted.
  - apply (Permutation_NoDup
             (l := map (fun st => (Click.s_type st, Click.s_browser st, Click.s_os st))
                       (map mkStat gs))).
    + apply Permutation_map. now apply Permutation_sym.
    + now rewrite Hkeys.
  - intros st Hin. apply (Permutation_in _ Hperm) in Hin.
    apply in_map_iff in Hin. destruct Hin as ([[[t b] o] ms] & <- & Hin).
    destruct (Hmembers _ _ Hin) as [Hms Hne].
    unfold mkStat. cbn [fst snd Click.s_count Click.s_type Click.s_browser Click.s_os].
    split.
    + rewrite Hms. reflexivity.
    + destruct ms; [contradiction|cbn [List.length]; lia].
  - intros c Hc Hsc.
    assert (Hl : In c l).
    { unfold l, Click.matching. apply filter_In. split; [assumption|]. now apply String.eqb_eq. }
    specialize (Hcover c Hl). rewrite <- Hkeys in Hcover. apply in_map_iff in Hcover.
    destruct Hcover as (st & Hst & Hin). exists st. split.
    + apply (Permutation_in _ (Permutation_sym Hperm)). exact Hin.
    + unfold key in Hst. inversion Hst. repeat split.
Qed.

Lemma maxTimestamp_spec (ms : list Click.t) :
  ms <> [] ->
  (forall c, In c ms -> (Click.timestamp c <= Click.maxTimestamp ms)%Z)
  /\ exists c, In c ms /\ Click.timestamp c = Click.maxTimestamp ms.
Proof.
  destruct ms as [|c0 ms]; [contradiction|]. intros _. cbn [Click.maxTimestamp].
  assert (H : forall l m,
             (m <= fold_left (fun m c' => Z.max m (Click.timestamp c')) l m)%Z
             /\ (forall c, In c l ->
                   (Click.timestamp c
                    <= fold_left (fun m c' => Z.max m (Click.timestamp c')) l m)%Z)
             /\ (fold_left (fun m c' => Z.max m (Click.timestamp c')) l m = m
                 \/ exists c, In c l
                    /\ Click.timestamp c
                       = fold_left (fun m c' => Z.max m (Click.timestamp c')) l m)).
  { induction l as [|c l IH]; intro m; cbn [fold_left].
    - split; [lia|]. split; [contradiction|]. now left.
    - destruct (IH (Z.max m (Click.timestamp c))) as (Hge & Hall & Hattained).
      split; [lia|]. split.
      + intros c' [<-|Hin]; [lia|now apply Hall].
      + destruct Hattained as [Heq|(c' & Hin & Heq)].
        * destruct (Z.max_spec m (Click.timestamp c)) as [[_ Hmax]|[_ Hmax]].
          -- right. exists c. split; [now left|]. rewrite Heq. now rewrite Hmax.
          -- left. now rewrite Heq.
        * right. exists c'. split; [now right|assumption]. }
  destruct (H ms (Click.timestamp c0)) as (Hge & Hall & Hattained). split.
  - intros c [<-|Hin]; [assumption|now apply Hall].
  - destruct Hattained as [Heq|(c & Hin & Heq)].
    + exists c0. split; [now left|now rewrite Heq].
    + exists c. split; [now right|assumption].
Qed.

(** X3. [getLocationStats] lists at most 50 places (country and city), no
    place twice, in descending order of their counts. The count of a place
    is the number of clicks of the shortcode from it, at least 1, and its
    [lastClick] is the timestamp of the most recent of those clicks. *)
Theorem getLocationStats_counts (cs : list Click.t) (sc : string) :
  let stats := Click.getLocationStats cs sc in
  (List.length stats <= 50)%nat
  /\ StronglySorted (fun a b => (Click.l_count b <= Click.l_count a)%nat) stats
  /\ NoDup (map (fun st => (Click.l_country st, Click.l_city st)) stats)
  /\ (forall st, In st stats ->
        let here := filter (withPlace (Click.l_country st) (Click.l_city st))
                      (Click.matching sc cs) in
        Click.l_count st = List.length here
        /\ (1 <= Click.l_count st)%nat
        /\ (forall c, In c here -> (Click.timestamp c <= Click.lastClick st)%Z)
        /\ (exists c, In c here /\ Click.timestamp c = Click.lastClick st)).
Proof.
  cbv zeta. unfold Click.getLocationStats.
  set (l := Click.matching sc cs).
  set (keyEqb := fun a b : option string * option string =>
                   Click.optionEqb (fst a) (fst b) && Click.optionEqb (snd a) (snd b)).
  set (key := fun c => (Click.country (Click.location c), Click.city (Click.location c))).
  set (gs := Click.group keyEqb key l).
  set (mkStat := fun g : option string * option string * list Click.t =>
                   Click.mkLocationStat (fst (fst g)) (snd (fst g))
                     (List.length (snd g)) (Click.maxTimestamp (snd g))).
  set (keyf := fun st => Z.of_nat (Click.l_count st)).
  destruct (group_spec keyEqb key placeKey_eq l) as (Hnd & Hmembers & Hcover).
  fold gs in Hnd, Hmembers, Hcover.
  assert (Hperm : Permutation (Click.sortDesc keyf (map mkStat gs)) (map mkStat gs))
    by apply sortDesc_perm.
  assert (Hkeys : map (fun st => (Click.l_country st, Click.l_city st)) (map mkStat gs)
                  = map fst gs).
  { rewrite map_map. apply map_ext. intros [[a b] ms]. reflexivity. }
  split; [|split; [|split]].
  - rewrite length_firstn. lia.
  - apply (StronglySorted_weaken (descending keyf)).
    + unfold descending, keyf. intros a b H. lia.
    + apply StronglySorted_firstn. apply sortDesc_sorted.
  - apply NoDup_map_firstn.
    apply (Permutation_NoDup
             (l := map (fun st => (Click.l_country st, Click.l_city st)) (map mkStat gs))).
    + apply Permutation_map. now apply Permutation_sym.
    + now rewrite Hkeys.
  - intros st Hin. apply in_firstn in Hin. apply (Permutation_in _ Hperm) in Hin.
    apply in_map_iff in Hin. destruct Hin as ([[a b] ms] & <- & Hin).
    destruct (Hmembers _ _ Hin) as [Hms Hne].
    unfold mkStat.
    cbn [fst snd Click.l_count Click.l_country Click.l_city Click.lastClick].
    assert (Hhere : filter (withPlace a b) l = ms) by (rewrite Hms; reflexivity).
    rewrite Hhere. destruct (maxTimestamp_spec ms Hne) as [Hmax Hattained].
    repeat split; try assumption.
    destruct ms; [contradiction|cbn [List.length]; lia].
Qed.

(** ** Deleting a link *)

Lemma deleteOne_count (sc : string) (us : list Url.t) :
  snd (Url.deleteOne sc us) = if Url.exists_ us sc then 1 else 0.
Proof.
  unfold Url.exists_, Url.holds. induction us as [|u us IH]; [reflexivity|].
  cbn [Url.deleteOne existsb].
  destruct (String.eqb (Url.shortcode u) (JS.trim sc)); [reflexivity|].
  cbn [orb]. destruct (Url.deleteOne sc us) as [rest n]. cbn [snd] in *. exact IH.
Qed.

(** Under the unique index [deleteOne] leaves the links of the other
    shortcodes and nothing else. *)
Lemma deleteOne_unique (sc : string) (us : list Url.t) :
  uniqueShortcodes us ->
  fst (Url.deleteOne sc us)
  = filter (fun u => negb (String.eqb (Url.shortcode u) (JS.trim sc))) us.
Proof.
  unfold uniqueShortcodes. induction us as [|u us IH]; intro Hnd; [reflexivity|].
  cbn [map] in Hnd. inversion Hnd as [|? ? Hnotin Hnd']; subst.
  cbn [Url.deleteOne filter].
  destruct (String.eqb (Url.shortcode u) (JS.trim sc)) eqn:E; cbn [negb].
  - cbn [fst]. apply String.eqb_eq in E. rewrite <- E.
    clear IH Hnd Hnd' E. induction us as [|v us IH]; [reflexivity|].
    cbn [filter]. destruct (String.eqb (Url.shortcode v) (Url.shortcode u)) eqn:E.
    + apply String.eqb_eq in E. exfalso. apply Hnotin. left. assumption.
    + cbn [negb]. f_equal. apply IH. intro H. apply Hnotin. now right.
  - specialize (IH Hnd'). destruct (Url.deleteOne sc us) as [rest n]. cbn [fst] in *.
    now rewrite IH.
Qed.

Lemma deleteUrl_run (sc : string) (s : State) :
  UrlService.deleteUrl sc s
  = (Return (if Url.exists_ (urls s) sc
             then UrlService.mkDeleteResult true (Some 1) None
             else UrlService.mkDeleteResult false None
                    (Some "URL not found or already deleted")),
     mkState (dbConnected s) (fst (Url.deleteOne sc (urls s)))
       (Click.deleteMany sc (clicks s)) (nextId s) (draws s)).
Proof.
  unfold UrlService.deleteUrl. unfold_calls.
  pose proof (deleteOne_count sc (urls s)) as Hcount.
  destruct (Url.deleteOne sc (urls s)) as [us count]. cbn [fst snd] in *. subst count.
  destruct (Url.exists_ (urls s) sc); reflexivity.
Qed.

Lemma exists_in (us : list Url.t) (sc : string) :
  Url.exists_ us sc = true <-> exists u, In u us /\ Url.shortcode u = JS.trim sc.
Proof. unfold Url.exists_. apply holds_in. Qed.

(** X4. [deleteUrl] removes the clicks that are stored under the shortcode
    as it is given, whether or not a link has the shortcode, and keeps all
    other clicks in their order. The link it removes is the one the trimmed
    shortcode finds: with the unique index on shortcodes it removes that
    link and keeps all other links, and it reports success exactly when
    there was such a link. Afterwards the statistics of the shortcode are
    not found and it has no recent clicks. *)
Theorem deleteUrl_cascades (now : Z) (sc : string) (s : State) :
  uniqueShortcodes (urls s) ->
  let r := UrlService.deleteUrl sc s in
  clicks (snd r) = filter (fun c => negb (String.eqb (Click.shortcode c) sc)) (clicks s)
  /\ urls (snd r)
     = filter (fun u => negb (String.eqb (Url.shortcode u) (JS.trim sc))) (urls s)
  /\ (forall c, In c (clicks (snd r)) -> Click.shortcode c <> sc)
  /\ (forall u, In u (urls (snd r)) -> Url.shortcode u <> JS.trim sc)
  /\ (exists result,
         fst r = Return result
         /\ (UrlService.success result = true
             <-> exists u, In u (urls s) /\ Url.shortcode u = JS.trim sc)
         /\ (UrlService.success result = false ->
             UrlService.error result = Some "URL not found or already deleted"))
  /\ fst (UrlService.getUrlStats now sc (snd r)) = Return None
  /\ Click.getClicksByShortcode (clicks (snd r)) sc None = [].
Proof.
  intros Hscs r. subst r. rewrite deleteUrl_run. cbn [fst snd urls clicks].
  rewrite (deleteOne_unique sc (urls s) Hscs). unfold Click.deleteMany.
  assert (Hclicks : forall c,
             In c (filter (fun c => negb (String.eqb (Click.shortcode c) sc)) (clicks s)) ->
             Click.shortcode c <> sc).
  { intros c Hin. apply filter_In in Hin. destruct Hin as [_ H].
    apply negb_true_iff in H. now apply String.eqb_neq. }
  assert (Hurls : forall u,
             In u (filter (fun u => negb (String.eqb (Url.shortcode u) (JS.trim sc)))
                     (urls s)) ->
             Url.shortcode u <> JS.trim sc).
  { intros u Hin. apply filter_In in Hin. destruct Hin as [_ H].
    apply negb_true_iff in H. now apply String.eqb_neq. }
  split; [reflexivity|]. split; [reflexivity|]. split; [exact Hclicks|].
  split; [exact Hurls|]. split; [|split].
  - eexists. split; [reflexivity|]. rewrite <- exists_in.
    destruct (Url.exists_ (urls s) sc); cbn [UrlService.success UrlService.error].
    + split; [split; reflexivity | discriminate].
    + split; [split; discriminate | reflexivity].
  - rewrite getUrlStats_run. cbn [fst urls].
    assert (Hnone : Url.findOne
                      (filter (fun u => negb (String.eqb (Url.shortcode u) (JS.trim sc)))
                         (urls s)) sc
                    = None).
    { apply findOne_none. exact Hurls. }
    now rewrite Hnone.
  - unfold Click.getClicksByShortcode, Click.matching.
    assert (Hnone : filter (fun c => String.eqb (Click.shortcode c) sc)
                      (filter (fun c => negb (String.eqb (Click.shortcode c) sc)) (clicks s))
                    = []).
    { destruct (filter (fun c => String.eqb (Click.shortcode c) sc) _) as [|x xs] eqn:Ef;
        [reflexivity|]. exfalso.
      assert (Hx : In x (x :: xs)) by now left. rewrite <- Ef in Hx.
      apply filter_In in Hx. destruct Hx as [Hin Heq].
      apply String.eqb_eq in Heq. now apply (Hclicks x Hin). }
    rewrite Hnone. reflexivity.
Qed.

(** Called with ["abc "], [deleteUrl] removes the link ["abc"] of the busy
    sample store and leaves its two clicks, which are stored under
    ["abc"]. *)
Lemma deleteUrl_cascades_witness :
  urls (snd (UrlService.deleteUrl "abc " Sample.busy))
  = [Url.setClicks 1 (Some 7%Z) Sample.second]
  /\ List.length (clicks (snd (UrlService.deleteUrl "abc " Sample.busy))) = 3.
Proof.
  pose proof (deleteUrl_cascades 8 "abc " Sample.busy) as H.
  assert (Hscs : uniqueShortcodes (urls Sample.busy)).
  { vm_compute. repeat constructor; simpl; intuition discriminate. }
  specialize (H Hscs). cbv zeta in H. destruct H as (Hclicks & Hurls & _).
  rewrite Hclicks, Hurls. split; reflexivity.
Defined.

Lemma map_updateOne_absorbed {B : Type} (g : Url.t -> B) (id : nat) (f : Url.t -> Url.t)
  (us : list Url.t) :
  (forall v, g (f v) = g v) -> map g (Url.updateOne id f us) = map g us.
Proof.
  intro Hg. induction us as [|u us IH]; [reflexivity|].
  cbn [Url.updateOne]. destruct (Url._id u =? Url._id u)%nat; destruct (Url._id u =? id)%nat;
    cbn [map]; now rewrite ?Hg, ?IH.
Qed.

(** X5. With the database connected and shortcodes unique in the store,
    [DELETE /shorturls/:shortcode] looks for the link of the trimmed
    shortcode. When that link is active and not expired, it answers 200
    and removes the link, and nothing else of the links, together with the
    clicks that are stored under the shortcode as the request gives it.
    When every link of the trimmed shortcode is inactive or expired it
    answers 404, keeps every click and keeps every link, changing at most
    its [isActive] flag: an expired link cannot be deleted. *)
Theorem deleteShortUrl_outcomes (now : Z) (sc : string) (s : State) :
  dbConnected s = true ->
  uniqueShortcodes (urls s) ->
  let r := Server.deleteShortUrl now sc s in
  ((exists u, In u (urls s) /\ Url.shortcode u = JS.trim sc
              /\ Url.isActive u = true /\ Url.isExpired now u = false) ->
   fst r = Some (Server.DeleteJson 200 (Server.DeletedBody "URL deleted successfully" sc))
   /\ urls (snd r)
      = filter (fun u => negb (String.eqb (Url.shortcode u) (JS.trim sc))) (urls s)
   /\ clicks (snd r) = filter (fun c => negb (String.eqb (Click.shortcode c) sc)) (clicks s))
  /\ ((forall u, In u (urls s) -> Url.shortcode u = JS.trim sc ->
                 Url.isActive u = false \/ Url.isExpired now u = true) ->
      fst r = Some (Server.DeleteJson 404
                      (Server.DeleteErrorBody "Short URL not found" "NOT_FOUND"))
      /\ clicks (snd r) = clicks s
      /\ map (Url.setActive false) (urls (snd r)) = map (Url.setActive false) (urls s)).
Proof.
  intros Hdb Hscs r. subst r. unfold Server.deleteShortUrl. rewrite Hdb. cbn [negb].
  rewrite getUrlByShortcode_run. split.
  - intros (u & Hin & Hsc & Hact & Hexp).
    rewrite (findOneActive_unique (urls s) u Hscs Hin sc (eq_sym Hsc)), Hact, Hexp.
    rewrite deleteUrl_run.
    assert (Hex : Url.exists_ (urls s) sc = true).
    { apply exists_in. now exists u. }
    rewrite Hex. cbn [UrlService.success fst snd urls clicks].
    rewrite (deleteOne_unique _ _ Hscs). repeat split.
  - intro Hnone. destruct (Url.findOneActive (urls s) sc) as [u|] eqn:Hfind.
    + apply findOneActive_some in Hfind. destruct Hfind as (Hin & Hsc & Hact).
      destruct (Hnone u Hin Hsc) as [H|H]; [congruence|]. rewrite H.
      cbn [fst snd]. unfold setUrls. cbn [urls clicks]. repeat split.
      apply map_updateOne_absorbed. intro v. apply setActive_twice.
    + cbn [fst snd]. repeat split.
Qed.

(** After its expiry the link ["abc"] of the busy sample store cannot be
    deleted; before, a request for ["abc "] deletes it. *)
Lemma deleteShortUrl_outcomes_witness :
  fst (Server.deleteShortUrl Sample.later "abc" Sample.busy)
  = Some (Server.DeleteJson 404 (Server.DeleteErrorBody "Short URL not found" "NOT_FOUND"))
  /\ fst (Server.deleteShortUrl 8 "abc " Sample.busy)
     = Some (Server.DeleteJson 200 (Server.DeletedBody "URL deleted successfully" "abc ")).
Proof.
  assert (Hscs : uniqueShortcodes (urls Sample.busy)).
  { vm_compute. repeat constructor; simpl; intuition discriminate. }
  split.
  - refine (proj1 (proj2 (deleteShortUrl_outcomes Sample.later "abc" Sample.busy
                            eq_refl Hscs) _)).
    intros u Hin Hsc. right. vm_compute in Hin.
    destruct Hin as [H|[H|[]]]; subst u; [reflexivity|discriminate].
  - refine (proj1 (proj1 (deleteShortUrl_outcomes 8 "abc " Sample.busy eq_refl Hscs) _)).
    eexists. split; [left; reflexivity|]. repeat split.
Defined.

(** ** The store under requests served one at a time *)

Lemma truncate_le (n : Z) (x : Q) : (x <= inject_Z n)%Q -> (JS.truncate x <= n)%Z.
Proof.
  intro H. assert (Hge : (- n <= JS.truncate (- x)%Q)%Z).
  { apply truncate_ge. rewrite inject_Z_opp. lra. }
  destruct x as [p q]. unfold JS.truncate, Qopp in *. cbn [Qnum Qden] in *.
  rewrite Z.quot_opp_l in Hge by lia. lia.
Qed.

Lemma expiryOf_within (now : Z) (v : Q) :
  (v <= 525600)%Q -> (UrlService.expiryOf now v <= now + 525600 * 60000)%Z.
Proof.
  intro Hv. unfold UrlService.expiryOf. apply truncate_le.
  rewrite inject_Z_plus. change (inject_Z (525600 * 60000)) with (31536000000 # 1)%Q.
  generalize (inject_Z now). intro q. lra.
Qed.

(** [trim] leaves a trimmed string as it is. *)
Lemma trimEnd_twice (t : string) : JS.trimEnd (JS.trimEnd t) = JS.trimEnd t.
Proof.
  induction t as [|c t IH]; [reflexivity|]. cbn [JS.trimEnd].
  destruct (JS.trimEnd t) as [|d e] eqn:E.
  - destruct (JS.isSpace c) eqn:Hc; [reflexivity|]. cbn [JS.trimEnd]. now rewrite Hc.
  - cbn [JS.trimEnd] in IH |- *. now rewrite IH.
Qed.

Lemma trimStart_trimEnd (t : string) :
  JS.trimStart t = t -> JS.trimStart (JS.trimEnd t) = JS.trimEnd t.
Proof.
  destruct t as [|c t]; [reflexivity|]. cbn [JS.trimStart JS.trimEnd].
  destruct (JS.isSpace c) eqn:Hc.
  - intro H. exfalso. apply (f_equal String.length) in H.
    assert (Hle : forall u, (String.length (JS.trimStart u) <= String.length u)%nat).
    { induction u as [|x u IHu]; [apply le_n|]. cbn [JS.trimStart].
      destruct (JS.isSpace x); cbn [String.length]; lia. }
    specialize (Hle t). cbn [String.length] in H. lia.
  - intros _. destruct (JS.trimEnd t); cbn [JS.trimStart]; now rewrite Hc.
Qed.

Lemma trimStart_twice (t : string) : JS.trimStart (JS.trimStart t) = JS.trimStart t.
Proof.
  induction t as [|c t IH]; [reflexivity|]. cbn [JS.trimStart].
  destruct (JS.isSpace c) eqn:Hc; [exact IH|]. cbn [JS.trimStart]. now rewrite Hc.
Qed.

Lemma trim_twice (t : string) : JS.trim (JS.trim t) = JS.trim t.
Proof.
  unfold JS.trim. rewrite (trimStart_trimEnd _ (trimStart_twice t)). apply trimEnd_twice.
Qed.

Lemma shortcodeOf_trimmed (i : Url.init) :
  JS.trim (Url.shortcodeOf i) = Url.shortcodeOf i.
Proof.
  unfold Url.shortcodeOf. destruct (Url.i_shortcode i); [apply trim_twice|reflexivity].
Qed.

Lemma NoDup_map_filter {A B : Type} (field : A -> B) (keep : A -> bool) (xs : list A) :
  NoDup (map field xs) -> NoDup (map field (filter keep xs)).
Proof.
  intro Hnd. induction xs as [|a xs IH]; [constructor|].
  cbn [map] in Hnd. inversion Hnd as [|? ? Hnotin Hrest]; subst. cbn [filter].
  destruct (keep a); [|now apply IH]. cbn [map]. constructor; [|now apply IH].
  intro Hin. apply Hnotin. apply in_map_iff in Hin. destruct Hin as (x & Hx & Hin).
  apply filter_In in Hin. apply in_map_iff. exists x. tauto.
Qed.

Lemma filter_filter_implied {A : Type} (p q : A -> bool) (l : list A) :
  (forall x, In x l -> p x = true -> q x = true) ->
  filter p (filter q l) = filter p l.
Proof.
  induction l as [|a l IH]; intro H; [reflexivity|]. cbn [filter].
  assert (IH' : filter p (filter q l) = filter p l).
  { apply IH. intros x Hx. apply H. now right. }
  destruct (q a) eqn:Hq; cbn [filter]; [now rewrite IH'|].
  destruct (p a) eqn:Hp; [|exact IH'].
  rewrite (H a (or_introl eq_refl) Hp) in Hq. discriminate.
Qed.

(** Only the [isActive] flags of the links differ. *)
Lemma consistent_flags (s s' : State) :
  map (Url.setActive false) (urls s') = map (Url.setActive false) (urls s) ->
  clicks s' = clicks s -> nextId s' = nextId s ->
  consistent s -> consistent s'.
Proof.
  intros Hurls Hclicks Hnext ((Hids & Hscs & Hfresh) & Hlinks).
  assert (Hm_ids : map Url._id (urls s') = map Url._id (urls s)).
  { transitivity (map Url._id (map (Url.setActive false) (urls s')));
      [rewrite map_map; reflexivity | rewrite Hurls, map_map; reflexivity]. }
  assert (Hm_scs : map Url.shortcode (urls s') = map Url.shortcode (urls s)).
  { transitivity (map Url.shortcode (map (Url.setActive false) (urls s')));
      [rewrite map_map; reflexivity | rewrite Hurls, map_map; reflexivity]. }
  assert (Hsame : forall u, In u (urls s') ->
            exists v, In v (urls s) /\ Url.setActive false v = Url.setActive false u).
  { intros u Hin. apply (in_map (Url.setActive false)) in Hin. rewrite Hurls in Hin.
    apply in_map_iff in Hin. destruct Hin as (v & Hv & Hin). now exists v. }
  split; [split; [|split]|].
  - unfold uniqueIds. now rewrite Hm_ids.
  - unfold uniqueShortcodes. now rewrite Hm_scs.
  - intros u Hin. destruct (Hsame u Hin) as (v & Hv & Heq). rewrite Hnext.
    change (Url._id u) with (Url._id (Url.setActive false u)). rewrite <- Heq.
    exact (Hfresh v Hv).
  - intros u Hin. destruct (Hsame u Hin) as (v & Hv & Heq). rewrite Hclicks.
    destruct (Hlinks v Hv) as (Hshape & Hcount).
    assert (Hsc : Url.shortcode u = Url.shortcode v).
    { change (Url.shortcode u) with (Url.shortcode (Url.setActive false u)).
      now rewrite <- Heq. }
    assert (Hurl : Url.originalUrl u = Url.originalUrl v).
    { change (Url.originalUrl u) with (Url.originalUrl (Url.setActive false u)).
      now rewrite <- Heq. }
    assert (Hc : Url.createdAt u = Url.createdAt v).
    { change (Url.createdAt u) with (Url.createdAt (Url.setActive false u)).
      now rewrite <- Heq. }
    assert (He : Url.expiresAt u = Url.expiresAt v).
    { change (Url.expiresAt u) with (Url.expiresAt (Url.setActive false u)).
      now rewrite <- Heq. }
    assert (Ht : Url.totalClicks u = Url.totalClicks v).
    { change (Url.totalClicks u) with (Url.totalClicks (Url.setActive false u)).
      now rewrite <- Heq. }
    unfold wellShaped. rewrite Hsc, Hurl, Hc, He, Ht. split; assumption.
Qed.

Lemma cleanupExpired_flags (now : Z) (us : list Url.t) :
  map (Url.setActive false) (fst (Url.cleanupExpired now us)) = map (Url.setActive false) us.
Proof.
  cbn [Url.cleanupExpired fst]. rewrite map_map. apply map_ext. intro u.
  destruct (Url.expiresAt u <? now)%Z; [apply setActive_twice|reflexivity].
Qed.

Lemma getUrlByShortcode_flags (now : Z) (sc : string) (s : State) :
  let s' := snd (UrlService.getUrlByShortcode now sc s) in
  map (Url.setActive false) (urls s') = map (Url.setActive false) (urls s)
  /\ clicks s' = clicks s /\ nextId s' = nextId s /\ dbConnected s' = dbConnected s
  /\ draws s' = draws s.
Proof.
  rewrite getUrlByShortcode_run. destruct (Url.findOneActive (urls s) sc) as [u|];
    [destruct (Url.isExpired now u)|]; cbn [snd]; repeat split.
  unfold setUrls. cbn [urls]. apply map_updateOne_absorbed. intro v. apply setActive_twice.
Qed.

(** A stored click and the increment of the counter of its link. *)
Lemma consistent_click (now : Z) (sc : string) (d : Click.data) (u : Url.t) (s : State) :
  Url.findOneActive (urls s) sc = Some u ->
  Click.d_shortcode d = sc ->
  consistent s ->
  consistent (setUrls (Url.updateOne (Url._id u)
                         (Url.setClicks (Url.totalClicks u + 1) (Some now)) (urls s))
                      (withClick now d s)).
Proof.
  intros Hfind Hd ((Hids & Hscs & Hfresh) & Hlinks).
  apply findOneActive_some in Hfind. destruct Hfind as (Hin & Hsc & _).
  set (f := Url.setClicks (Url.totalClicks u + 1) (Some now)).
  assert (Hm_ids : map Url._id (Url.updateOne (Url._id u) f (urls s)) = map Url._id (urls s)).
  { apply updateOne_ids. reflexivity. }
  assert (Hm_scs : map Url.shortcode (Url.updateOne (Url._id u) f (urls s))
                   = map Url.shortcode (urls s)).
  { apply updateOne_shortcodes. reflexivity. }
  unfold setUrls, withClick. cbn [urls clicks nextId dbConnected draws].
  split; [split; [|split]|]; cbn [urls clicks nextId].
  - unfold uniqueIds. now rewrite Hm_ids.
  - unfold uniqueShortcodes. now rewrite Hm_scs.
  - intros v Hv. apply (in_map Url._id) in Hv. rewrite Hm_ids in Hv.
    apply in_map_iff in Hv. destruct Hv as (w & Hw & Hv). rewrite <- Hw.
    specialize (Hfresh w Hv). lia.
  - intros v Hv. rewrite (updateOne_map _ _ _ Hids) in Hv.
    apply in_map_iff in Hv. destruct Hv as (w & Hw & Hv).
    destruct (Hlinks w Hv) as (Hshape & Hcount).
    unfold resolvingTo in *. rewrite filter_app, length_app. cbn [filter Click.ofData
      Click.shortcode]. rewrite Hd.
    destruct (Url._id w =? Url._id u)%nat eqn:Hid.
    + apply Nat.eqb_eq in Hid.
      assert (w = u) by (apply (NoDup_map_inj Url._id (urls s) Hids); assumption).
      subst w v. split; [exact Hshape|].
      change (Url.shortcode (f u)) with (Url.shortcode u).
      rewrite <- Hsc, String.eqb_refl.
      change (Url.totalClicks (f u)) with (Url.totalClicks u + 1)%N.
      cbn [List.length]. lia.
    + subst v. split; [exact Hshape|]. lia.
Qed.

(** A link and the clicks of a shortcode removed. *)
Lemma consistent_delete (sc : string) (s : State) :
  consistent s ->
  consistent (mkState (dbConnected s) (fst (Url.deleteOne sc (urls s)))
                (Click.deleteMany sc (clicks s)) (nextId s) (draws s)).
Proof.
  intros ((Hids & Hscs & Hfresh) & Hlinks).
  rewrite (deleteOne_unique sc (urls s) Hscs). unfold Click.deleteMany.
  split; [split; [|split]|]; cbn [urls clicks nextId].
  - now apply NoDup_map_filter.
  - now apply NoDup_map_filter.
  - intros u Hu. apply filter_In in Hu. now apply Hfresh.
  - intros u Hu. apply filter_In in Hu. destruct Hu as (Hu & Hne).
    destruct (Hlinks u Hu) as (Hshape & Hcount). split; [exact Hshape|].
    unfold resolvingTo in *. rewrite filter_filter_implied; [exact Hcount|].
    intros c _ Hc. apply String.eqb_eq in Hc.
    apply negb_true_iff. apply String.eqb_neq. intro Heq.
    apply negb_true_iff in Hne. apply String.eqb_neq in Hne. apply Hne.
    now rewrite <- Hc, Heq.
Qed.

(** A new link. *)
Lemma consistent_create (now : Z) (v : Q) (sc : string) (i : Url.init) (pos : nat)
  (s : State) :
  Server.validityOutOfRange v = false ->
  Url.i_expiresAt i = UrlService.expiryOf now v ->
  Url.validate sc i = [] ->
  JS.trim sc = sc ->
  Url.holds (urls s) sc = false ->
  consistent s ->
  consistent (mkState (dbConnected s) (urls s ++ [Url.fresh (nextId s) now sc i])
                (clicks s) (S (nextId s)) pos).
Proof.
  intros Hv He Hvalid Htrim Hnew ((Hids & Hscs & Hfresh) & Hlinks).
  assert (Hnone : forall u, In u (urls s) -> Url.shortcode u <> sc).
  { intros u Hu Heq.
    assert (Url.holds (urls s) sc = true) by (apply holds_in; now exists u). congruence. }
  split; [split; [|split]|]; cbn [urls clicks nextId].
  - unfold uniqueIds. rewrite map_app. cbn [map Url.fresh Url._id].
    apply NoDup_app; [exact Hids|repeat constructor; intros []|].
    intros x Hx [Hy|[]]. subst x. apply in_map_iff in Hx. destruct Hx as (u & Hx & Hu).
    specialize (Hfresh u Hu). lia.
  - unfold uniqueShortcodes. rewrite map_app. cbn [map Url.fresh Url.shortcode].
    apply NoDup_app; [exact Hscs|repeat constructor; intros []|].
    intros x Hx [Hy|[]]. subst x. apply in_map_iff in Hx. destruct Hx as (u & Hx & Hu).
    now apply (Hnone u).
  - intros u Hu. apply in_app_or in Hu. destruct Hu as [Hu|[Hu|[]]].
    + specialize (Hfresh u Hu). lia.
    + subst u. cbn [Url.fresh Url._id]. lia.
  - intros u Hu. apply in_app_or in Hu. destruct Hu as [Hu|[Hu|[]]]; [now apply Hlinks|].
    subst u. cbn [Url.fresh Url.shortcode Url.totalClicks]. split; [|lia].
    unfold wellShaped. cbn [Url.fresh Url.shortcode Url.originalUrl Url.createdAt
      Url.expiresAt]. unfold Url.validate in Hvalid.
    apply app_eq_nil in Hvalid. destruct Hvalid as (Hsc & Hvalid).
    apply app_eq_nil in Hvalid. destruct Hvalid as (Hurl & _).
    unfold Url.validateShortcode in Hsc. unfold Url.validateOriginalUrl in Hurl.
    destruct (String.length sc =? 0)%nat; [discriminate|].
    destruct (String.length sc <? 3)%nat eqn:H3; [discriminate|].
    destruct (20 <? String.length sc)%nat eqn:H20; [discriminate|].
    apply Nat.ltb_ge in H3, H20.
    destruct (String.length (Url.i_originalUrl i) =? 0)%nat; [discriminate|].
    destruct (Url.urlPattern (Url.i_originalUrl i)); [|discriminate].
    apply in_range_positive in Hv. destruct Hv as (Hlo & Hhi). rewrite He.
    pose proof (expiryOf_within now v Hhi).
    repeat split; try assumption; lia.
Qed.

Lemma createShortUrl_keeps (env : Env) (now : Z) (fuel : nat)
  (urlData : UrlService.UrlData) (s s' : State) (r : result UrlService.Created) :
  UrlService.createShortUrl env now fuel urlData s = (r, s') ->
  (forall v, r <> Return v) ->
  urls s' = urls s /\ clicks s' = clicks s /\ nextId s' = nextId s
  /\ dbConnected s' = dbConnected s.
Proof.
  rewrite createShortUrl_run. cbv zeta. intros H Hr.
  destruct (match UrlService.shortcode urlData with
            | Some (String c sc) =>
                match Url.findOneActive (urls s) (String c sc) with
                | Some _ => true
                | None => false
                end
            | _ => false
            end).
  { inversion H; subst. repeat split. }
  destruct (Url.validate _ (initOf now urlData)); [|inversion H; subst; repeat split].
  destruct (Url.preSave fuel (random env) (draws s) (urls s) (initOf now urlData))
    as [[sc pos]|]; [|inversion H; subst; repeat split].
  destruct (Url.holds (urls s) sc); inversion H; subst; [repeat split|].
  exfalso. eapply Hr. reflexivity.
Qed.

Lemma postShortUrls_cases (env : Env) (now : Z) (fuel : nat)
  (body : Server.CreateRequest) (s : State) :
  let r := Server.postShortUrls env now fuel body s in
  (urls (snd r) = urls s /\ clicks (snd r) = clicks s /\ nextId (snd r) = nextId s
   /\ dbConnected (snd r) = dbConnected s
   /\ forall link expiry sc, fst r <> Some (created link expiry sc))
  \/ exists sc pos,
       Server.validityOutOfRange (Server.validityMinutes (Server.validity body)) = false
       /\ Url.validate sc (initOf now (urlDataOf body)) = []
       /\ Url.holds (urls s) sc = false
       /\ JS.trim sc = sc
       /\ r = (Some (created (UrlService.baseUrl env ++ "/" ++ sc)
                       (Url.i_expiresAt (initOf now (urlDataOf body))) sc),
               mkState (dbConnected s)
                 (urls s ++ [Url.fresh (nextId s) now sc (initOf now (urlDataOf body))])
                 (clicks s) (S (nextId s)) pos).
Proof.
  intro r. subst r. unfold Server.postShortUrls.
  destruct (negb (dbConnected s)); [left; repeat split; discriminate|].
  destruct (Server.url body) as [[|c0 u0]|] eqn:Hu; try (left; repeat split; discriminate).
  destruct (negb (Server.isValidUrl env (String c0 u0)));
    [left; repeat split; discriminate|].
  destruct (JS.truthy (Server.shortcode body) && negb (Server.alphanumeric _));
    [left; repeat split; discriminate|].
  destruct (JS.truthy (Server.shortcode body) && _);
    [left; repeat split; discriminate|].
  destruct (Server.validityOutOfRange _) eqn:Hv; [left; repeat split; discriminate|].
  assert (Hdata : UrlService.mkUrlData (String c0 u0)
                    (Some (Server.validityMinutes (Server.validity body)))
                    (Server.shortcode body)
                    (Some (match Server.tags body with Some l => l | None => [] end))
                    (Server.description body) = urlDataOf body).
  { unfold urlDataOf. now rewrite Hu. }
  rewrite Hdata.
  destruct (UrlService.createShortUrl env now fuel (urlDataOf body) s) as [[v|m|] s'] eqn:Hc.
  - right. apply createShortUrl_return in Hc.
    destruct Hc as (sc & pos & _ & Hvalid & Hnew & Hr & Hs' & Hof & _). exists sc, pos.
    subst v s'. repeat split; try assumption.
    rewrite Hof. apply shortcodeOf_trimmed.
  - left. apply createShortUrl_keeps in Hc; [|discriminate].
    destruct (JS.includes m "already exists"); cbn [fst snd];
      (repeat split; try apply Hc; discriminate).
  - left. apply createShortUrl_keeps in Hc; [|discriminate].
    cbn [fst snd]. repeat split; try apply Hc; discriminate.
Qed.

Lemma consistent_post (env : Env) (now : Z) (fuel : nat) (body : Server.CreateRequest)
  (s : State) :
  consistent s -> consistent (snd (Server.postShortUrls env now fuel body s)).
Proof.
  intro H. destruct (postShortUrls_cases env now fuel body s)
    as [(Hurls & Hclicks & Hnext & _)|(sc & pos & Hv & Hvalid & Hnew & Htrim & Hr)].
  - apply (consistent_flags s); [now rewrite Hurls|assumption|assumption|assumption].
  - cbv zeta in Hr. rewrite Hr. cbn [snd].
    apply (consistent_create now (Server.validityMinutes (Server.validity body)));
      try assumption. reflexivity.
Qed.

Lemma consistent_redirect (env : Env) (now : Z) (sc : string) (req : Server.Request)
  (s : State) :
  consistent s -> consistent (snd (Server.redirect env now sc req s)).
Proof.
  intro H. unfold Server.redirect. destruct (negb (dbConnected s)); [exact H|].
  rewrite recordClick_run.
  destruct (Url.findOneActive (urls s) sc) as [u|] eqn:Hfind; [|exact H].
  destruct (Url.isExpired now u).
  - cbn [snd]. apply (consistent_flags s); try reflexivity; [|exact H].
    unfold setUrls. cbn [urls]. apply map_updateOne_absorbed. intro v. apply setActive_twice.
  - cbv zeta. destruct (Click.validate _); [|exact H].
    assert (Hgoal : consistent
              (setUrls (Url.updateOne (Url._id u)
                          (Url.setClicks (Url.totalClicks u + 1) (Some now)) (urls s))
                 (withClick now
                    (UrlService.parseRequestData env sc
                       (UrlService.mkRequestData (Some (Server.getClientIP req))
                          (Server.userAgentHeader req) (Server.refererHeader req))) s))).
    { apply (consistent_click now sc); [exact Hfind|reflexivity|exact H]. }
    destruct (Url.originalUrl u); exact Hgoal.
Qed.

Lemma consistent_delete_handler (now : Z) (sc : string) (s : State) :
  consistent s -> consistent (snd (Server.deleteShortUrl now sc s)).
Proof.
  intro H. unfold Server.deleteShortUrl. destruct (negb (dbConnected s)); [exact H|].
  pose proof (getUrlByShortcode_flags now sc s) as Hflags. cbv zeta in Hflags.
  destruct (UrlService.getUrlByShortcode now sc s) as [[[u|]|m|] s1] eqn:Hget;
    cbn [snd] in Hflags; destruct Hflags as (Hurls & Hclicks & Hnext & _);
    assert (H1 : consistent s1) by (now apply (consistent_flags s)); try exact H1.
  rewrite deleteUrl_run.
  assert (H2 : consistent (mkState (dbConnected s1) (fst (Url.deleteOne sc (urls s1)))
                             (Click.deleteMany sc (clicks s1)) (nextId s1) (draws s1)))
    by now apply consistent_delete.
  destruct (Url.exists_ (urls s1) sc); exact H2.
Qed.

Lemma consistent_sweep (now : Z) (s : State) :
  consistent s -> consistent (Server.sweep now s).
Proof.
  intro H. unfold Server.sweep. destruct (negb (dbConnected s)); [exact H|].
  unfold UrlService.cleanupExpiredUrls. unfold_calls.
  pose proof (cleanupExpired_flags now (urls s)) as Hflags.
  destruct (Url.cleanupExpired now (urls s)) as [us n]. cbn [fst snd] in *.
  now apply (consistent_flags s).
Qed.

Lemma consistent_stats (now : Z) (sc : string) (s : State) :
  consistent s -> consistent (snd (Server.getShortUrlStats now sc s)).
Proof.
  intro H. unfold Server.getShortUrlStats. destruct (negb (dbConnected s)); [exact H|].
  rewrite getUrlStats_run. destruct (option_map _ _); [|exact H].
  cbv zeta. destruct (Server.clickDetails _); exact H.
Qed.

Lemma consistent_empty (b : bool) (n d : nat) : consistent (mkState b [] [] n d).
Proof.
  split; [split; [constructor|split; [constructor|intros u []]]|intros x []].
Qed.

(** X6. A server that serves its requests and runs its sweep one at a
    time keeps a consistent store consistent: [_id]s and shortcodes are
    unique, every link has a trimmed shortcode of 3 to 20 characters, a URL
    that the schema accepts and an expiry no later than a year after its
    creation, and the counter [totalClicks] of every link is at most the
    number of stored clicks that resolve to its shortcode. The empty store
    is consistent. *)
Theorem served_consistent (env : Env) (t0 : Z) (s0 s : State) :
  consistent s0 -> servedFrom env t0 s0 s -> consistent s.
Proof.
  intros H0 Hserved.
  induction Hserved as [|b s _ IH|now fuel body s _ _ IH|now sc s _ _ IH
                        |now sc req s _ _ IH|now sc s _ _ IH|now s _ _ IH].
  - exact H0.
  - now apply (consistent_flags s).
  - now apply consistent_post.
  - now apply consistent_stats.
  - now apply consistent_redirect.
  - now apply consistent_delete_handler.
  - now apply consistent_sweep.
Qed.

(** A link is created, clicked under its shortcode with a trailing space,
    and deleted under its shortcode: the store stays consistent. *)
Lemma served_consistent_witness :
  consistent
    (snd (Server.deleteShortUrl 6 "xyz"
            (snd (Server.redirect Sample.env 5 "xyz " Sample.browser
                    (snd (Server.postShortUrls Sample.env 0 1 Sample.plain
                            (mkState true [] [] 0 0))))))).
Proof.
  apply (served_consistent Sample.env 0 (mkState false [] [] 0 0)).
  - apply consistent_empty.
  - apply served_delete; [lia|]. apply served_redirect; [lia|]. apply served_post; [lia|].
    apply (served_connection Sample.env 0 _ true (mkState false [] [] 0 0)).
    apply served_start.
Defined.

(** ** Listing the links *)

Lemma getAllUrls_run (env : Env) (now : Z) (options : UrlService.Options) (s : State) :
  UrlService.getAllUrls env now options s
  = let p := match UrlService.page options with Some n => n | None => 1 end in
    let lim := match UrlService.limit options with Some n => n | None => 50 end in
    let f := match UrlService.sortBy options with
             | Some x => x
             | None => UrlService.ByCreatedAt
             end in
    let order := match UrlService.sortOrder options with Some x => x | None => "desc" end in
    let inactive := match UrlService.includeInactive options with
                    | Some b => b
                    | None => true
                    end in
    let found := Url.findAll inactive (urls s) in
    if ((p =? 0)%nat && negb (lim =? 0)%nat) then
      (Throw "Failed to get URLs: Skip value must be non-negative", s)
    else
      (Return
         (UrlService.mkListing
            (map (UrlService.withExtras env now)
               (Click.limit lim (skipn ((p - 1) * lim) (UrlService.sorted f order found))))
            (UrlService.mkPagination p (UrlService.pagesOf (List.length found) lim)
               (List.length found)
               (UrlService.beforePage p (UrlService.pagesOf (List.length found) lim))
               (1 <? p)%nat)),
       s).
Proof.
  unfold UrlService.getAllUrls. unfold_calls. cbv zeta.
  destruct ((_ =? 0)%nat && negb (_ =? 0)%nat); reflexivity.
Qed.

Lemma sorted_perm (f : UrlService.SortField) (order : string) (us : list Url.t) :
  Permutation (UrlService.sorted f order us) us.
Proof. unfold UrlService.sorted. destruct (String.eqb order "desc"); apply sortDesc_perm. Qed.

Lemma StronglySorted_skipn {A : Type} (R : A -> A -> Prop) (n : nat) (l : list A) :
  StronglySorted R l -> StronglySorted R (skipn n l).
Proof.
  revert l. induction n as [|n IH]; intros l H; [exact H|].
  destruct l as [|a l]; [constructor|]. cbn [skipn]. apply IH. now inversion H.
Qed.

(** [p < ceil(count / lim)] says that more than [p] pages are needed. *)
Lemma before_last_page (p count lim : nat) :
  (1 <= lim)%nat ->
  (p <? (count + lim - 1) / lim)%nat = (p * lim <? count)%nat.
Proof.
  intro Hlim. destruct (p * lim <? count)%nat eqn:E.
  - apply Nat.ltb_lt in E. apply Nat.ltb_lt.
    assert (S p <= (count + lim - 1) / lim)%nat; [|lia].
    apply Nat.div_le_lower_bound; nia.
  - apply Nat.ltb_ge in E. apply Nat.ltb_ge.
    assert ((count + lim - 1) / lim < S p)%nat; [|lia].
    apply Nat.Div0.div_lt_upper_bound; nia.
Qed.

Lemma firstn_skipn_nil {A : Type} (n k : nat) (l : list A) :
  (1 <= n)%nat -> (firstn n (skipn k l) = [] <-> (List.length l <= k)%nat).
Proof.
  intro Hn. split.
  - intro H. apply (f_equal (@List.length A)) in H.
    rewrite length_firstn, length_skipn in H. cbn [List.length] in H. lia.
  - intro H. rewrite skipn_all2 by exact H. apply firstn_nil.
Qed.

Lemma firstn_then_next {A : Type} (a b : nat) (l : list A) :
  (firstn a l ++ firstn b (skipn a l))%list = firstn (a + b) l.
Proof.
  revert l. induction a as [|a IH]; intro l; [reflexivity|].
  destruct l as [|x l]; [cbn [skipn]; rewrite !firstn_nil; reflexivity|].
  cbn [firstn skipn Nat.add app]. f_equal. apply IH.
Qed.

(** The first [n] pages of [lim] items are the first [n * lim] items. *)
Lemma pages_concat {A B : Type} (g : A -> B) (lim n : nat) (l : list A) :
  flat_map (fun p => map g (firstn lim (skipn ((p - 1) * lim) l))) (seq 1 n)
  = map g (firstn (n * lim) l).
Proof.
  induction n as [|n IH]; [reflexivity|].
  rewrite seq_S, flat_map_app, IH. cbn [flat_map Nat.add]. rewrite app_nil_r.
  replace (S n - 1)%nat with n by lia. rewrite <- map_app. f_equal.
  rewrite firstn_then_next. f_equal. lia.
Qed.

(** X7. For a page [p >= 1] and a limit [lim >= 1], [getAllUrls] returns,
    without a write, the links [(p-1)*lim+1 .. p*lim] of the sorted listing
    (a permutation of the links the filter admits, in descending order of the
    sort key for the order "desc", else ascending), each with its short link
    and with [isExpired] and [timeRemaining] equal to the virtuals of the
    model, so an expired link has no time remaining. [totalCount] is the
    number of links the filter admits, [hasPrevPage] says [p > 1], and
    [hasNextPage] holds exactly when the next page is not empty. *)
Theorem getAllUrls_page (env : Env) (now : Z) (p lim : nat)
  (sortBy : option UrlService.SortField) (sortOrder : option string)
  (includeInactive : option bool) (s : State) :
  (1 <= p)%nat -> (1 <= lim)%nat ->
  let options q := UrlService.mkOptions (Some q) (Some lim) sortBy sortOrder includeInactive in
  let f := match sortBy with Some x => x | None => UrlService.ByCreatedAt end in
  let order := match sortOrder with Some x => x | None => "desc" end in
  let found := if match includeInactive with Some b => b | None => true end
               then urls s else filter Url.isActive (urls s) in
  exists all page next,
    UrlService.getAllUrls env now (options p) s = (Return page, s)
    /\ UrlService.getAllUrls env now (options (S p)) s = (Return next, s)
    /\ Permutation all found
    /\ StronglySorted
         (descending (fun u => if String.eqb order "desc" then UrlService.sortKey f u
                               else (- UrlService.sortKey f u)%Z)) all
    /\ map UrlService.l_url (UrlService.listed page) = firstn lim (skipn ((p - 1) * lim) all)
    /\ (List.length (UrlService.listed page) <= lim)%nat
    /\ (forall x, In x (UrlService.listed page) ->
          UrlService.l_shortLink x
          = UrlService.baseUrl env ++ "/" ++ Url.shortcode (UrlService.l_url x)
          /\ UrlService.l_isExpired x = Url.isExpired now (UrlService.l_url x)
          /\ UrlService.l_timeRemaining x = Url.timeRemaining now (UrlService.l_url x)
          /\ (UrlService.l_isExpired x = true -> UrlService.l_timeRemaining x = 0%Z))
    /\ UrlService.totalCount (UrlService.pagination page) = List.length found
    /\ UrlService.hasPrevPage (UrlService.pagination page) = (1 <? p)%nat
    /\ (UrlService.hasNextPage (UrlService.pagination page) = true
        <-> UrlService.listed next <> []).
Proof.
  intros Hp Hlim options f order found.
  exists (UrlService.sorted f order found). eexists. eexists.
  rewrite !getAllUrls_run. cbv zeta.
  cbn [options UrlService.page UrlService.limit UrlService.sortBy UrlService.sortOrder
         UrlService.includeInactive].
  fold f order. unfold Url.findAll. fold found.
  assert (Hp0 : (p =? 0)%nat = false) by (apply Nat.eqb_neq; lia).
  rewrite Hp0. cbn [Nat.eqb andb].
  split; [reflexivity|]. split; [reflexivity|].
  cbn [UrlService.listed UrlService.pagination UrlService.totalCount UrlService.hasPrevPage
         UrlService.hasNextPage].
  assert (Hlimit : forall l : list Url.t, Click.limit lim l = firstn lim l).
  { intro l. unfold Click.limit. destruct lim; [lia|reflexivity]. }
  rewrite !Hlimit.
  split; [apply sorted_perm|]. split.
  { unfold UrlService.sorted. destruct (String.eqb order "desc"); apply sortDesc_sorted. }
  split.
  { rewrite map_map. cbn [UrlService.withExtras UrlService.l_url]. apply map_id. }
  split.
  { rewrite length_map, length_firstn. lia. }
  split.
  { intros x Hx. apply in_map_iff in Hx. destruct Hx as (u & Hx & _). subst x.
    cbn [UrlService.withExtras UrlService.l_shortLink UrlService.l_isExpired
           UrlService.l_timeRemaining UrlService.l_url].
    unfold Url.isExpired, Url.timeRemaining.
    split; [reflexivity|]. split; [reflexivity|]. split.
    - destruct (now <? Url.expiresAt u)%Z eqn:E1; destruct (0 <? Url.expiresAt u - now)%Z eqn:E2;
        try reflexivity; lia.
    - intro He. destruct (now <? Url.expiresAt u)%Z eqn:E1; [lia|reflexivity]. }
  split; [reflexivity|]. split; [reflexivity|].
  unfold UrlService.pagesOf, UrlService.beforePage. destruct lim as [|lim']; [lia|].
  rewrite before_last_page by lia.
  replace (S p - 1)%nat with p by lia.
  assert (Hlen : List.length (UrlService.sorted f order found) = List.length found).
  { apply Permutation_length, sorted_perm. }
  split.
  - intros H Hnil. apply Nat.ltb_lt in H. apply map_eq_nil in Hnil.
    apply firstn_skipn_nil in Hnil; lia.
  - intro Hne. apply Nat.ltb_lt. destruct (Nat.lt_ge_cases (p * S lim') (List.length found))
      as [Hlt|Hge]; [exact Hlt|]. exfalso. apply Hne.
    assert (Hnil : firstn (S lim') (skipn (p * S lim') (UrlService.sorted f order found)) = []).
    { apply firstn_skipn_nil; lia. }
    now rewrite Hnil.
Qed.

Lemma getAllUrls_page_witness :
  exists page,
    UrlService.getAllUrls Sample.env 8 (UrlService.mkOptions (Some 2) (Some 1) None None None)
      Sample.busy = (Return page, Sample.busy)
    /\ map (fun x => Url.shortcode (UrlService.l_url x)) (UrlService.listed page) = ["def"]
    /\ UrlService.hasNextPage (UrlService.pagination page) = false.
Proof.
  destruct (getAllUrls_page Sample.env 8 2 1 None None None Sample.busy)
    as (all & page & next & Hpage & _); [lia|lia|].
  exists page. split; [exact Hpage|].
  vm_compute in Hpage. inversion Hpage. split; reflexivity.
Defined.

(** Where the keys of the elements differ, a list has one arrangement in
    descending order. *)
Lemma descending_unique {A : Type} (key : A -> Z) (ordered : list A) :
  (forall x y, In x ordered -> In y ordered -> key x = key y -> x = y) ->
  StronglySorted (descending key) ordered ->
  forall other, Permutation other ordered -> StronglySorted (descending key) other ->
                other = ordered.
Proof.
  intros Hinj Hsorted. induction Hsorted as [|a ordered Hrest IH Hall];
    intros other Hperm Hother.
  - now apply Permutation_nil, Permutation_sym.
  - destruct other as [|b other].
    + apply Permutation_nil in Hperm. discriminate.
    + inversion Hother as [|? ? Hother' Hall']; subst.
      rewrite Forall_forall in Hall, Hall'.
      assert (Hb : In b (a :: ordered)).
      { apply (Permutation_in _ Hperm). now left. }
      assert (Ha : In a (b :: other)).
      { apply (Permutation_in _ (Permutation_sym Hperm)). now left. }
      assert (Hba : (key b <= key a)%Z).
      { destruct Hb as [<-|Hb]; [lia|exact (Hall b Hb)]. }
      assert (Hab : (key a <= key b)%Z).
      { destruct Ha as [<-|Ha]; [lia|exact (Hall' a Ha)]. }
      assert (b = a).
      { apply Hinj; [exact Hb|now left|lia]. }
      subst b. f_equal. apply IH.
      * intros x y Hx Hy. apply Hinj; now right.
      * now apply Permutation_cons_inv with a.
      * exact Hother'.
Qed.

(** X8. For a limit [lim >= 1] and admitted links whose sort keys differ
    from one another, so that the sorted listing is the only arrangement of
    them in the order asked for, the pages 1 to [totalPages] of
    [getAllUrls], one after the other, are the whole sorted listing: every
    link the filter admits is on exactly one page. *)
Theorem getAllUrls_pages_cover (env : Env) (now : Z) (lim n : nat)
  (sortBy : option UrlService.SortField) (sortOrder : option string)
  (includeInactive : option bool) (s : State) :
  (1 <= lim)%nat ->
  let options q := UrlService.mkOptions (Some q) (Some lim) sortBy sortOrder includeInactive in
  let f := match sortBy with Some x => x | None => UrlService.ByCreatedAt end in
  let order := match sortOrder with Some x => x | None => "desc" end in
  let found := if match includeInactive with Some b => b | None => true end
               then urls s else filter Url.isActive (urls s) in
  let listedOn q :=
    match fst (UrlService.getAllUrls env now (options q) s) with
    | Return page => UrlService.listed page
    | _ => []
    end in
  let key u := if String.eqb order "desc" then UrlService.sortKey f u
               else (- UrlService.sortKey f u)%Z in
  NoDup (map (UrlService.sortKey f) found) ->
  UrlService.pagesOf (List.length found) lim = UrlService.Finite n ->
  flat_map listedOn (seq 1 n)
  = map (UrlService.withExtras env now) (UrlService.sorted f order found)
  /\ Permutation (map UrlService.l_url (flat_map listedOn (seq 1 n))) found
  /\ (forall all,
        Permutation all found -> StronglySorted (descending key) all ->
        all = UrlService.sorted f order found).
Proof.
  intros Hlim options f order found listedOn key Hkeys Hpages.
  assert (Hcover : flat_map listedOn (seq 1 n)
                   = map (UrlService.withExtras env now) (UrlService.sorted f order found)).
  { transitivity
      (flat_map (fun q => map (UrlService.withExtras env now)
                            (firstn lim (skipn ((q - 1) * lim)
                                           (UrlService.sorted f order found))))
         (seq 1 n)).
    - rewrite !flat_map_concat_map. f_equal. apply map_ext_in. intros q Hq.
      apply in_seq in Hq. unfold listedOn. rewrite getAllUrls_run. cbv zeta.
      cbn [options UrlService.page UrlService.limit UrlService.sortBy UrlService.sortOrder
             UrlService.includeInactive].
      assert (Hq0 : (q =? 0)%nat = false) by (apply Nat.eqb_neq; lia).
      rewrite Hq0. cbn [andb fst UrlService.listed]. unfold Click.limit.
      destruct lim; [lia|reflexivity].
    - rewrite pages_concat. f_equal. apply firstn_all2.
      rewrite (Permutation_length (sorted_perm f order found)).
      unfold UrlService.pagesOf in Hpages. destruct lim as [|lim']; [lia|].
      assert (Hn : (List.length found + S lim' - 1) / S lim' = n) by congruence.
      destruct (Nat.le_gt_cases (List.length found) (n * S lim')) as [Hle|Hgt]; [exact Hle|].
      exfalso. pose proof (before_last_page n (List.length found) (S lim')) as Hb.
      rewrite Hn in Hb. rewrite Nat.ltb_irrefl in Hb.
      assert (Ht : (n * S lim' <? List.length found)%nat = true) by (apply Nat.ltb_lt; lia).
      rewrite Ht in Hb. specialize (Hb ltac:(lia)). discriminate. }
  split; [exact Hcover|]. split.
  - rewrite Hcover, map_map.
    cbn [UrlService.withExtras UrlService.l_url]. rewrite map_id. apply sorted_perm.
  - intros all Hperm Hall.
    apply (descending_unique key (UrlService.sorted f order found)).
    + intros x y Hx Hy Hxy.
      apply (NoDup_map_inj (UrlService.sortKey f) found Hkeys).
      * exact (Permutation_in _ (sorted_perm f order found) Hx).
      * exact (Permutation_in _ (sorted_perm f order found) Hy).
      * unfold key in Hxy. destruct (String.eqb order "desc"); lia.
    + unfold UrlService.sorted, key.
      destruct (String.eqb order "desc"); apply sortDesc_sorted.
    + now rewrite (sorted_perm f order found).
    + exact Hall.
Qed.

Lemma getAllUrls_pages_cover_witness :
  map (fun x => Url.shortcode (UrlService.l_url x))
    (flat_map (fun q =>
                 match fst (UrlService.getAllUrls Sample.env 8
                              (UrlService.mkOptions (Some q) (Some 1)
                                 (Some UrlService.ByExpiresAt) None None)
                              Sample.busy) with
                 | Return page => UrlService.listed page
                 | _ => []
                 end) (seq 1 2))
  = ["def"; "abc"].
Proof.
  pose proof (getAllUrls_pages_cover Sample.env 8 1 2 (Some UrlService.ByExpiresAt) None None
                Sample.busy) as H.
  cbv zeta in H.
  assert (Hkeys : NoDup (map (UrlService.sortKey UrlService.ByExpiresAt) (urls Sample.busy))).
  { vm_compute. repeat constructor; simpl; intuition discriminate. }
  specialize (H ltac:(lia) Hkeys eq_refl). destruct H as (H & _).
  rewrite H. reflexivity.
Defined.

(** ** Clicks in a range of dates *)

(** X9. [getClicksByDateRange] returns the stored clicks of the shortcode
    whose timestamp lies between the two dates, both included: each as it
    is stored (the address is not removed), as many as are stored, the most
    recent first. It returns nothing when the start date is after the end
    date. *)
Theorem getClicksByDateRange_in_range (cs : list Click.t) (sc : string)
  (startDate endDate : Z) :
  let r := Click.getClicksByDateRange cs sc startDate endDate in
  (forall c, In c r <-> In c cs /\ Click.shortcode c = sc
                        /\ (startDate <= Click.timestamp c <= endDate)%Z)
  /\ List.length r
     = countIf (fun c => (startDate <=? Click.timestamp c)%Z
                         && (Click.timestamp c <=? endDate)%Z) (Click.matching sc cs)
  /\ StronglySorted (descending Click.timestamp) r
  /\ ((endDate < startDate)%Z -> r = []).
Proof.
  intro r. subst r. unfold Click.getClicksByDateRange.
  set (p := fun c => String.eqb (Click.shortcode c) sc
                     && (startDate <=? Click.timestamp c)%Z
                     && (Click.timestamp c <=? endDate)%Z).
  pose proof (sortDesc_perm Click.timestamp (filter p cs)) as Hperm.
  assert (Hp : forall c, p c = true <-> Click.shortcode c = sc
                                        /\ (startDate <= Click.timestamp c <= endDate)%Z).
  { intro c. unfold p. rewrite !andb_true_iff, String.eqb_eq, !Z.leb_le. tauto. }
  split; [|split; [|split]].
  - intro c. split.
    + intro Hin. apply (Permutation_in _ Hperm) in Hin. apply filter_In in Hin.
      destruct Hin as (Hin & Hpc). apply Hp in Hpc. tauto.
    + intros (Hin & Hrange). apply (Permutation_in _ (Permutation_sym Hperm)).
      apply filter_In. split; [exact Hin|]. now apply Hp.
  - rewrite (Permutation_length Hperm). unfold countIf, Click.matching. f_equal.
    clear Hperm Hp. induction cs as [|c cs IH]; [reflexivity|]. cbn [filter]. unfold p at 1.
    destruct (String.eqb (Click.shortcode c) sc); cbn [andb filter]; [|exact IH].
    destruct ((startDate <=? Click.timestamp c)%Z && (Click.timestamp c <=? endDate)%Z);
      now rewrite IH.
  - apply sortDesc_sorted.
  - intro Hrev. assert (Hnil : filter p cs = []).
    { destruct (filter p cs) as [|c l] eqn:Ef; [reflexivity|]. exfalso.
      assert (Hc : In c (filter p cs)) by (rewrite Ef; now left).
      apply filter_In in Hc. destruct Hc as (_ & Hc). apply Hp in Hc. lia. }
    now rewrite Hnil.
Qed.

(** ** The sweep and the lookups *)

Lemma sweep_run (now : Z) (s : State) :
  dbConnected s = true ->
  Server.sweep now s
  = setUrls (map (fun u => if (Url.expiresAt u <? now)%Z then Url.setActive false u else u)
               (urls s)) s.
Proof.
  intro Hdb. unfold Server.sweep. rewrite Hdb. cbn [negb].
  unfold UrlService.cleanupExpiredUrls. unfold_calls. reflexivity.
Qed.

Lemma find_all_false {A : Type} (p : A -> bool) (l : list A) :
  (forall x, In x l -> p x = false) -> find p l = None.
Proof.
  induction l as [|a l IH]; intro H; [reflexivity|]. cbn [find].
  rewrite (H a (or_introl eq_refl)). apply IH. intros x Hx. apply H. now right.
Qed.

Lemma findActive_swept (now : Z) (us : list Url.t) :
  Url.findActive now
    (map (fun u => if (Url.expiresAt u <? now)%Z then Url.setActive false u else u) us)
  = Url.findActive now us.
Proof.
  unfold Url.findActive. induction us as [|u us IH]; [reflexivity|].
  cbn [map filter]. rewrite IH.
  destruct (Url.expiresAt u <? now)%Z eqn:E; [|reflexivity].
  cbn [Url.setActive Url.isActive Url.expiresAt andb].
  assert (Hlt : (now <? Url.expiresAt u)%Z = false) by lia.
  rewrite Hlt, andb_false_r. reflexivity.
Qed.

Lemma findOneActive_swept (now : Z) (sc : string) (us : list Url.t) :
  uniqueShortcodes us ->
  Url.findOneActive
    (map (fun u => if (Url.expiresAt u <? now)%Z then Url.setActive false u else u) us) sc
  = match Url.findOneActive us sc with
    | Some u => if Url.isExpired now u then None else Some u
    | None => None
    end.
Proof.
  set (g := fun u => if (Url.expiresAt u <? now)%Z then Url.setActive false u else u).
  assert (Hg : forall u, Url.shortcode (g u) = Url.shortcode u).
  { intro u. unfold g. destruct (Url.expiresAt u <? now)%Z; reflexivity. }
  unfold uniqueShortcodes, Url.findOneActive.
  generalize (JS.trim sc). clear sc. intro sc.
  induction us as [|u us IH]; intro Hscs; [reflexivity|].
  cbn [map] in Hscs. inversion Hscs as [|? ? Hnotin Hnd]; subst.
  cbn [map find]. specialize (IH Hnd). rewrite Hg.
  destruct (String.eqb (Url.shortcode u) sc) eqn:Esc; cbn [andb]; [|exact IH].
  apply String.eqb_eq in Esc.
  assert (Hrest : forall h : Url.t -> Url.t,
             (forall w, Url.shortcode (h w) = Url.shortcode w) ->
             find (fun v => String.eqb (Url.shortcode v) sc && Url.isActive v) (map h us)
             = None).
  { intros h Hh. apply find_all_false. intros v Hv. apply in_map_iff in Hv.
    destruct Hv as (w & Hw & Hin). subst v.
    assert (Hne : String.eqb (Url.shortcode (h w)) sc = false).
    { apply String.eqb_neq. intro Heq. apply Hnotin. apply in_map_iff. exists w.
      split; [|exact Hin]. rewrite Hh in Heq. congruence. }
    now rewrite Hne. }
  pose proof (Hrest g Hg) as Hrest1.
  pose proof (Hrest (fun w => w) (fun w => eq_refl)) as Hrest2. rewrite map_id in Hrest2.
  rewrite Hrest1, Hrest2. unfold g, Url.isExpired.
  destruct (Url.expiresAt u <? now)%Z eqn:E.
  - cbn [Url.setActive Url.isActive]. destruct (Url.isActive u); [now rewrite E|reflexivity].
  - destruct (Url.isActive u); [now rewrite E|reflexivity].
Qed.

(** X10. Once the sweep has run at some time with the database connected,
    no active link is expired at that time, so a lookup by shortcode at that
    time writes nothing; the sweep does not change what [findActive]
    returns, and with unique shortcodes it does not change what a lookup by
    shortcode returns. *)
Theorem sweep_then_lookup (now : Z) (s : State) :
  dbConnected s = true ->
  let s' := Server.sweep now s in
  (forall u, In u (urls s') -> Url.isActive u = true -> Url.isExpired now u = false)
  /\ (forall sc, snd (UrlService.getUrlByShortcode now sc s') = s')
  /\ Url.findActive now (urls s') = Url.findActive now (urls s)
  /\ (uniqueShortcodes (urls s) ->
      forall sc, fst (UrlService.getUrlByShortcode now sc s')
                 = fst (UrlService.getUrlByShortcode now sc s)).
Proof.
  intros Hdb s'. subst s'. rewrite (sweep_run now s Hdb). unfold setUrls. cbn [urls].
  assert (Hswept : forall u,
             In u (map (fun u => if (Url.expiresAt u <? now)%Z
                                 then Url.setActive false u else u) (urls s)) ->
             Url.isActive u = true -> Url.isExpired now u = false).
  { intros u Hu Hact. apply in_map_iff in Hu. destruct Hu as (v & Hv & _). subst u.
    unfold Url.isExpired.
    destruct (Url.expiresAt v <? now)%Z eqn:E; [discriminate|exact E]. }
  split; [exact Hswept|]. split; [|split].
  - intro sc. rewrite getUrlByShortcode_run. cbn [urls].
    destruct (Url.findOneActive _ sc) as [u|] eqn:Hfind; [|reflexivity].
    apply findOneActive_some in Hfind. destruct Hfind as (Hin & _ & Hact).
    now rewrite (Hswept u Hin Hact).
  - apply findActive_swept.
  - intros Hscs sc. rewrite !getUrlByShortcode_run. cbn [urls].
    rewrite (findOneActive_swept now sc (urls s) Hscs).
    destruct (Url.findOneActive (urls s) sc) as [u|]; [|reflexivity].
    destruct (Url.isExpired now u) eqn:E; [reflexivity|]. now rewrite E.
Qed.

Lemma sweep_then_lookup_witness :
  Url.findActive Sample.later (urls (Server.sweep Sample.later Sample.busy))
  = [Url.setClicks 1 (Some 7%Z) Sample.second].
Proof.
  pose proof (sweep_then_lookup Sample.later Sample.busy eq_refl) as H.
  cbv zeta in H. destruct H as (_ & _ & H & _). rewrite H. reflexivity.
Defined.

(** ** What a request to create a link leaves alone *)

(** X11. [POST /shorturls] never changes a click or a stored link and never
    changes the flag of the connection. When it answers with a created link,
    the store has exactly one link more, appended, with the shortcode and
    the expiry of the answer, created at the time of the request, active and
    with no clicks; with any other answer, or none, the links are as they
    were. *)
Theorem postShortUrls_keeps_existing (env : Env) (now : Z) (fuel : nat)
  (body : Server.CreateRequest) (s : State) :
  let r := Server.postShortUrls env now fuel body s in
  clicks (snd r) = clicks s
  /\ dbConnected (snd r) = dbConnected s
  /\ match fst r with
     | Some (Server.Json _ (Server.CreatedBody link expiry sc)) =>
         exists u,
           urls (snd r) = (urls s ++ [u])%list
           /\ Url.shortcode u = sc /\ Url.expiresAt u = expiry
           /\ Url.createdAt u = now /\ Url.isActive u = true
           /\ Url.totalClicks u = 0%N /\ Url.lastClickAt u = None
           /\ link = UrlService.baseUrl env ++ "/" ++ sc
           /\ Url.exists_ (urls s) sc = false
     | _ => urls (snd r) = urls s
     end.
Proof.
  intro r. subst r.
  destruct (postShortUrls_cases env now fuel body s)
    as [(Hurls & Hclicks & _ & Hdb & Hnot)|(sc & pos & _ & _ & Hnew & Htrim & Hr)].
  - split; [exact Hclicks|]. split; [exact Hdb|].
    destruct (fst (Server.postShortUrls env now fuel body s)) as [[status [| link expiry sc |]|]|]
      eqn:Hfst; try exact Hurls.
    exfalso. revert Hfst. unfold Server.postShortUrls.
    repeat match goal with
           | |- context [if ?b then _ else _] => destruct b
           | |- context [match ?x with _ => _ end] => destruct x
           end; cbn [fst]; intro H; try discriminate H;
      injection H as Hstatus _ _ _; subst status;
      now apply (Hnot link expiry sc).
  - cbv zeta in Hr. rewrite Hr. cbn [fst snd clicks dbConnected urls]. unfold created.
    split; [reflexivity|]. split; [reflexivity|].
    eexists. split; [reflexivity|]. cbn [Url.fresh Url.shortcode Url.expiresAt Url.createdAt
      Url.isActive Url.totalClicks Url.lastClickAt]. repeat split.
    unfold Url.exists_. now rewrite Htrim.
Qed.

(** ** The redirect *)

Lemma click_validate_nil (d : Click.data) :
  Click.validate d = [] ->
  JS.truthy (Click.d_ip d) = true
  /\ (String.length (Click.d_userAgent d) <= 1000)%nat
  /\ (String.length (Click.d_referer d) <= 1000)%nat.
Proof.
  unfold Click.validate. intro H.
  apply app_eq_nil in H. destruct H as (_ & H).
  apply app_eq_nil in H. destruct H as (Hip & H).
  apply app_eq_nil in H. destruct H as (Hua & H).
  apply app_eq_nil in H. destruct H as (Href & _).
  unfold Click.validateRequired in Hip. unfold Click.validateMaxlength in Hua, Href.
  destruct (JS.truthy (Click.d_ip d)); [|discriminate].
  destruct (1000 <? String.length (Click.d_userAgent d))%nat eqn:E1; [discriminate|].
  destruct (1000 <? String.length (Click.d_referer d))%nat eqn:E2; [discriminate|].
  apply Nat.ltb_ge in E1, E2. tauto.
Qed.

Lemma getClientIP_truthy (req : Server.Request) :
  JS.truthy (Some (Server.getClientIP req)) = true.
Proof.
  unfold Server.getClientIP.
  destruct (Server.x_forwarded_for req) as [[|? ?]|];
    destruct (Server.remoteAddress req) as [[|? ?]|];
    destruct (Server.req_ip req) as [[|? ?]|]; reflexivity.
Qed.

(** X12. For the shortcode of an active link that has not expired, with the
    database connected: when the [User-Agent] or the [Referer] header of the
    request is longer than 1000 characters, [GET /:shortcode] answers 500
    and writes nothing, so the link does not redirect; otherwise it answers
    with a redirect (302) to the URL of the link, stores one click with the
    time of the request, the address of the client and the two headers
    ("Unknown" and "Direct" when absent), and increments the counter of the
    link. *)
Theorem redirect_outcomes (env : Env) (now : Z) (sc : string) (req : Server.Request)
  (s : State) (u : Url.t) :
  dbConnected s = true ->
  uniqueIds (urls s) ->
  Url.findOneActive (urls s) sc = Some u ->
  Url.isExpired now u = false ->
  sc <> "" ->
  Url.originalUrl u <> "" ->
  let ua := JS.orDefault (Server.userAgentHeader req) "Unknown" in
  let ref := JS.orDefault (Server.refererHeader req) "Direct" in
  let r := Server.redirect env now sc req s in
  if ((1000 <? String.length ua)%nat || (1000 <? String.length ref)%nat)%bool
  then r = (Some Server.internalError, s)
  else
    fst r = Some (Server.Redirect 302 (Url.originalUrl u))
    /\ (exists c,
          clicks (snd r) = (clicks s ++ [c])%list
          /\ Click.shortcode c = sc /\ Click.timestamp c = now
          /\ Click.ip c = Some (Server.getClientIP req)
          /\ Click.userAgent c = ua /\ Click.referer c = ref)
    /\ Url.findOneActive (urls (snd r)) sc
       = Some (Url.setClicks (Url.totalClicks u + 1) (Some now) u).
Proof.
  intros Hdb Hids Hfind Hexp Hsc Hurl ua ref r. subst r.
  unfold Server.redirect. rewrite Hdb. cbn [negb].
  set (requestData := UrlService.mkRequestData (Some (Server.getClientIP req))
                        (Server.userAgentHeader req) (Server.refererHeader req)).
  destruct ((1000 <? String.length ua)%nat || (1000 <? String.length ref)%nat)%bool eqn:Hlong.
  - rewrite recordClick_run, Hfind, Hexp. cbv zeta.
    destruct (Click.validate (UrlService.parseRequestData env sc requestData)) eqn:Hv;
      [|reflexivity].
    exfalso. apply click_validate_nil in Hv. destruct Hv as (_ & Hua & Href).
    cbn [UrlService.parseRequestData Click.d_userAgent Click.d_referer requestData
           UrlService.userAgent UrlService.referer] in Hua, Href.
    apply orb_true_iff in Hlong. destruct Hlong as [H|H]; apply Nat.ltb_lt in H;
      subst ua ref; lia.
  - apply orb_false_elim in Hlong. destruct Hlong as (Hua & Href).
    apply Nat.ltb_ge in Hua, Href.
    assert (Hvalid : Click.validate (UrlService.parseRequestData env sc requestData) = []).
    { apply click_validate_ok; [exact Hsc|apply getClientIP_truthy|exact Hua|exact Href]. }
    assert (Hnow : (now <= Url.expiresAt u)%Z).
    { unfold Url.isExpired in Hexp. lia. }
    destruct (recordClick_counts_one env now sc requestData s u Hids Hfind Hnow Hvalid)
      as (s' & Hrun & _ & Hfind' & Hclicks).
    rewrite Hrun. destruct (Url.originalUrl u) as [|c0 t0] eqn:Hu; [contradiction|].
    cbn [fst snd]. split; [reflexivity|]. split; [|exact Hfind'].
    eexists. split; [exact Hclicks|]. repeat split.
Qed.

Lemma redirect_outcomes_witness :
  fst (Server.redirect Sample.env 8 "abc" Sample.browser Sample.busy)
  = Some (Server.Redirect 302 "https://example.com").
Proof.
  pose proof (redirect_outcomes Sample.env 8 "abc" Sample.browser Sample.busy
                (Url.setClicks 2 (Some 6%Z) Sample.link)) as H.
  assert (Hids : uniqueIds (urls Sample.busy)).
  { vm_compute. repeat constructor; simpl; intuition discriminate. }
  specialize (H eq_refl Hids eq_refl eq_refl ltac:(discriminate) ltac:(discriminate)).
  cbv zeta in H. exact (proj1 H).
Defined.

(** ** A click without an address *)

(** X13. [recordClick] with request data that lacks the address, for the
    shortcode of an active link that has not expired and with headers of at
    most 1000 characters, is rejected with the validation error of the
    [ip] path; no click is stored and the counter is not incremented. The
    redirect handler always supplies an address, "127.0.0.1" when the
    request has none. *)
Theorem recordClick_requires_ip (env : Env) (now : Z) (sc : string)
  (requestData : UrlService.RequestData) (s : State) (u : Url.t) :
  Url.findOneActive (urls s) sc = Some u ->
  Url.isExpired now u = false ->
  sc <> "" ->
  JS.truthy (UrlService.ip requestData) = false ->
  (String.length (JS.orDefault (UrlService.userAgent requestData) "Unknown") <= 1000)%nat ->
  (String.length (JS.orDefault (UrlService.referer requestData) "Direct") <= 1000)%nat ->
  UrlService.recordClick env now sc requestData s
  = (Throw "Failed to record click: Click validation failed: ip: Path `ip` is required.", s)
  /\ Click.location (Click.ofData 0 now (UrlService.parseRequestData env sc requestData))
     = UrlService.localLocation
  /\ forall req, JS.truthy (Some (Server.getClientIP req)) = true.
Proof.
  intros Hfind Hexp Hsc Hip Hua Href.
  split; [|split; [|exact getClientIP_truthy]].
  - rewrite recordClick_run, Hfind, Hexp. cbv zeta.
    assert (Hv : Click.validate (UrlService.parseRequestData env sc requestData)
                 = [("ip", Mongoose.Required)]).
    { unfold Click.validate.
      cbn [UrlService.parseRequestData Click.d_shortcode Click.d_ip Click.d_userAgent
             Click.d_referer Click.d_device].
      unfold Click.validateRequired at 1 2. rewrite Hip.
      assert (Hsc' : JS.truthy (Some sc) = true) by (destruct sc; [contradiction|reflexivity]).
      rewrite Hsc'. unfold Click.validateMaxlength.
      apply Nat.ltb_ge in Hua, Href. rewrite Hua, Href.
      rewrite (parseUserAgent_type (UrlService.userAgent requestData)). reflexivity. }
    rewrite Hv. reflexivity.
  - cbn [UrlService.parseRequestData Click.ofData Click.location Click.d_location].
    destruct (UrlService.ip requestData) as [[|c a]|]; try reflexivity. discriminate.
Qed.

Lemma recordClick_requires_ip_witness :
  fst (UrlService.recordClick Sample.env 8 "abc"
         (UrlService.mkRequestData None (Some "curl/8.0") None) Sample.busy)
  = Throw "Failed to record click: Click validation failed: ip: Path `ip` is required.".
Proof.
  pose proof (recordClick_requires_ip Sample.env 8 "abc"
                (UrlService.mkRequestData None (Some "curl/8.0") None) Sample.busy
                (Url.setClicks 2 (Some 6%Z) Sample.link)) as H.
  specialize (H eq_refl eq_refl ltac:(discriminate) eq_refl ltac:(simpl; lia)
                ltac:(simpl; lia)).
  destruct H as (H & _). now rewrite H.
Defined.

(** ** A shortcode that is taken *)

Lemma postShortUrls_taken (env : Env) (now : Z) (fuel : nat) (body : Server.CreateRequest)
  (s : State) (sc : string) (u : Url.t) :
  passesChecks env body s = true ->
  Server.validityOutOfRange (Server.validityMinutes (Server.validity body)) = false ->
  Server.shortcode body = Some sc ->
  sc <> "" ->
  Url.findOneActive (urls s) sc = Some u ->
  Server.postShortUrls env now fuel body s = (Some shortcodeExists, s).
Proof.
  intros Hchecks Hrange Hsc Hne Hfind.
  assert (Hrun : UrlService.createShortUrl env now fuel (urlDataOf body) s
                 = (Throw "Failed to create short URL: Custom shortcode already exists", s)).
  { rewrite createShortUrl_run. cbv zeta. unfold urlDataOf at 1.
    cbn [UrlService.shortcode]. rewrite Hsc.
    destruct sc as [|c sc']; [contradiction|]. now rewrite Hfind. }
  rewrite (postShortUrls_after_checks _ _ _ _ _ Hchecks), Hrange, Hrun. reflexivity.
Qed.

Lemma validate_shortcode_nonempty (sc : string) (i : Url.init) :
  Url.validate sc i = [] -> sc <> "" /\ Url.i_originalUrl i <> "".
Proof.
  unfold Url.validate. intro H. apply app_eq_nil in H. destruct H as (Hsc & H).
  apply app_eq_nil in H. destruct H as (Hurl & _).
  unfold Url.validateShortcode in Hsc. unfold Url.validateOriginalUrl in Hurl.
  split; intro Heq; [rewrite Heq in Hsc|rewrite Heq in Hurl]; discriminate.
Qed.

(** What an answer 201 says about the two states. *)
Lemma postShortUrls_created_state (env : Env) (now : Z) (fuel : nat)
  (body : Server.CreateRequest) (s s1 : State) (link : string) (expiry : Z) (sc : string) :
  Server.postShortUrls env now fuel body s = (Some (created link expiry sc), s1) ->
  dbConnected s = true
  /\ Url.validate sc (initOf now (urlDataOf body)) = []
  /\ Url.holds (urls s) sc = false
  /\ JS.trim sc = sc
  /\ expiry = Url.i_expiresAt (initOf now (urlDataOf body))
  /\ exists pos,
       s1 = mkState (dbConnected s)
              (urls s ++ [Url.fresh (nextId s) now sc (initOf now (urlDataOf body))])
              (clicks s) (S (nextId s)) pos.
Proof.
  intro Hpost.
  assert (Hdb : dbConnected s = true).
  { destruct (dbConnected s) eqn:E; [reflexivity|].
    unfold Server.postShortUrls in Hpost. rewrite E in Hpost. discriminate. }
  split; [exact Hdb|].
  destruct (postShortUrls_cases env now fuel body s)
    as [(_ & _ & _ & _ & Hnot)|(sc0 & pos & _ & Hvalid & Hnew & Htrim & Hr)].
  - exfalso. apply (Hnot link expiry sc). now rewrite Hpost.
  - cbv zeta in Hr. rewrite Hpost in Hr. unfold created in Hr.
    injection Hr as Hlink Hexpiry Hsc Hs1. subst sc0.
    split; [exact Hvalid|]. split; [exact Hnew|]. split; [exact Htrim|].
    split; [exact Hexpiry|]. now exists pos.
Qed.

(** X14. Once [POST /shorturls] has answered 201 for a shortcode, a later
    request for that custom shortcode that gets past the validation is
    answered 409 SHORTCODE_EXISTS and writes nothing, at any time, also
    after the expiry of the link, as long as the store is as the first
    request left it. *)
Theorem create_twice_conflicts (env : Env) (now : Z) (fuel : nat)
  (body : Server.CreateRequest) (s s1 : State) (link : string) (expiry : Z) (sc : string) :
  Server.postShortUrls env now fuel body s = (Some (created link expiry sc), s1) ->
  forall (now2 : Z) (fuel2 : nat) (body2 : Server.CreateRequest),
    passesChecks env body2 s1 = true ->
    Server.validityOutOfRange (Server.validityMinutes (Server.validity body2)) = false ->
    Server.shortcode body2 = Some sc ->
    Server.postShortUrls env now2 fuel2 body2 s1 = (Some shortcodeExists, s1).
Proof.
  intros Hpost now2 fuel2 body2 Hchecks Hrange Hsc.
  destruct (postShortUrls_created_state _ _ _ _ _ _ _ _ _ Hpost)
    as (_ & Hvalid & Hnew & Htrim & _ & pos & Hs1).
  destruct (validate_shortcode_nonempty _ _ Hvalid) as (Hne & _).
  apply (postShortUrls_taken env now2 fuel2 body2 s1 sc
           (Url.fresh (nextId s) now sc (initOf now (urlDataOf body))));
    try assumption.
  rewrite Hs1. cbn [urls].
  apply (findOneActive_app_fresh (urls s)
           (Url.fresh (nextId s) now sc (initOf now (urlDataOf body))));
    [exact Hnew|reflexivity|exact Htrim].
Qed.

Lemma create_twice_conflicts_witness :
  fst (Server.postShortUrls Sample.env Sample.later 1 Sample.plain
         (snd (Server.postShortUrls Sample.env 0 1 Sample.plain Sample.state)))
  = Some shortcodeExists.
Proof.
  assert (Hpost : Server.postShortUrls Sample.env 0 1 Sample.plain Sample.state
                  = (Some (created "http://localhost:8080/xyz" 1800000 "xyz"),
                     snd (Server.postShortUrls Sample.env 0 1 Sample.plain Sample.state)))
    by (vm_compute; reflexivity).
  rewrite (create_twice_conflicts Sample.env 0 1 Sample.plain Sample.state _ _ _ _ Hpost
             Sample.later 1 Sample.plain); reflexivity.
Defined.

(** ** The shortcode of an expired link *)

Lemma in_map_fields {A B : Type} (g : A -> B) (l l' : list A) (x : A) :
  map g l' = map g l -> In x l -> exists x', In x' l' /\ g x' = g x.
Proof.
  intros Hmap Hin. apply (in_map g) in Hin. rewrite <- Hmap in Hin.
  apply in_map_iff in Hin. destruct Hin as (x' & Hx' & Hin). now exists x'.
Qed.

Lemma expiredLink_fields (sc : string) (t : Z) (s s' : State) :
  map (fun u => (Url.shortcode u, Url.expiresAt u)) (urls s')
  = map (fun u => (Url.shortcode u, Url.expiresAt u)) (urls s) ->
  expiredLink sc t s -> expiredLink sc t s'.
Proof.
  intros Hmap (u & Hin & Hsc & Hexp).
  destruct (in_map_fields _ _ _ u Hmap Hin) as (u' & Hin' & Heq).
  injection Heq as Hsc' Hexp'. exists u'. repeat split; [exact Hin'|congruence|lia].
Qed.

Lemma expiredLink_flags (sc : string) (t : Z) (s s' : State) :
  map (Url.setActive false) (urls s') = map (Url.setActive false) (urls s) ->
  expiredLink sc t s -> expiredLink sc t s'.
Proof.
  intro Hmap. apply expiredLink_fields.
  transitivity (map (fun u => (Url.shortcode u, Url.expiresAt u))
                  (map (Url.setActive false) (urls s'))).
  - rewrite map_map. reflexivity.
  - rewrite Hmap, map_map. reflexivity.
Qed.

(** In a consistent store, a lookup at a time from [t] on does not find
    a link that expired before [t]. *)
Lemma expired_not_served (sc : string) (t now : Z) (s : State) :
  consistent s ->
  expiredLink sc t s -> (t <= now)%Z ->
  match Url.findOneActive (urls s) sc with
  | Some u => Url.isExpired now u = true
  | None => True
  end.
Proof.
  intros ((_ & Hscs & _) & Hlinks) (u & Hin & Hsc & Hexp) Hnow. subst sc.
  destruct (Hlinks u Hin) as ((Htrim & _) & _).
  rewrite (findOneActive_unique _ _ Hscs Hin _ Htrim).
  destruct (Url.isActive u); [|exact I]. unfold Url.isExpired. lia.
Qed.

Lemma expiredLink_step (env : Env) (sc : string) (t : Z) (s : State) :
  consistent s -> expiredLink sc t s ->
  forall now, (t <= now)%Z ->
    (forall fuel body, expiredLink sc t (snd (Server.postShortUrls env now fuel body s)))
    /\ (forall sc', expiredLink sc t (snd (Server.getShortUrlStats now sc' s)))
    /\ (forall sc' req, expiredLink sc t (snd (Server.redirect env now sc' req s)))
    /\ (forall sc', expiredLink sc t (snd (Server.deleteShortUrl now sc' s)))
    /\ expiredLink sc t (Server.sweep now s).
Proof.
  intros Hcons Hlink now Hnow.
  destruct Hcons as ((Hids & Hscs & _) & _).
  split; [|split; [|split; [|split]]].
  - intros fuel body.
    destruct (postShortUrls_cases env now fuel body s)
      as [(Hurls & _)|(sc0 & pos & _ & _ & _ & _ & Hr)].
    + apply (expiredLink_fields sc t s); [now rewrite Hurls|exact Hlink].
    + cbv zeta in Hr. rewrite Hr. cbn [snd]. destruct Hlink as (u & Hin & Hu).
      exists u. split; [cbn [urls]; apply in_or_app; now left|exact Hu].
  - intro sc'. unfold Server.getShortUrlStats. destruct (negb (dbConnected s)); [exact Hlink|].
    rewrite getUrlStats_run. destruct (option_map _ _); [|exact Hlink].
    cbv zeta. destruct (Server.clickDetails _); exact Hlink.
  - intros sc' req. unfold Server.redirect. destruct (negb (dbConnected s)); [exact Hlink|].
    rewrite recordClick_run.
    destruct (Url.findOneActive (urls s) sc') as [u'|]; [|exact Hlink].
    destruct (Url.isExpired now u').
    + cbn [snd]. apply (expiredLink_flags sc t s); [|exact Hlink].
      unfold setUrls. cbn [urls]. apply map_updateOne_absorbed. intro v. apply setActive_twice.
    + cbv zeta. destruct (Click.validate _); [|exact Hlink].
      assert (Hgoal : expiredLink sc t
                (setUrls (Url.updateOne (Url._id u')
                            (Url.setClicks (Url.totalClicks u' + 1) (Some now)) (urls s))
                   (withClick now
                      (UrlService.parseRequestData env sc'
                         (UrlService.mkRequestData (Some (Server.getClientIP req))
                            (Server.userAgentHeader req) (Server.refererHeader req))) s))).
      { apply (expiredLink_fields sc t s); [|exact Hlink].
        unfold setUrls, withClick. cbn [urls]. apply map_updateOne_absorbed. reflexivity. }
      destruct (Url.originalUrl u'); exact Hgoal.
  - intro sc'. unfold Server.deleteShortUrl. destruct (negb (dbConnected s)); [exact Hlink|].
    rewrite getUrlByShortcode_run.
    destruct (Url.findOneActive (urls s) sc') as [u'|] eqn:Hfind; [|exact Hlink].
    destruct (Url.isExpired now u') eqn:Hexp.
    + cbn [snd]. apply (expiredLink_flags sc t s); [|exact Hlink].
      unfold setUrls. cbn [urls]. apply map_updateOne_absorbed. intro v. apply setActive_twice.
    + rewrite deleteUrl_run.
      assert (Hgoal : expiredLink sc t
                (mkState (dbConnected s) (fst (Url.deleteOne sc' (urls s)))
                   (Click.deleteMany sc' (clicks s)) (nextId s) (draws s))).
      { rewrite (deleteOne_unique sc' (urls s) Hscs).
        destruct Hlink as (u & Hin & Hsc & Hlt). exists u. cbn [urls].
        split; [|tauto]. apply filter_In. split; [exact Hin|].
        apply negb_true_iff, String.eqb_neq. intro Heq.
        apply findOneActive_some in Hfind. destruct Hfind as (Hin' & Hsc' & _).
        assert (u = u') by (apply (NoDup_map_inj Url.shortcode (urls s) Hscs); congruence).
        subst u'. unfold Url.isExpired in Hexp. lia. }
      destruct (Url.exists_ (urls s) sc'); exact Hgoal.
  - unfold Server.sweep. destruct (negb (dbConnected s)); [exact Hlink|].
    unfold UrlService.cleanupExpiredUrls. unfold_calls.
    pose proof (cleanupExpired_flags now (urls s)) as Hflags.
    destruct (Url.cleanupExpired now (urls s)) as [us n]. cbn [fst snd] in *.
    now apply (expiredLink_flags sc t s).
Qed.

(** X15. The shortcode of an expired link is lost for good: in a
    consistent store that holds a link of the shortcode that expired before
    [t0], whatever requests are then served one at a time from [t0] on, the
    link stays stored; a redirect for the shortcode and a request to delete
    it are answered 404, and no request to create a link is answered 201
    with that shortcode. *)
Theorem expired_shortcode_is_lost (env : Env) (sc : string) (t0 : Z) (s0 s : State) :
  consistent s0 ->
  expiredLink sc t0 s0 ->
  servedFrom env t0 s0 s ->
  expiredLink sc t0 s
  /\ forall now, (t0 <= now)%Z ->
       (forall fuel body link expiry,
           fst (Server.postShortUrls env now fuel body s) <> Some (created link expiry sc))
       /\ (dbConnected s = true ->
           fst (Server.deleteShortUrl now sc s)
           = Some (Server.DeleteJson 404
                     (Server.DeleteErrorBody "Short URL not found" "NOT_FOUND"))
           /\ forall req,
                fst (Server.redirect env now sc req s)
                = Some (Server.Json 404
                          (Server.ErrorBody "Short URL not found or has expired"
                             "NOT_FOUND"))).
Proof.
  intros Hcons0 Hlink0 Hserved.
  assert (Hinv : consistent s /\ expiredLink sc t0 s).
  { induction Hserved as [|b s _ IH|now fuel body s Hnow _ IH|now sc' s Hnow _ IH
                          |now sc' req s Hnow _ IH|now sc' s Hnow _ IH|now s Hnow _ IH].
    - now split.
    - destruct IH as (Hc & Hl). split; [now apply (consistent_flags s)|].
      now apply (expiredLink_fields sc t0 s).
    - destruct IH as (Hc & Hl). split; [now apply consistent_post|].
      apply (expiredLink_step env sc t0 s Hc Hl now Hnow).
    - destruct IH as (Hc & Hl). split; [now apply consistent_stats|].
      apply (expiredLink_step env sc t0 s Hc Hl now Hnow).
    - destruct IH as (Hc & Hl). split; [now apply consistent_redirect|].
      apply (expiredLink_step env sc t0 s Hc Hl now Hnow).
    - destruct IH as (Hc & Hl). split; [now apply consistent_delete_handler|].
      apply (expiredLink_step env sc t0 s Hc Hl now Hnow).
    - destruct IH as (Hc & Hl). split; [now apply consistent_sweep|].
      apply (expiredLink_step env sc t0 s Hc Hl now Hnow). }
  destruct Hinv as (Hcons & Hlink). split; [exact Hlink|].
  intros now Hnow.
  pose proof (expired_not_served sc t0 now s Hcons Hlink Hnow) as Hnot. split.
  - intros fuel body link expiry Hfst.
    destruct (Server.postShortUrls env now fuel body s) as [r s1] eqn:Hpost.
    cbn [fst] in Hfst. subst r.
    destruct (postShortUrls_created_state _ _ _ _ _ _ _ _ _ Hpost) as (_ & _ & Hnew & _).
    destruct Hlink as (u & Hin & Hsc & _).
    assert (Url.holds (urls s) sc = true) by (apply holds_in; now exists u).
    congruence.
  - intro Hdb. split.
    + unfold Server.deleteShortUrl. rewrite Hdb. cbn [negb]. rewrite getUrlByShortcode_run.
      destruct (Url.findOneActive (urls s) sc) as [u|]; [rewrite Hnot|]; reflexivity.
    + intro req. unfold Server.redirect. rewrite Hdb. cbn [negb]. rewrite recordClick_run.
      destruct (Url.findOneActive (urls s) sc) as [u|]; [rewrite Hnot|]; reflexivity.
Qed.

Lemma expired_shortcode_is_lost_witness :
  fst (Server.deleteShortUrl Sample.later "abc" (Server.sweep Sample.later Sample.state))
  = Some (Server.DeleteJson 404 (Server.DeleteErrorBody "Short URL not found" "NOT_FOUND")).
Proof.
  assert (Hcons : consistent Sample.state).
  { split; [split; [|split]|].
    - repeat constructor; simpl; intuition.
    - repeat constructor; simpl; intuition.
    - intros u [Hu|[]]. subst u. cbn. lia.
    - intros u [Hu|[]]. subst u. split; [|cbn; lia].
      unfold wellShaped. cbn. repeat split; lia. }
  assert (Hlink : expiredLink "abc" Sample.later Sample.state).
  { exists Sample.link. split; [now left|]. split; [reflexivity|reflexivity]. }
  assert (Hserved : servedFrom Sample.env Sample.later Sample.state
                      (Server.sweep Sample.later Sample.state)).
  { apply served_sweep; [reflexivity|apply served_start]. }
  destruct (expired_shortcode_is_lost Sample.env "abc" Sample.later Sample.state _
              Hcons Hlink Hserved) as (_ & H).
  destruct (H Sample.later ltac:(reflexivity)) as (_ & Hdelete).
  exact (proj1 (Hdelete eq_refl)).
Defined.

(** ** From a new link to its statistics *)

(** The click of a request is stored with a location exactly when its
    address is a loopback address or the geographic database knows it. *)
Lemma parseRequestData_hasLocation (env : Env) (sc : string) (id : nat) (now : Z)
  (requestData : UrlService.RequestData) (address : string) :
  UrlService.ip requestData = Some address -> address <> "" ->
  Click.hasLocation
    (Click.excludeIp (Click.ofData id now (UrlService.parseRequestData env sc requestData)))
  = located env address.
Proof.
  intros Hip Hne. unfold Click.hasLocation, located, UrlService.parseRequestData.
  cbn [Click.excludeIp Click.ofData Click.location Click.d_location]. rewrite Hip.
  destruct address as [|c a]; [contradiction|]. cbn [JS.truthy andb].
  destruct (String.eqb (String c a) "127.0.0.1"); [reflexivity|].
  destruct (String.eqb (String c a) "::1"); [reflexivity|].
  cbn [negb andb orb]. destruct (lookup env (String c a)); reflexivity.
Qed.

(** X16. In a consistent store without a click under the shortcode, once
    [POST /shorturls] has answered 201 for a shortcode that the router hands
    to [GET /:shortcode], a first request for the new shortcode, made up to
    the expiry and with headers of at most 1000 characters, is redirected
    (302) to the URL of the request. When the address of that request is a
    loopback address or known to the geographic database, the statistics of
    the shortcode then show that URL, the time of creation and the expiry of
    the answer, a total of one click and one click detail, with the time of
    the click and its referrer ("Direct" when the request had none); for any
    other address the click is stored without a location and the statistics
    are answered 500. *)
Theorem create_click_stats (env : Env) (now : Z) (fuel : nat) (body : Server.CreateRequest)
  (s s1 : State) (link : string) (expiry : Z) (sc : string) (t : Z) (req : Server.Request) :
  consistent s ->
  (forall c, In c (clicks s) -> Click.shortcode c <> sc) ->
  Server.postShortUrls env now fuel body s = (Some (created link expiry sc), s1) ->
  Server.routeGet [sc] = Server.ToRedirect sc ->
  (t <= expiry)%Z ->
  (String.length (JS.orDefault (Server.userAgentHeader req) "Unknown") <= 1000)%nat ->
  (String.length (JS.orDefault (Server.refererHeader req) "Direct") <= 1000)%nat ->
  let r := Server.redirect env t sc req s1 in
  fst r = Some (Server.Redirect 302 (JS.orDefault (Server.url body) ""))
  /\ forall t' : Z,
       if located env (Server.getClientIP req) then
         exists detail locations devices referers,
           Server.getShortUrlStats t' sc (snd r)
           = (Some (Server.Json 200
                      (Server.StatsBody (JS.orDefault (Server.url body) "") now expiry 1
                         [detail] locations devices referers)), snd r)
           /\ Server.cd_timestamp detail = t
           /\ Server.source detail = JS.orDefault (Server.refererHeader req) "Direct"
       else
         Server.getShortUrlStats t' sc (snd r) = (Some Server.internalError, snd r).
Proof.
  intros Hcons Hnoclick Hpost _ Ht Hua Href r. subst r.
  destruct (postShortUrls_created_state _ _ _ _ _ _ _ _ _ Hpost)
    as (Hdb & Hvalid & Hnew & Htrim & Hexpiry & pos & Hs1).
  destruct (validate_shortcode_nonempty _ _ Hvalid) as (Hne & Hurl).
  set (u := Url.fresh (nextId s) now sc (initOf now (urlDataOf body))) in *.
  assert (Hcons1 : consistent s1).
  { replace s1 with (snd (Server.postShortUrls env now fuel body s)) by now rewrite Hpost.
    now apply consistent_post. }
  assert (Hfind1 : Url.findOneActive (urls s1) sc = Some u).
  { rewrite Hs1. cbn [urls].
    apply (findOneActive_app_fresh (urls s) u); [exact Hnew|reflexivity|exact Htrim]. }
  assert (Hdb1 : dbConnected s1 = true) by (rewrite Hs1; exact Hdb).
  set (requestData := UrlService.mkRequestData (Some (Server.getClientIP req))
                        (Server.userAgentHeader req) (Server.refererHeader req)).
  assert (Hclick : Click.validate (UrlService.parseRequestData env sc requestData) = []).
  { apply click_validate_ok; [exact Hne|apply getClientIP_truthy|exact Hua|exact Href]. }
  assert (Hlive : (t <= Url.expiresAt u)%Z).
  { cbn [u Url.fresh Url.expiresAt]. rewrite <- Hexpiry. exact Ht. }
  pose proof Hcons1 as ((Hids1 & _) & _).
  destruct (recordClick_counts_one env t sc requestData s1 u Hids1 Hfind1 Hlive Hclick)
    as (s2 & Hrun & _ & Hfind2 & Hclicks2).
  assert (Hredirect : Server.redirect env t sc req s1
                      = (Some (Server.Redirect 302 (JS.orDefault (Server.url body) "")), s2)).
  { unfold Server.redirect. rewrite Hdb1. cbn [negb]. fold requestData. rewrite Hrun.
    change (Url.originalUrl u) with (JS.orDefault (Server.url body) "").
    change (Url.i_originalUrl (initOf now (urlDataOf body)))
      with (JS.orDefault (Server.url body) "") in Hurl.
    destruct (JS.orDefault (Server.url body) ""); [contradiction|reflexivity]. }
  assert (Hcons2 : consistent s2).
  { replace s2 with (snd (Server.redirect env t sc req s1)) by now rewrite Hredirect.
    now apply consistent_redirect. }
  rewrite Hredirect. cbn [fst snd]. split; [reflexivity|]. intro t'.
  assert (Hdb2 : dbConnected s2 = true).
  { rewrite recordClick_run, Hfind1 in Hrun.
    assert (Hexp : Url.isExpired t u = false) by (unfold Url.isExpired; lia).
    rewrite Hexp in Hrun. cbv zeta in Hrun. fold requestData in Hrun. rewrite Hclick in Hrun.
    injection Hrun as Hs2. rewrite <- Hs2. exact Hdb1. }
  apply findOneActive_some in Hfind2. destruct Hfind2 as (Hin2 & Hsc2 & _).
  destruct Hcons2 as ((_ & Hscs2 & _) & _).
  pose proof (findOne_unique (urls s2) _ Hscs2 Hin2 sc (eq_sym Hsc2)) as Hone.
  assert (Hnone : Click.matching sc (clicks s) = []).
  { destruct (Click.matching sc (clicks s)) as [|c cs] eqn:Hm; [reflexivity|]. exfalso.
    assert (Hc : In c (Click.matching sc (clicks s))) by (rewrite Hm; now left).
    apply filter_In in Hc. destruct Hc as (Hc & Heq). apply String.eqb_eq in Heq.
    now apply (Hnoclick c Hc). }
  assert (Hrecent : Click.getClicksByShortcode (clicks s2) sc (Some 100)
                    = [Click.excludeIp
                         (Click.ofData (nextId s1) t
                            (UrlService.parseRequestData env sc requestData))]).
  { rewrite Hclicks2. unfold Click.getClicksByShortcode, Click.matching.
    rewrite filter_app. fold (Click.matching sc (clicks s1)).
    assert (Hsame : clicks s1 = clicks s) by (rewrite Hs1; reflexivity).
    rewrite Hsame, Hnone. cbn [app filter Click.ofData Click.shortcode
      UrlService.parseRequestData Click.d_shortcode]. rewrite String.eqb_refl. reflexivity. }
  assert (Haddress : Server.getClientIP req <> "").
  { pose proof (getClientIP_truthy req) as H. intro Heq. rewrite Heq in H. discriminate. }
  rewrite (getShortUrlStats_run t' sc s2 Hdb2), Hone, Hrecent.
  cbn [Server.clickDetails]. unfold Server.clickDetail.
  rewrite (parseRequestData_hasLocation env sc (nextId s1) t requestData
             (Server.getClientIP req) eq_refl Haddress).
  destruct (located env (Server.getClientIP req)); [|reflexivity].
  eexists. eexists. eexists. eexists.
  split; [|split].
  - destruct (setClicks_fields (Url.totalClicks u + 1) (Some t) u) as (_ & Hu1 & Hu2 & Hu3).
    subst expiry. reflexivity.
  - reflexivity.
  - reflexivity.
Qed.

(** The geographic database of the sample knows no address: after the
    redirect, the statistics of the new link are answered 500. *)
Lemma create_click_stats_witness :
  fst (Server.redirect Sample.env 5 "xyz" Sample.browser
         (snd (Server.postShortUrls Sample.env 0 1 Sample.plain (mkState true [] [] 0 0))))
  = Some (Server.Redirect 302 "https://example.com")
  /\ fst (Server.getShortUrlStats 6 "xyz"
            (snd (Server.redirect Sample.env 5 "xyz" Sample.browser
                    (snd (Server.postShortUrls Sample.env 0 1 Sample.plain
                            (mkState true [] [] 0 0))))))
     = Some Server.internalError.
Proof.
  assert (Hpost : Server.postShortUrls Sample.env 0 1 Sample.plain (mkState true [] [] 0 0)
                  = (Some (created "http://localhost:8080/xyz" 1800000 "xyz"),
                     snd (Server.postShortUrls Sample.env 0 1 Sample.plain
                            (mkState true [] [] 0 0))))
    by (vm_compute; reflexivity).
  pose proof (create_click_stats Sample.env 0 1 Sample.plain (mkState true [] [] 0 0) _ _ _ _
                5 Sample.browser (consistent_empty true 0 0) (fun c (H : In c []) => match H with end)
                Hpost eq_refl) as H.
  specialize (H ltac:(lia) ltac:(simpl; lia) ltac:(simpl; lia)).
  cbv zeta in H. destruct H as (Hredirect & Hstats). split; [exact Hredirect|].
  specialize (Hstats 6%Z).
  change (located Sample.env (Server.getClientIP Sample.browser)) with false in Hstats.
  now rewrite Hstats.
Defined.

(** ** The generator of shortcodes *)

(** X17. The loop of the pre-save hook returns the first candidate that no
    stored link has: it returns the candidate of round [k], having made
    [7 * (k + 1)] draws, exactly when round [k] is within the fuel, its
    candidate is not stored and the candidates of all earlier rounds are. *)
Theorem generateUnique_first_fresh (fuel : nat) (rnd : nat -> Q) (us : list Url.t)
  (pos : nat) (sc : string) (pos' : nat) :
  Url.generateUnique fuel rnd pos us = Some (sc, pos')
  <-> exists k,
        (k < fuel)%nat
        /\ sc = Url.generateRandomShortcode rnd (pos + 7 * k)
        /\ pos' = (pos + 7 * (k + 1))%nat
        /\ Url.exists_ us sc = false
        /\ forall j, (j < k)%nat ->
             Url.exists_ us (Url.generateRandomShortcode rnd (pos + 7 * j)) = true.
Proof.
  revert pos. induction fuel as [|fuel IH]; intro pos.
  - cbn [Url.generateUnique]. split; [discriminate|]. intros (k & Hk & _). lia.
  - cbn [Url.generateUnique].
    destruct (Url.exists_ us (Url.generateRandomShortcode rnd pos)) eqn:E.
    + rewrite IH. split.
      * intros (k & Hk & Hsc & Hpos & Hfresh & Hearlier). exists (S k).
        split; [lia|]. split; [rewrite Hsc; f_equal; lia|]. split; [lia|].
        split; [exact Hfresh|]. intros [|j] Hj.
        -- now rewrite Nat.mul_0_r, Nat.add_0_r.
        -- rewrite <- (Hearlier j) by lia. f_equal. f_equal. lia.
      * intros (k & Hk & Hsc & Hpos & Hfresh & Hearlier). destruct k as [|k].
        -- rewrite Nat.mul_0_r, Nat.add_0_r in Hsc. subst sc. congruence.
        -- exists k. split; [lia|]. split; [rewrite Hsc; f_equal; lia|]. split; [lia|].
           split; [exact Hfresh|]. intros j Hj. rewrite <- (Hearlier (S j)) by lia.
           f_equal. f_equal. lia.
    + split.
      * intro H. injection H as Hsc Hpos. exists 0. split; [lia|].
        rewrite Nat.mul_0_r, Nat.add_0_r. split; [now symmetry|]. split; [lia|].
        split; [now rewrite <- Hsc|]. intros j Hj. lia.
      * intros (k & Hk & Hsc & Hpos & Hfresh & Hearlier). destruct k as [|k].
        -- rewrite Nat.mul_0_r, Nat.add_0_r in Hsc. subst sc pos'.
           replace (pos + 7 * (0 + 1))%nat with (pos + 7)%nat by lia. reflexivity.
        -- specialize (Hearlier 0 ltac:(lia)). rewrite Nat.mul_0_r, Nat.add_0_r in Hearlier.
           congruence.
Qed.

(** ** The time remaining on the statistics page *)

Lemma show_starts_with_digit (n : Z) :
  exists c rest, Statistics.show n = String c rest /\ JS.isDigit c = true.
Proof.
  unfold Statistics.show.
  destruct (N.to_uint (Z.to_N n)); eexists; eexists; split; reflexivity.
Qed.

(** X18. [getTimeRemaining] shows "Expired" exactly when the expiry is not
    after the current time. Otherwise it shows the time left rounded down:
    in whole minutes under an hour ("0m" in the last minute), in hours and
    minutes from an hour on, and in days and hours, without the minutes,
    from a day on. *)
Theorem getTimeRemaining_shown (now expiry : Z) :
  let diff := (expiry - now)%Z in
  let r := Statistics.getTimeRemaining now expiry in
  (r = "Expired" <-> (diff <= 0)%Z)
  /\ ((0 < diff < 3600000)%Z ->
      exists m, r = Statistics.show m ++ "m"
                /\ (0 <= m < 60)%Z /\ (m * 60000 <= diff < (m + 1) * 60000)%Z)
  /\ ((3600000 <= diff < 86400000)%Z ->
      exists h m, r = Statistics.show h ++ "h " ++ Statistics.show m ++ "m"
                  /\ (1 <= h < 24)%Z /\ (0 <= m < 60)%Z
                  /\ ((h * 60 + m) * 60000 <= diff < (h * 60 + m + 1) * 60000)%Z)
  /\ ((86400000 <= diff)%Z ->
      exists d h, r = Statistics.show d ++ "d " ++ Statistics.show h ++ "h"
                  /\ (1 <= d)%Z /\ (0 <= h < 24)%Z
                  /\ ((d * 24 + h) * 3600000 <= diff < (d * 24 + h + 1) * 3600000)%Z).
Proof.
  intros diff r. subst r. unfold Statistics.getTimeRemaining. fold diff.
  change (1000 * 60)%Z with 60000%Z.
  set (minutes := (diff / 60000)%Z). set (hours := (minutes / 60)%Z).
  set (days := (hours / 24)%Z).
  assert (Hmin : (0 < diff -> 60000 * minutes <= diff < 60000 * minutes + 60000)%Z).
  { intros _. unfold minutes. pose proof (Z.div_mod diff 60000 ltac:(lia)).
    pose proof (Z.mod_pos_bound diff 60000 ltac:(lia)). lia. }
  assert (Hhours : (60 * hours <= minutes < 60 * hours + 60)%Z).
  { unfold hours. pose proof (Z.div_mod minutes 60 ltac:(lia)).
    pose proof (Z.mod_pos_bound minutes 60 ltac:(lia)). lia. }
  assert (Hdays : (24 * days <= hours < 24 * days + 24)%Z).
  { unfold days. pose proof (Z.div_mod hours 24 ltac:(lia)).
    pose proof (Z.mod_pos_bound hours 24 ltac:(lia)). lia. }
  assert (Hm60 : (minutes mod 60 = minutes - 60 * hours)%Z).
  { unfold hours. pose proof (Z.div_mod minutes 60 ltac:(lia)). lia. }
  assert (Hh24 : (hours mod 24 = hours - 24 * days)%Z).
  { unfold days. pose proof (Z.div_mod hours 24 ltac:(lia)). lia. }
  split; [|split; [|split]].
  - destruct (diff <=? 0)%Z eqn:E; [split; [lia|reflexivity]|].
    split; [|lia]. intro H. exfalso.
    assert (Hno : forall n rest, Statistics.show n ++ rest <> "Expired").
    { intros n rest Heq. destruct (show_starts_with_digit n) as (c & t & Hs & Hc).
      rewrite Hs in Heq. cbn [append] in Heq. injection Heq as Hc' _. subst c. discriminate. }
    destruct (0 <? days)%Z; [now apply Hno in H|].
    destruct (0 <? hours)%Z; now apply Hno in H.
  - intro Hd. assert (E : (diff <=? 0)%Z = false) by lia. rewrite E.
    specialize (Hmin ltac:(lia)).
    assert (E1 : (0 <? days)%Z = false) by lia. assert (E2 : (0 <? hours)%Z = false) by lia.
    rewrite E1, E2. exists minutes. split; [reflexivity|]. lia.
  - intro Hd. assert (E : (diff <=? 0)%Z = false) by lia. rewrite E.
    specialize (Hmin ltac:(lia)).
    assert (E1 : (0 <? days)%Z = false) by lia. assert (E2 : (0 <? hours)%Z = true) by lia.
    rewrite E1, E2, Hm60. exists hours, (minutes - 60 * hours)%Z. split; [reflexivity|]. lia.
  - intro Hd. assert (E : (diff <=? 0)%Z = false) by lia. rewrite E.
    specialize (Hmin ltac:(lia)).
    assert (E1 : (0 <? days)%Z = true) by lia.
    rewrite E1, Hh24. exists days, (hours - 24 * days)%Z. split; [reflexivity|]. lia.
Qed.

(** ** What the click details show *)

(** X19. The click detail that the statistics compute for a click recorded
    from given request data has the time of the click, the referrer of the
    request ("Direct" when it has none) and as location: "Development,
    Local" when the address is missing or a loopback address, and for
    another address that the geographic database knows, the city and the
    country of the address, each "Unknown" when empty. For an address that
    the database does not know there is no detail: the click is stored
    without a location, reading the city of its location throws, and the
    statistics of a shortcode with such a click among its recent clicks are
    not computed. *)
Theorem clickDetail_of_request (env : Env) (sc : string)
  (requestData : UrlService.RequestData) (id : nat) (now : Z) :
  let click := Click.excludeIp
                 (Click.ofData id now (UrlService.parseRequestData env sc requestData)) in
  let detail place :=
    Some (Server.mkClickDetail now (JS.orDefault (UrlService.referer requestData) "Direct")
            place) in
  (JS.truthy (UrlService.ip requestData) = false
   \/ UrlService.ip requestData = Some "127.0.0.1"
   \/ UrlService.ip requestData = Some "::1" ->
   Server.clickDetail click = detail "Development, Local")
  /\ (forall a,
        UrlService.ip requestData = Some a ->
        a <> "" -> a <> "127.0.0.1" -> a <> "::1" ->
        Server.clickDetail click
        = match lookup env a with
          | Some geo =>
              detail (JS.orDefault (Some (Geo.city geo)) "Unknown" ++ ", "
                        ++ JS.orDefault (Some (Geo.country geo)) "Unknown")
          | None => None
          end)
  /\ (forall before after,
        Server.clickDetail click = None ->
        Server.clickDetails (before ++ click :: after) = None).
Proof.
  intros click detail.
  assert (Hlast : forall before after,
             Server.clickDetail click = None ->
             Server.clickDetails (before ++ click :: after) = None).
  { intros before after Hnone.
    induction before as [|c before IH]; cbn [app Server.clickDetails].
    - now rewrite Hnone.
    - rewrite IH. destruct (Server.clickDetail c); reflexivity. }
  split; [|split; [|exact Hlast]]; clear Hlast; subst detail click;
    unfold Server.clickDetail, Click.hasLocation, Click.excludeIp, Click.ofData,
      UrlService.parseRequestData;
    cbn [Click.timestamp Click.referer Click.location Click.d_referer Click.d_location
           Click.d_shortcode Click.d_ip Click.d_userAgent Click.d_device].
  - intros [H|[H|H]].
    + destruct (UrlService.ip requestData) as [[|c a]|]; [reflexivity|discriminate|reflexivity].
    + rewrite H. reflexivity.
    + rewrite H. reflexivity.
  - intros a Hip Hne H4 H6. rewrite Hip.
    assert (E4 : String.eqb a "127.0.0.1" = false) by now apply String.eqb_neq.
    assert (E6 : String.eqb a "::1" = false) by now apply String.eqb_neq.
    rewrite E4, E6. destruct a as [|c a]; [contradiction|]. cbn [JS.truthy andb negb].
    destruct (lookup env (String c a)); reflexivity.
Qed.

(** ** A validation error that reads like a conflict *)

Lemma prefix_app (search s rest : string) :
  prefix search s = true -> prefix search (s ++ rest) = true.
Proof.
  revert s. induction search as [|a search IH]; intros s H;
    [destruct (s ++ rest); reflexivity|].
  destruct s as [|b s]; [discriminate|]. cbn [prefix append] in *.
  destruct (ascii_dec a b); [now apply IH|discriminate].
Qed.

Lemma includes_app_l (s rest search : string) :
  JS.includes s search = true -> JS.includes (s ++ rest) search = true.
Proof.
  induction s as [|c s IH]; intro H.
  - cbn [JS.includes] in H. destruct search; [|discriminate].
    destruct rest; reflexivity.
  - rewrite includes_cons in H. cbn [append]. rewrite includes_cons.
    apply orb_true_iff in H. apply orb_true_iff. destruct H as [H|H].
    + left. now apply (prefix_app search (String c s) rest).
    + right. now apply IH.
Qed.

Lemma includes_app_r (pre s search : string) :
  JS.includes s search = true -> JS.includes (pre ++ s) search = true.
Proof.
  intro H. induction pre as [|c pre IH]; [exact H|].
  cbn [append]. rewrite includes_cons, IH. apply orb_true_r.
Qed.

Lemma joinErrors_last (shown : string -> string) (errs : list (string * Mongoose.Failure))
  (path : string) (f : Mongoose.Failure) :
  exists pre,
    Mongoose.joinErrors shown (errs ++ [(path, f)]) = pre ++ Mongoose.message shown path f.
Proof.
  induction errs as [|[p m] errs IH].
  - exists (path ++ ": "). cbn [app Mongoose.joinErrors]. now rewrite append_assoc.
  - destruct IH as (pre & IH).
    exists (p ++ ": " ++ Mongoose.message shown p m ++ ", " ++ pre).
    cbn [app]. destruct (errs ++ [(path, f)])%list as [|e rest] eqn:E.
    + destruct errs; discriminate.
    + change (Mongoose.joinErrors shown ((p, m) :: e :: rest))
        with (p ++ ": " ++ Mongoose.message shown p m ++ ", "
                ++ Mongoose.joinErrors shown (e :: rest)).
      rewrite IH. now rewrite !append_assoc.
Qed.

(** X20. A request to create a link whose description is longer than the
    500 characters of the schema is answered 409 SHORTCODE_EXISTS, whether
    or not its shortcode is taken, when the words "already exists" are in
    what the validation error quotes of the description: the handler reads
    the words in the message of the error. Nothing is written. *)
Theorem long_description_reads_as_conflict (env : Env) (now : Z) (fuel : nat)
  (body : Server.CreateRequest) (s : State) (d : string) :
  passesChecks env body s = true ->
  Server.validityOutOfRange (Server.validityMinutes (Server.validity body)) = false ->
  Server.description body = Some d ->
  (500 < String.length d)%nat ->
  JS.includes (shown env d) "already exists" = true ->
  Server.postShortUrls env now fuel body s = (Some shortcodeExists, s).
Proof.
  intros Hchecks Hrange Hd Hlong Hwords.
  rewrite (postShortUrls_after_checks _ _ _ _ _ Hchecks), Hrange.
  rewrite createShortUrl_run. cbv zeta.
  destruct (match UrlService.shortcode (urlDataOf body) with
            | Some (String c sc) =>
                match Url.findOneActive (urls s) (String c sc) with
                | Some _ => true
                | None => false
                end
            | _ => false
            end); [reflexivity|].
  assert (Hmessage : forall sc,
             exists errs,
               Url.validate sc (initOf now (urlDataOf body)) = errs
               /\ errs <> []
               /\ JS.includes ("Failed to create short URL: "
                                 ++ Mongoose.validationMessage (shown env) "Url" errs)
                    "already exists" = true).
  { intro sc. eexists. split; [reflexivity|]. unfold Url.validate.
    cbn [initOf urlDataOf UrlService.description Url.i_description]. rewrite Hd.
    unfold Url.validateDescription. apply Nat.ltb_lt in Hlong. rewrite Hlong.
    rewrite app_assoc.
    split; [intro H; apply app_eq_nil in H; destruct H; discriminate|].
    match goal with
    | |- context [Mongoose.validationMessage _ _ (?l ++ [(?p, ?m)])%list] =>
        destruct (joinErrors_last (shown env) l p m) as (pre & Hjoin)
    end.
    unfold Mongoose.validationMessage.
    rewrite Hjoin. cbn [Mongoose.message]. unfold Mongoose.maxlengthMessage.
    do 7 apply includes_app_r. apply includes_app_l. exact Hwords. }
  destruct (Hmessage (Url.shortcodeOf (initOf now (urlDataOf body))))
    as (errs & Hv & Hne & Hinc).
  rewrite Hv. destruct errs as [|e errs]; [contradiction|]. rewrite Hinc. reflexivity.
Qed.

Lemma long_description_reads_as_conflict_witness :
  Server.postShortUrls Sample.env 0 1 Sample.wordy Sample.state
  = (Some shortcodeExists, Sample.state).
Proof.
  refine (long_description_reads_as_conflict Sample.env 0 1 Sample.wordy
            Sample.state _ eq_refl eq_refl eq_refl _ _).
  - apply Nat.ltb_lt. vm_compute. reflexivity.
  - vm_compute. reflexivity.
Defined.

(** ** The instant of expiry *)

(** X21. At the very instant of its expiry an active link is not yet
    expired for the backend: a lookup by its shortcode, with or without
    white space around it, returns it and writes nothing, the sweep leaves
    it as it is and the listing reports it as not expired, with no time
    remaining; but [findActive] no longer returns it, and the statistics
    page shows it as "Expired". *)
Theorem expiry_instant (env : Env) (s : State) (u : Url.t) :
  dbConnected s = true ->
  uniqueShortcodes (urls s) ->
  In u (urls s) ->
  Url.isActive u = true ->
  let now := Url.expiresAt u in
  (forall sc, JS.trim sc = Url.shortcode u ->
              UrlService.getUrlByShortcode now sc s = (Return (Some u), s))
  /\ In u (urls (Server.sweep now s))
  /\ Url.isExpired now u = false
  /\ Url.timeRemaining now u = 0%Z
  /\ UrlService.l_isExpired (UrlService.withExtras env now u) = false
  /\ UrlService.l_timeRemaining (UrlService.withExtras env now u) = 0%Z
  /\ ~ In u (Url.findActive now (urls s))
  /\ Statistics.getTimeRemaining now (Url.expiresAt u) = "Expired".
Proof.
  intros Hdb Hscs Hin Hact now. subst now.
  assert (Hexp : Url.isExpired (Url.expiresAt u) u = false).
  { unfold Url.isExpired. lia. }
  split; [|split; [|split; [|split; [|split; [|split; [|split]]]]]].
  - intros sc Hsc.
    rewrite getUrlByShortcode_run, (findOneActive_unique _ _ Hscs Hin sc Hsc), Hact, Hexp.
    reflexivity.
  - rewrite (sweep_run _ s Hdb). unfold setUrls. cbn [urls]. apply in_map_iff.
    exists u. split; [|exact Hin]. unfold Url.isExpired in Hexp. now rewrite Hexp.
  - exact Hexp.
  - unfold Url.timeRemaining. rewrite Z.sub_diag. reflexivity.
  - cbn [UrlService.withExtras UrlService.l_isExpired]. lia.
  - cbn [UrlService.withExtras UrlService.l_timeRemaining]. rewrite Z.ltb_irrefl. reflexivity.
  - intro H. apply filter_In in H. destruct H as (_ & H). apply andb_prop in H. lia.
  - unfold Statistics.getTimeRemaining. rewrite Z.sub_diag. reflexivity.
Qed.

Lemma expiry_instant_witness :
  UrlService.getUrlByShortcode 600000 "abc" Sample.state = (Return (Some Sample.link),
                                                            Sample.state)
  /\ Url.findActive 600000 (urls Sample.state) = [].
Proof.
  pose proof (expiry_instant Sample.env Sample.state Sample.link eq_refl) as H.
  assert (Hscs : uniqueShortcodes (urls Sample.state)).
  { repeat constructor; simpl; intuition. }
  specialize (H Hscs (or_introl eq_refl) eq_refl). cbv zeta in H.
  destruct H as (Hget & _). split; [exact (Hget "abc" eq_refl)|reflexivity].
Defined.

(** ** A limit of zero *)

(** X22. With a limit of 0, which the store reads as no limit,
    [getAllUrls] returns on every page the whole sorted listing, and
    [hasNextPage] holds on every page as soon as one link is admitted
    ([totalPages] is infinite), so there is no last page. *)
Theorem getAllUrls_limit_zero (env : Env) (now : Z) (p : nat)
  (sortBy : option UrlService.SortField) (sortOrder : option string)
  (includeInactive : option bool) (s : State) :
  let options := UrlService.mkOptions (Some p) (Some 0) sortBy sortOrder includeInactive in
  let f := match sortBy with Some x => x | None => UrlService.ByCreatedAt end in
  let order := match sortOrder with Some x => x | None => "desc" end in
  let found := if match includeInactive with Some b => b | None => true end
               then urls s else filter Url.isActive (urls s) in
  exists page,
    UrlService.getAllUrls env now options s = (Return page, s)
    /\ map UrlService.l_url (UrlService.listed page) = UrlService.sorted f order found
    /\ Permutation (map UrlService.l_url (UrlService.listed page)) found
    /\ (UrlService.hasNextPage (UrlService.pagination page) = true <-> found <> [])
    /\ (found <> [] ->
        UrlService.totalPages (UrlService.pagination page) = UrlService.Infinity).
Proof.
  intros options f order found. eexists. rewrite getAllUrls_run. cbv zeta.
  cbn [options UrlService.page UrlService.limit UrlService.sortBy UrlService.sortOrder
         UrlService.includeInactive].
  fold f order. unfold Url.findAll. fold found.
  cbn [Nat.eqb negb]. rewrite andb_false_r. split; [reflexivity|].
  cbn [UrlService.listed UrlService.pagination UrlService.hasNextPage UrlService.totalPages
         Click.limit].
  rewrite Nat.mul_0_r. cbn [skipn].
  assert (Hurls : map UrlService.l_url
                    (map (UrlService.withExtras env now) (UrlService.sorted f order found))
                  = UrlService.sorted f order found).
  { rewrite map_map. cbn [UrlService.withExtras UrlService.l_url]. apply map_id. }
  rewrite Hurls. split; [reflexivity|]. split; [apply sorted_perm|].
  unfold UrlService.pagesOf. destruct found as [|u us]; cbn [List.length UrlService.beforePage].
  - split; [split; [discriminate|intro H; now contradiction H]|intro H; now contradiction H].
  - split; [split; [discriminate|reflexivity]|reflexivity].
Qed.

(** ** A validity of zero *)

(** X23. [POST /shorturls] treats a validity of 0 as an omitted validity:
    the request is answered, and changes the store, exactly as the same
    request without a validity, so it can create a link that is valid for
    30 minutes. *)
Theorem zero_validity_is_default (env : Env) (now : Z) (fuel : nat)
  (body : Server.CreateRequest) (v : Q) (s : State) :
  Server.validity body = Some v ->
  (v == 0)%Q ->
  Server.postShortUrls env now fuel body s
  = Server.postShortUrls env now fuel
      (Server.mkCreateRequest (Server.url body) None (Server.shortcode body)
         (Server.tags body) (Server.description body)) s.
Proof.
  intros Hv Hzero. unfold Server.postShortUrls.
  cbn [Server.url Server.validity Server.shortcode Server.tags Server.description].
  rewrite Hv. unfold Server.validityMinutes.
  apply Qeq_bool_iff in Hzero. rewrite Hzero. reflexivity.
Qed.

Lemma zero_validity_is_default_witness :
  Server.postShortUrls Sample.env 0 1
    (Server.mkCreateRequest (Some "https://example.com") (Some 0%Q) (Some "xyz") None None)
    Sample.state
  = (Some (created "http://localhost:8080/xyz" 1800000 "xyz"),
     snd (Server.postShortUrls Sample.env 0 1 Sample.plain Sample.state)).
Proof.
  rewrite (zero_validity_is_default Sample.env 0 1
             (Server.mkCreateRequest (Some "https://example.com") (Some 0%Q) (Some "xyz")
                None None)
             0%Q Sample.state eq_refl); [|reflexivity].
  vm_compute. reflexivity.
Defined.

(** ** Shortcodes that no request reaches *)

